(** * duckdb-wasm: the web filesystem registry and the connection state

    A shallow embedding of
      - [lib/src/io/web_filesystem.cc]  (DataBuffer, file registry, handles,
        positional and sequential reads and writes, file infos, globbing),
        and
      - [lib/src/webdb.cc]              (prepared statements and their
        arguments, Arrow IPC insert, registration of files through WebDB)
    together with the properties the specification states about them, and
    further properties of the code: invariants, round trips and the
    behaviour at the edges.

    Conventions.
      - Machine integers are [Z] with the wrap-around written out:
        [usize w] is the cast to a [w]-bit [size_t], [u64] the cast to
        [uint64_t], [i64] the cast to [int64_t].  [size_t] has 32 bits on the
        wasm32 target and 64 bits on the native test target, so its width is
        a parameter [w] of every definition that computes in [size_t].
      - [std::shared_ptr<WebFile>] is an address into a store of [WebFile]
        objects; both registry maps and every handle hold addresses, so a
        mutation through one alias is seen through all others.
      - Calls into the host runtime ([duckdb_web_fs_*]) take their results
        from a [Runtime] record and are recorded, with the operations on
        [fs_mutex_], in the filesystem's event log. *)

From Stdlib Require Import ZArith Lia List String Ascii.
From Stdlib Require Import Strings.Byte DecimalString.
From Stdlib Require OrderedTypeEx.
From stdpp Require Import gmap strings list fin_maps sorting.

Open Scope Z_scope.

(* ===================================================================== *)
(** * Machine integers *)
(* ===================================================================== *)

Definition usize (w x : Z) : Z := x mod 2 ^ w.
Definition SIZE_MAX (w : Z) : Z := 2 ^ w - 1.
Definition u64 (x : Z) : Z := x mod 2 ^ 64.
Definition i64 (x : Z) : Z := (x + 2 ^ 63) mod 2 ^ 64 - 2 ^ 63.

(* ===================================================================== *)
(** * WebFileSystem::DataBuffer *)
(* ===================================================================== *)

(** [data_] is the owned [char[]]: one array, [capacity_] bytes long. *)
Record DataBuffer := mkDataBuffer {
  data_ : list byte;
  size_ : Z;
  capacity_ : Z
}.

(** [DataBuffer(std::unique_ptr<char[]> data, size_t size)] *)
Definition DataBuffer_new (data : list byte) (size : Z) : DataBuffer :=
  {| data_ := data; size_ := size; capacity_ := size |}.

(** [new char[cap]] followed by [memcpy(next, src, n)]: the first [n] bytes
    of [src], then bytes the code never initialises (zero in the model). *)
Definition new_array_copy (cap : Z) (src : list byte) (n : Z) : list byte :=
  let copied := take (Z.to_nat n) src in
  take (Z.to_nat cap) (copied ++ replicate (Z.to_nat cap - length copied)%nat Byte.x00).

(** [capacity_ + capacity_ + capacity_ / 4] in [size_t] arithmetic. *)
Definition grow_capacity (w cap : Z) : Z :=
  usize w (usize w (cap + cap) + cap / 4).

(** [void DataBuffer::Resize(size_t n)] *)
Definition Resize (w : Z) (b : DataBuffer) (n : Z) : DataBuffer :=
  if capacity_ b <? n then
    let cap := Z.max (grow_capacity w (capacity_ b)) n in
    {| data_ := new_array_copy cap (data_ b) (size_ b);
       size_ := n;
       capacity_ := cap |}
  else if n <? capacity_ b / 2 then
    {| data_ := new_array_copy n (data_ b) n;
       size_ := n;
       capacity_ := n |}
  else
    {| data_ := data_ b; size_ := n; capacity_ := capacity_ b |}.

(** A buffer as the constructor and [Resize] leave it: the array has
    [capacity_] bytes, of which the first [size_] are in use. *)
Definition DataBuffer_ok (w : Z) (b : DataBuffer) : Prop :=
  0 <= size_ b <= capacity_ b /\ capacity_ b < 2 ^ w /\
  Z.of_nat (length (data_ b)) = capacity_ b.

(* ===================================================================== *)
(** * Results of calls *)
(* ===================================================================== *)

(** [arrow::Status]: the codes this code base returns, and the message. *)
Inductive StatusCode :=
  | OK | Invalid | KeyError | ExecutionError | UnknownError.

Record Status := mkStatus { code : StatusCode; message : string }.

(** [arrow::Result<T>] *)
Inductive Result (A : Type) : Type :=
  | Value (a : A)
  | Error (s : Status).
Arguments Value {A} a.
Arguments Error {A} s.

(** A call that may leave by a C++ exception ([what] is [e.what()]). *)
Inductive Exc (A : Type) : Type :=
  | Normal (a : A)
  | Throw (what : string).
Arguments Normal {A} a.
Arguments Throw {A} what.

(** How a call of a C++ function ends. *)
Inductive Outcome (A : Type) : Type :=
  | Returns (a : A)          (* it returns *)
  | Throws (what : string)   (* an exception leaves it *)
  | Undefined.               (* the C++ standard gives it no meaning *)
Arguments Returns {A} a.
Arguments Throws {A} what.
Arguments Undefined {A}.

(* ===================================================================== *)
(** * Files, handles and the registry *)
(* ===================================================================== *)

(** [enum DataProtocol : uint8_t { BUFFER = 0, NATIVE = 1, HTTP = 2 }] *)
Inductive DataProtocol := BUFFER | NATIVE | HTTP.

#[global] Instance DataProtocol_eq_dec : EqDecision DataProtocol.
Proof. solve_decision. Defined.

(** [WebFileSystem::WebFile].  The statistics collector, the file mutex and
    the back reference to the filesystem are left out: no property below
    reads them. *)
Record WebFile := mkWebFile {
  file_id_ : Z;
  file_name_ : string;
  data_protocol_ : DataProtocol;
  data_url_ : option string;
  data_fd_ : option Z;
  file_size_ : Z;
  data_buffer_ : option DataBuffer;
  handle_count_ : Z
}.

Definition set_data_protocol (v : DataProtocol) (f : WebFile) : WebFile :=
  mkWebFile (file_id_ f) (file_name_ f) v (data_url_ f) (data_fd_ f)
            (file_size_ f) (data_buffer_ f) (handle_count_ f).
Definition set_data_url (v : option string) (f : WebFile) : WebFile :=
  mkWebFile (file_id_ f) (file_name_ f) (data_protocol_ f) v (data_fd_ f)
            (file_size_ f) (data_buffer_ f) (handle_count_ f).
Definition set_data_fd (v : option Z) (f : WebFile) : WebFile :=
  mkWebFile (file_id_ f) (file_name_ f) (data_protocol_ f) (data_url_ f) v
            (file_size_ f) (data_buffer_ f) (handle_count_ f).
Definition set_file_size (v : Z) (f : WebFile) : WebFile :=
  mkWebFile (file_id_ f) (file_name_ f) (data_protocol_ f) (data_url_ f)
            (data_fd_ f) v (data_buffer_ f) (handle_count_ f).
Definition set_data_buffer (v : option DataBuffer) (f : WebFile) : WebFile :=
  mkWebFile (file_id_ f) (file_name_ f) (data_protocol_ f) (data_url_ f)
            (data_fd_ f) (file_size_ f) v (handle_count_ f).
Definition set_handle_count (v : Z) (f : WebFile) : WebFile :=
  mkWebFile (file_id_ f) (file_name_ f) (data_protocol_ f) (data_url_ f)
            (data_fd_ f) (file_size_ f) (data_buffer_ f) v.

(** Modelled from the spec: the constructor [WebFile(fs, file_id, file_name,
    protocol)] is declared in web_filesystem.h, which is not among the
    sources.  A new file has no handle, no url, no descriptor, no buffer and
    size 0. *)
Definition WebFile_new (file_id : Z) (file_name : string) (proto : DataProtocol)
  : WebFile :=
  mkWebFile file_id file_name proto None None 0 None 0.

#[global] Instance WebFile_inhabited : Inhabited WebFile :=
  populate (WebFile_new 0 EmptyString BUFFER).

(** What the filesystem does that can be seen from outside the registry:
    it takes and releases [fs_mutex_], and it calls the host runtime. *)
Inductive Event :=
  | FsLock
  | FsUnlock
  | RtFileOpen (file_id : Z)
  | RtFileClose (file_id : Z)
  | RtFileTruncate (file_id new_size : Z)
  | RtFileWrite (file_id nr_bytes location : Z).

(** An address of a [WebFile] object, i.e. a [std::shared_ptr<WebFile>]. *)
Abbreviation addr := nat.

(** [WebFileSystem]: the store of file objects, the two registry maps, the
    id counter, and the events so far (oldest first). *)
Record WebFileSystem := mkWebFileSystem {
  store : gmap nat WebFile;
  files_by_id_ : gmap Z nat;
  files_by_name_ : gmap string nat;
  next_file_id_ : Z;
  events : list Event
}.

Definition WebFileSystem_new : WebFileSystem :=
  mkWebFileSystem ∅ ∅ ∅ 0 [].

Definition set_store (v : gmap nat WebFile) (fs : WebFileSystem) :=
  mkWebFileSystem v (files_by_id_ fs) (files_by_name_ fs) (next_file_id_ fs)
                  (events fs).
Definition set_files_by_id (v : gmap Z nat) (fs : WebFileSystem) :=
  mkWebFileSystem (store fs) v (files_by_name_ fs) (next_file_id_ fs) (events fs).
Definition set_files_by_name (v : gmap string nat) (fs : WebFileSystem) :=
  mkWebFileSystem (store fs) (files_by_id_ fs) v (next_file_id_ fs) (events fs).
Definition set_next_file_id (v : Z) (fs : WebFileSystem) :=
  mkWebFileSystem (store fs) (files_by_id_ fs) (files_by_name_ fs) v (events fs).
Definition log (e : Event) (fs : WebFileSystem) :=
  mkWebFileSystem (store fs) (files_by_id_ fs) (files_by_name_ fs)
                  (next_file_id_ fs) (events fs ++ [e]).

(** [*p] for a shared pointer [p]. *)
Definition deref (fs : WebFileSystem) (p : addr) : WebFile := store fs !!! p.

(** [p->field = ...]: the object at [p] is changed in place. *)
Definition update_file (p : addr) (g : WebFile -> WebFile) (fs : WebFileSystem)
  : WebFileSystem :=
  set_store (alter g p (store fs)) fs.

(** [std::make_shared<WebFile>(...)]: a new object at an unused address. *)
Definition make_shared (file : WebFile) (fs : WebFileSystem)
  : WebFileSystem * addr :=
  let p := fresh (dom (store fs)) in
  (set_store (<[p := file]> (store fs)) fs, p).

(** [std::unordered_map::insert]: an existing key keeps its value. *)
Definition map_insert_new `{Countable K} {V} (k : K) (v : V) (m : gmap K V)
  : gmap K V :=
  match m !! k with
  | Some _ => m
  | None => <[k := v]> m
  end.

(** Modelled from the spec: [AllocateFileID] is defined in web_filesystem.h,
    which is not among the sources; the spec calls the file id an "opaque
    monotonically assigned integer", modelled as a counter. *)
Definition AllocateFileID (fs : WebFileSystem) : WebFileSystem * Z :=
  (set_next_file_id (next_file_id_ fs + 1) fs, next_file_id_ fs).

(** [WebFileSystem::WebFileHandle]: the file it refers to ([nullptr] once
    closed) and its position. *)
Record WebFileHandle := mkWebFileHandle {
  file_ : option nat;
  position_ : Z
}.

(** Modelled from the spec: the constructor [WebFileHandle(file)] is defined
    in web_filesystem.h, which is not among the sources; the spec says that
    constructing a handle increments [handle_count]. *)
Definition WebFileHandle_new (p : addr) (fs : WebFileSystem)
  : WebFileSystem * WebFileHandle :=
  (update_file p (fun f => set_handle_count (handle_count_ f + 1) f) fs,
   mkWebFileHandle (Some p) 0).

(** [hasPrefix]: [text.compare(0, prefix.size(), prefix) == 0]. *)
Definition hasPrefix (text pre : string) : bool :=
  String.eqb (substring 0 (String.length pre) text) pre.

(** The body of [inferDataProtocol]: the protocol it returns, and the final
    value of its local [data_url]. *)
Definition inferDataProtocol_body (url : string) : DataProtocol * string :=
  let data_url := url in
  if hasPrefix url "http://" || hasPrefix url "https://" then
    (HTTP, data_url)
  else if hasPrefix url "file://" then
    (NATIVE, substring 7 (String.length url - 7) url)
  else
    (NATIVE, data_url).

(** [inferDataProtocol] returns [proto]; the local [data_url] is dropped. *)
Definition inferDataProtocol (url : string) : DataProtocol :=
  fst (inferDataProtocol_body url).

Definition Status_OK : Status := mkStatus OK EmptyString.
Definition Status_Invalid (msg : string) : Status := mkStatus Invalid msg.

(** [Status::ok()] *)
Definition ok (s : Status) : bool :=
  match code s with OK => true | _ => false end.

(** A number as the message builders print it. *)
Definition show_Z (z : Z) : string := NilZero.string_of_int (Z.to_int z).

(** [WebFileSystem::RegisterFileURL] *)
Definition RegisterFileURL (fs : WebFileSystem) (file_name file_url : string)
    (file_size : option Z) : WebFileSystem * Result WebFileHandle :=
  let fs := log FsLock fs in
  match files_by_name_ fs !! file_name with
  | Some p =>
      if decide (data_url_ (deref fs p) = Some file_url) then
        let '(fs, handle) := WebFileHandle_new p fs in
        (log FsUnlock fs, Value handle)
      else
        (log FsUnlock fs,
         Error (Status_Invalid ("File already registered: " +:+ file_name)))
  | None =>
      let proto := inferDataProtocol file_url in
      let '(fs, file_id) := AllocateFileID fs in
      let file :=
        set_file_size (default 0 file_size)
          (set_data_url (Some file_url) (WebFile_new file_id file_name proto)) in
      let '(fs, p) := make_shared file fs in
      let fs := set_files_by_id (map_insert_new file_id p (files_by_id_ fs)) fs in
      let fs :=
        set_files_by_name (map_insert_new file_name p (files_by_name_ fs)) fs in
      let '(fs, handle) := WebFileHandle_new p fs in
      (log FsUnlock fs, Value handle)
  end.

(** [WebFileSystem::RegisterFileBuffer] *)
Definition RegisterFileBuffer (fs : WebFileSystem) (file_name : string)
    (file_buffer : DataBuffer) : WebFileSystem * Result WebFileHandle :=
  let fs := log FsLock fs in
  match files_by_name_ fs !! file_name with
  | Some p =>
      match data_protocol_ (deref fs p) with
      | NATIVE =>
          let fs := update_file p (set_file_size (size_ file_buffer)) fs in
          let fs := update_file p (set_data_buffer (Some file_buffer)) fs in
          let '(fs, handle) := WebFileHandle_new p fs in
          let fs := log FsUnlock fs in
          let fs := log (RtFileClose (file_id_ (deref fs p))) fs in
          let fs := log FsLock fs in
          (log FsUnlock fs, Value handle)
      | HTTP | BUFFER =>
          let fs := update_file p (set_data_protocol BUFFER) fs in
          let fs := update_file p (set_file_size (size_ file_buffer)) fs in
          let fs := update_file p (set_data_buffer (Some file_buffer)) fs in
          let '(fs, handle) := WebFileHandle_new p fs in
          (log FsUnlock fs, Value handle)
      end
  | None =>
      let '(fs, file_id) := AllocateFileID fs in
      let file :=
        set_data_buffer (Some file_buffer)
          (set_file_size (size_ file_buffer)
             (WebFile_new file_id file_name BUFFER)) in
      let '(fs, p) := make_shared file fs in
      let fs := set_files_by_id (map_insert_new file_id p (files_by_id_ fs)) fs in
      let fs :=
        set_files_by_name (map_insert_new file_name p (files_by_name_ fs)) fs in
      let '(fs, handle) := WebFileHandle_new p fs in
      (log FsUnlock fs, Value handle)
  end.

(** [WebFileSystem::DropDanglingFiles].  The first loop visits the entries
    of [files_by_id_] (in the order [map_to_list] gives them), erases the
    name of every file without a handle and collects its id; the second loop
    erases the collected ids. *)
Definition DropDanglingFiles_scan (fs : WebFileSystem)
    (acc : gmap string nat * list Z) (entry : Z * nat) : gmap string nat * list Z :=
  let '(by_name, to_delete) := acc in
  let '(file_id, p) := entry in
  if handle_count_ (deref fs p) =? 0 then
    (delete (file_name_ (deref fs p)) by_name, to_delete ++ [file_id])
  else
    (by_name, to_delete).

Definition DropDanglingFiles (fs : WebFileSystem) : WebFileSystem :=
  let fs := log FsLock fs in
  let '(by_name, to_delete) :=
    foldl (DropDanglingFiles_scan fs) (files_by_name_ fs, [])
          (map_to_list (files_by_id_ fs)) in
  let fs := set_files_by_name by_name fs in
  let fs :=
    set_files_by_id
      (foldl (fun m file_id => delete file_id m) (files_by_id_ fs) to_delete) fs in
  log FsUnlock fs.

(** [WebFileSystem::TryDropFile] *)
Definition TryDropFile (fs : WebFileSystem) (file_name : string)
  : WebFileSystem * bool :=
  let fs := log FsLock fs in
  match files_by_name_ fs !! file_name with
  | None => (log FsUnlock fs, true)
  | Some p =>
      if handle_count_ (deref fs p) =? 0 then
        let fs :=
          set_files_by_id (delete (file_id_ (deref fs p)) (files_by_id_ fs)) fs in
        let fs :=
          set_files_by_name
            (delete (file_name_ (deref fs p)) (files_by_name_ fs)) fs in
        (log FsUnlock fs, true)
      else
        (log FsUnlock fs, false)
  end.

(** [WebFileSystem::SetFileDescriptor] *)
Definition SetFileDescriptor (fs : WebFileSystem) (file_id file_descriptor : Z)
  : WebFileSystem * Result unit :=
  let fs := log FsLock fs in
  match files_by_id_ fs !! file_id with
  | None =>
      (log FsUnlock fs,
       Error (Status_Invalid ("Invalid file id: " +:+ show_Z file_id)))
  | Some p =>
      let fs := update_file p (set_data_fd (Some file_descriptor)) fs in
      (log FsUnlock fs, Value tt)
  end.

(** [WebFileSystem::WebFileHandle::Close].  [have_file_lock] is the result
    of [file_guard.try_lock()], which other threads decide.  Looking up the
    file's id and using the iterator without a check is undefined when the
    id is not in [files_by_id_]. *)
Definition Close (have_file_lock : bool) (fs : WebFileSystem) (h : WebFileHandle)
  : WebFileSystem * Outcome WebFileHandle :=
  match file_ h with
  | None => (fs, Returns h)
  | Some p =>
      let h := mkWebFileHandle None (position_ h) in
      let fs := log FsLock fs in
      let fs := update_file p (fun f => set_handle_count (handle_count_ f - 1) f) fs in
      if 0 <? handle_count_ (deref fs p) then (log FsUnlock fs, Returns h)
      else if negb have_file_lock then (log FsUnlock fs, Returns h)
      else if decide (data_protocol_ (deref fs p) = BUFFER) then
        (log FsUnlock fs, Returns h)
      else
        let fs := log FsUnlock fs in
        let fs := log (RtFileClose (file_id_ (deref fs p))) fs in
        let fs := log FsLock fs in
        let fs :=
          set_files_by_name
            (delete (file_name_ (deref fs p)) (files_by_name_ fs)) fs in
        match files_by_id_ fs !! file_id_ (deref fs p) with
        | None => (fs, Undefined)
        | Some _ =>
            let fs :=
              set_files_by_id
                (delete (file_id_ (deref fs p)) (files_by_id_ fs)) fs in
            (log FsUnlock fs, Returns h)
        end
  end.

(** Modelled from the spec: the destructor [~WebFileHandle] is defined in
    web_filesystem.h, which is not among the sources; the spec says that
    destroying a handle decrements [handle_count] and, at zero for a file
    that is not BUFFER, closes and unregisters the file, which is [Close]. *)
Definition WebFileHandle_destroy (have_file_lock : bool) (fs : WebFileSystem)
    (h : WebFileHandle) : WebFileSystem * Outcome unit :=
  match Close have_file_lock fs h with
  | (fs, Returns _) => (fs, Returns tt)
  | (fs, Throws what) => (fs, Throws what)
  | (fs, Undefined) => (fs, Undefined)
  end.

(* ===================================================================== *)
(** * The host runtime *)
(* ===================================================================== *)

(** [struct OpenedFile]: [file_buffer] is a pointer, 0 when the host did not
    copy the file into memory. *)
Record OpenedFile := mkOpenedFile {
  opened_file_size : Z;
  opened_file_buffer : option (list byte)
}.

(** What the filesystem calls but does not define, taken as a parameter.
    [rt_file_open], [rt_file_truncate] and [rt_file_write] are the
    [duckdb_web_fs_file_*] functions, which are [extern "C"] on the web
    target.  [rt_read_ahead file_id file_size nr_bytes position] is
    [ReadAheadBuffer::Read] (declared in readahead_buffer.h, which is not
    among the sources) with the host's read behind it: the number of bytes
    it delivers for a read of a NATIVE or HTTP file, and the bytes. *)
Record Runtime := mkRuntime {
  rt_file_open : Z -> Exc (option OpenedFile);
  rt_file_truncate : Z -> Z -> Exc unit;
  rt_file_write : Z -> list byte -> Z -> Z -> Z;
  rt_read_ahead : Z -> Z -> Z -> Z -> Z * list byte
}.

(* ===================================================================== *)
(** * Opening and truncating *)
(* ===================================================================== *)

(** [duckdb::FileFlags::FILE_FLAGS_FILE_CREATE_NEW], [1 << 4] in the engine's
    file_system.hpp. *)
Definition FILE_FLAGS_FILE_CREATE_NEW : Z := 16.

Definition create_new_set (flags : Z) : bool :=
  negb (Z.land flags FILE_FLAGS_FILE_CREATE_NEW =? 0).

(** [WebFileSystem::InvalidateReadAheads]: the read-ahead buffers are not
    modelled; what is left is taking and releasing [fs_mutex_]. *)
Definition InvalidateReadAheads (fs : WebFileSystem) : WebFileSystem :=
  log FsUnlock (log FsLock fs).

(** [WebFileSystem::Truncate] *)
Definition Truncate (w : Z) (rt : Runtime) (fs : WebFileSystem)
    (h : WebFileHandle) (new_size : Z) : WebFileSystem * Outcome unit :=
  match file_ h with
  | None => (fs, Undefined)
  | Some p =>
      let finish fs :=
        let fs := update_file p (set_file_size (u64 new_size)) fs in
        (InvalidateReadAheads fs, Returns tt) in
      match data_protocol_ (deref fs p) with
      | BUFFER =>
          match data_buffer_ (deref fs p) with
          | None => (fs, Undefined)
          | Some b =>
              finish
                (update_file p
                   (set_data_buffer (Some (Resize w b (usize w new_size)))) fs)
          end
      | NATIVE | HTTP =>
          let fs := log (RtFileTruncate (file_id_ (deref fs p)) new_size) fs in
          match rt_file_truncate rt (file_id_ (deref fs p)) new_size with
          | Throw what => (fs, Throws what)
          | Normal _ => finish fs
          end
      end
  end.

(** The [catch] block of [OpenFile], and the unwinding after its [throw],
    which destroys the local [handle]. *)
Definition OpenFile_abort (have_file_lock : bool) (fs : WebFileSystem) (p : addr)
    (handle : WebFileHandle) (what : string)
  : WebFileSystem * Outcome WebFileHandle :=
  let fs := log FsLock fs in
  let fs :=
    set_files_by_name (delete (file_name_ (deref fs p)) (files_by_name_ fs)) fs in
  match files_by_id_ fs !! file_id_ (deref fs p) with
  | None => (fs, Undefined)
  | Some _ =>
      let fs :=
        set_files_by_id (delete (file_id_ (deref fs p)) (files_by_id_ fs)) fs in
      let fs := log FsUnlock fs in
      let msg :=
        "Opening file '" +:+ file_name_ (deref fs p) +:+
        "' failed with error: " +:+ what in
      match WebFileHandle_destroy have_file_lock fs handle with
      | (fs, Returns _) => (fs, Throws msg)
      | (fs, Throws other) => (fs, Throws other)
      | (fs, Undefined) => (fs, Undefined)
      end
  end.

(** The [try] block of [OpenFile]: the host opens the file. *)
Definition OpenFile_host (w : Z) (rt : Runtime) (have_file_lock : bool)
    (fs : WebFileSystem) (p : addr) (handle : WebFileHandle) (flags : Z)
  : WebFileSystem * Outcome WebFileHandle :=
  let fs := log (RtFileOpen (file_id_ (deref fs p))) fs in
  match rt_file_open rt (file_id_ (deref fs p)) with
  | Throw what => OpenFile_abort have_file_lock fs p handle what
  | Normal None =>
      OpenFile_abort have_file_lock fs p handle
        ("Failed to open file: " +:+ file_name_ (deref fs p))
  | Normal (Some opened) =>
      let fs := update_file p (set_file_size (opened_file_size opened)) fs in
      let fs :=
        match opened_file_buffer opened with
        | Some bytes =>
            let fs := update_file p (set_data_protocol BUFFER) fs in
            update_file p
              (fun f =>
                 set_data_buffer
                   (Some (DataBuffer_new bytes (usize w (file_size_ f)))) f) fs
        | None => fs
        end in
      if create_new_set flags then
        match Truncate w rt fs handle 0 with
        | (fs, Returns _) => (fs, Returns handle)
        | (fs, Throws what) => OpenFile_abort have_file_lock fs p handle what
        | (fs, Undefined) => (fs, Undefined)
        end
      else (fs, Returns handle)
  end.

(** [WebFileSystem::OpenFile].  The statistics collector attached at the end
    is not modelled. *)
Definition OpenFile (w : Z) (rt : Runtime) (have_file_lock : bool)
    (fs : WebFileSystem) (url : string) (flags : Z)
  : WebFileSystem * Outcome WebFileHandle :=
  let fs := log FsLock fs in
  let '(fs, p) :=
    match files_by_name_ fs !! url with
    | None =>
        let data_proto := inferDataProtocol url in
        let '(fs, file_id) := AllocateFileID fs in
        let '(fs, p) := make_shared (WebFile_new file_id url data_proto) fs in
        let fs := update_file p (set_data_url (Some url)) fs in
        let fs := set_files_by_id (map_insert_new file_id p (files_by_id_ fs)) fs in
        let fs :=
          set_files_by_name (map_insert_new url p (files_by_name_ fs)) fs in
        (fs, p)
    | Some p => (fs, p)
    end in
  let '(fs, handle) := WebFileHandle_new p fs in
  let fs := log FsUnlock fs in
  match data_protocol_ (deref fs p) with
  | BUFFER =>
      if create_new_set flags then
        match data_buffer_ (deref fs p) with
        | None => (fs, Undefined)
        | Some b =>
            let fs := update_file p (set_data_buffer (Some (Resize w b 0))) fs in
            (update_file p (set_file_size 0) fs, Returns handle)
        end
      else (fs, Returns handle)
  | NATIVE =>
      match data_fd_ (deref fs p) with
      | Some _ => (fs, Returns handle)
      | None => OpenFile_host w rt have_file_lock fs p handle flags
      end
  | HTTP => OpenFile_host w rt have_file_lock fs p handle flags
  end.

(* ===================================================================== *)
(** * Reading and writing *)
(* ===================================================================== *)

Definition set_position (v : Z) (h : WebFileHandle) : WebFileHandle :=
  mkWebFileHandle (file_ h) v.

Definition set_data (v : list byte) (b : DataBuffer) : DataBuffer :=
  mkDataBuffer v (size_ b) (capacity_ b).

(** [memcpy(dst + pos, src, n)] *)
Definition memcpy_into (dst : list byte) (pos : Z) (src : list byte) (n : Z)
  : list byte :=
  take (Z.to_nat pos) dst ++ take (Z.to_nat n) src ++ drop (Z.to_nat (pos + n)) dst.

(** [int64_t WebFileSystem::Read(handle, buffer, nr_bytes)]: the number of
    bytes read and the bytes copied to [buffer]. *)
Definition Read (w : Z) (rt : Runtime) (fs : WebFileSystem) (h : WebFileHandle)
    (nr_bytes : Z) : WebFileSystem * WebFileHandle * Outcome (Z * list byte) :=
  match file_ h with
  | None => (fs, h, Undefined)
  | Some p =>
      match data_protocol_ (deref fs p) with
      | BUFFER =>
          match data_buffer_ (deref fs p) with
          | None => (fs, h, Undefined)
          | Some b =>
              let file_size := size_ b in
              let n :=
                Z.min (usize w nr_bytes)
                      (usize w (file_size - Z.min (usize w (position_ h)) file_size)) in
              let bytes :=
                take (Z.to_nat n) (drop (Z.to_nat (position_ h)) (data_ b)) in
              (fs, set_position (u64 (position_ h + n)) h, Returns (i64 n, bytes))
          end
      | NATIVE | HTTP =>
          let '(n, bytes) :=
            rt_read_ahead rt (file_id_ (deref fs p)) (file_size_ (deref fs p))
                          nr_bytes (position_ h) in
          (fs, set_position (u64 (position_ h + n)) h, Returns (n, bytes))
      end
  end.

(** The loop of [void WebFileSystem::Read(handle, buffer, nr_bytes, location)].
    [location] and [file_size] are the loop's two locals that it never
    assigns.  [None]: the fuel ran out before the loop ended. *)
Fixpoint Read_loop (fuel : nat) (w : Z) (rt : Runtime) (fs : WebFileSystem)
    (h : WebFileHandle) (location file_size nr_bytes : Z) (out : list byte)
  : option (WebFileSystem * WebFileHandle * Outcome (list byte)) :=
  if (0 <? nr_bytes) && (location <? file_size) then
    match fuel with
    | O => None
    | S fuel =>
        match Read w rt fs h nr_bytes with
        | (fs, h, Returns (n, bytes)) =>
            Read_loop fuel w rt fs h location file_size (i64 (nr_bytes - n))
                      (out ++ bytes)
        | (fs, h, Throws what) => Some (fs, h, Throws what)
        | (fs, h, Undefined) => Some (fs, h, Undefined)
        end
    end
  else Some (fs, h, Returns out).

(** [void WebFileSystem::Read(handle, buffer, nr_bytes, location)] *)
Definition Read_at (fuel : nat) (w : Z) (rt : Runtime) (fs : WebFileSystem)
    (h : WebFileHandle) (nr_bytes location : Z)
  : option (WebFileSystem * WebFileHandle * Outcome (list byte)) :=
  match file_ h with
  | None => Some (fs, h, Undefined)
  | Some p =>
      let file_size := file_size_ (deref fs p) in
      let h := set_position location h in
      Read_loop fuel w rt fs h location file_size nr_bytes []
  end.

(** [int64_t WebFileSystem::Write(handle, buffer, nr_bytes)] *)
Definition Write (w : Z) (rt : Runtime) (fs : WebFileSystem) (h : WebFileHandle)
    (buffer : list byte) (nr_bytes : Z)
  : WebFileSystem * WebFileHandle * Outcome Z :=
  match file_ h with
  | None => (fs, h, Undefined)
  | Some p =>
      match data_protocol_ (deref fs p) with
      | BUFFER =>
          match data_buffer_ (deref fs p) with
          | None => (fs, h, Undefined)
          | Some b0 =>
              let pos := position_ h in
              let end_ := u64 (position_ h + nr_bytes) in
              let '(fs, resized) :=
                if size_ b0 <? end_ then
                  Truncate w rt fs h
                    (i64 (Z.max (usize w end_) (usize w (file_size_ (deref fs p)))))
                else (fs, Returns tt) in
              match resized, data_buffer_ (deref fs p) with
              | Returns _, Some b =>
                  let fs :=
                    update_file p
                      (set_data_buffer
                         (Some (set_data (memcpy_into (data_ b) pos buffer nr_bytes) b)))
                      fs in
                  (InvalidateReadAheads fs, set_position end_ h,
                   Returns (i64 (usize w nr_bytes)))
              | Returns _, None => (fs, h, Undefined)
              | Throws what, _ => (fs, h, Throws what)
              | Undefined, _ => (fs, h, Undefined)
              end
          end
      | NATIVE =>
          let file_id := file_id_ (deref fs p) in
          let end_ := u64 (position_ h + nr_bytes) in
          let fs := log (RtFileWrite file_id nr_bytes (position_ h)) fs in
          let n := usize w (rt_file_write rt file_id buffer nr_bytes (position_ h)) in
          let fs :=
            if file_size_ (deref fs p) <? end_ then
              update_file p
                (fun f =>
                   set_file_size
                     (Z.max (usize w (u64 (position_ h + n))) (usize w (file_size_ f)))
                     f) fs
            else fs in
          (InvalidateReadAheads fs, set_position (u64 (position_ h + n)) h,
           Returns (i64 n))
      | HTTP => (fs, h, Throws "writing to HTTP files is not implemented")
      end
  end.

(** The loop of [void WebFileSystem::Write(handle, buffer, nr_bytes,
    location)]; as in [Read_loop], nothing assigns [location] or
    [file_size]. *)
Fixpoint Write_loop (fuel : nat) (w : Z) (rt : Runtime) (fs : WebFileSystem)
    (h : WebFileHandle) (location file_size : Z) (writer : list byte)
    (nr_bytes : Z) : option (WebFileSystem * WebFileHandle * Outcome unit) :=
  if (0 <? nr_bytes) && (location <? file_size) then
    match fuel with
    | O => None
    | S fuel =>
        match Write w rt fs h writer nr_bytes with
        | (fs, h, Returns n) =>
            Write_loop fuel w rt fs h location file_size
                       (drop (Z.to_nat n) writer) (i64 (nr_bytes - n))
        | (fs, h, Throws what) => Some (fs, h, Throws what)
        | (fs, h, Undefined) => Some (fs, h, Undefined)
        end
    end
  else Some (fs, h, Returns tt).

(** [void WebFileSystem::Write(handle, buffer, nr_bytes, location)] *)
Definition Write_at (fuel : nat) (w : Z) (rt : Runtime) (fs : WebFileSystem)
    (h : WebFileHandle) (buffer : list byte) (nr_bytes location : Z)
  : option (WebFileSystem * WebFileHandle * Outcome unit) :=
  match file_ h with
  | None => Some (fs, h, Undefined)
  | Some p =>
      let file_size := file_size_ (deref fs p) in
      let h := set_position location h in
      Write_loop fuel w rt fs h location file_size buffer nr_bytes
  end.

(* ===================================================================== *)
(** * WebDB::Connection *)
(* ===================================================================== *)

(** [duckdb::PreparedStatement] as far as the connection looks at it. *)
Record PreparedStatement := mkPreparedStatement {
  success : bool;
  error : string;
  statement_text : string
}.

(** [ArrowInsertOptions] *)
Record ArrowInsertOptions := mkArrowInsertOptions {
  schema_name : string;
  table_name : string;
  create_new : bool
}.

(** What the connection calls but does not define, taken as a parameter:
    the engine's [Prepare], [ArrowInsertOptions::ReadFrom] on the parsed
    options, the decoder [BufferingArrowIPCStreamDecoder]
    ([ipc_consume buffered chunk] is the status of [Consume] when [buffered]
    is what the decoder holds, [ipc_is_eos buffered] is
    [buffer()->is_eos()]), Arrow's [ExportRecordBatchReader], and the
    [arrow_scan] table function with the [Create] or [Insert] that follows
    it. *)
Record Engine := mkEngine {
  Prepare : string -> Exc PreparedStatement;
  options_ReadFrom : string -> Exc (Result ArrowInsertOptions);
  ipc_consume : list byte -> list byte -> Exc Status;
  ipc_is_eos : list byte -> bool;
  ExportRecordBatchReader : list byte -> Status;
  arrow_scan : ArrowInsertOptions -> list byte -> Exc unit
}.

(** [WebDB::Connection]: the statement table and its counter, and the state
    of a running Arrow IPC insert ([arrow_ipc_stream_] is the decoder with
    the bytes it has buffered, [None] for [nullptr]).  The streaming query
    result and its schemas are left out. *)
Record Connection := mkConnection {
  prepared_statements_ : gmap Z PreparedStatement;
  next_prepared_statement_id_ : Z;
  arrow_insert_options_ : option ArrowInsertOptions;
  arrow_ipc_stream_ : option (list byte)
}.

Definition Connection_new : Connection := mkConnection ∅ 0 None None.

Definition set_prepared_statements (v : gmap Z PreparedStatement) (c : Connection) :=
  mkConnection v (next_prepared_statement_id_ c) (arrow_insert_options_ c)
               (arrow_ipc_stream_ c).
Definition set_next_prepared_statement_id (v : Z) (c : Connection) :=
  mkConnection (prepared_statements_ c) v (arrow_insert_options_ c)
               (arrow_ipc_stream_ c).
Definition set_arrow_insert_options (v : option ArrowInsertOptions) (c : Connection) :=
  mkConnection (prepared_statements_ c) (next_prepared_statement_id_ c) v
               (arrow_ipc_stream_ c).
Definition set_arrow_ipc_stream (v : option (list byte)) (c : Connection) :=
  mkConnection (prepared_statements_ c) (next_prepared_statement_id_ c)
               (arrow_insert_options_ c) v.

(** [WebDB::Connection::CreatePreparedStatement] *)
Definition CreatePreparedStatement (w : Z) (eng : Engine) (c : Connection)
    (text : string) : Connection * Result Z :=
  match Prepare eng text with
  | Throw what => (c, Error (mkStatus ExecutionError what))
  | Normal prep =>
      if negb (success prep) then
        (c, Error (mkStatus ExecutionError (error prep)))
      else
        let id := next_prepared_statement_id_ c in
        let c :=
          set_next_prepared_statement_id
            (usize w (next_prepared_statement_id_ c + 1)) c in
        let c :=
          if next_prepared_statement_id_ c =? SIZE_MAX w then
            set_next_prepared_statement_id 0 c
          else c in
        let c :=
          set_prepared_statements
            (map_insert_new id prep (prepared_statements_ c)) c in
        (c, Value id)
  end.

(** [WebDB::Connection::ClosePreparedStatement] *)
Definition ClosePreparedStatement (c : Connection) (statement_id : Z)
  : Connection * Status :=
  match prepared_statements_ c !! statement_id with
  | None => (c, mkStatus KeyError "No prepared statement found with ID")
  | Some _ =>
      (set_prepared_statements (delete statement_id (prepared_statements_ c)) c,
       Status_OK)
  end.

(** How the [try] block of [InsertArrowFromIPCStream] is left: it falls
    through to the final [return], it returns a status itself (which is what
    [ARROW_RETURN_NOT_OK] does with a status that is not ok), an exception
    reaches the [catch], or it uses the null decoder or the empty options,
    which has no meaning. *)
Inductive TryExit :=
  | FallsThrough
  | ReturnsStatus (s : Status)
  | Caught (what : string)
  | NoMeaning.

(** The [try] block of [InsertArrowFromIPCStream], first part: the first
    call reads the options and creates the decoder. *)
Definition InsertArrowFromIPCStream_begin (eng : Engine) (c : Connection)
    (options_json : string) : Connection * TryExit :=
  match arrow_ipc_stream_ c with
  | Some _ => (c, FallsThrough)
  | None =>
      let c := set_arrow_insert_options None c in
      match options_ReadFrom eng options_json with
      | Throw what => (c, Caught what)
      | Normal (Error s) => (c, ReturnsStatus s)
      | Normal (Value options) =>
          let c := set_arrow_insert_options (Some options) c in
          (set_arrow_ipc_stream (Some []) c, FallsThrough)
      end
  end.

(** Third part: at the end of the stream the reader is exported and the
    table is created or extended. *)
Definition InsertArrowFromIPCStream_finish (eng : Engine) (c : Connection)
    (buffered : list byte) : Connection * TryExit :=
  if negb (ok (ExportRecordBatchReader eng buffered)) then
    (c, ReturnsStatus (ExportRecordBatchReader eng buffered))
  else
    match arrow_insert_options_ c with
    | None => (c, NoMeaning)
    | Some options =>
        match arrow_scan eng options buffered with
        | Throw what => (c, Caught what)
        | Normal _ =>
            let c := set_arrow_insert_options None c in
            (set_arrow_ipc_stream None c, FallsThrough)
        end
    end.

(** Second part: the decoder consumes the bytes. *)
Definition InsertArrowFromIPCStream_consume (eng : Engine) (c : Connection)
    (stream : list byte) : Connection * TryExit :=
  match arrow_ipc_stream_ c with
  | None => (c, NoMeaning)
  | Some buffered =>
      match ipc_consume eng buffered stream with
      | Throw what => (c, Caught what)
      | Normal s =>
          if negb (ok s) then (c, ReturnsStatus s)
          else
            let buffered := buffered ++ stream in
            let c := set_arrow_ipc_stream (Some buffered) c in
            if negb (ipc_is_eos eng buffered) then (c, ReturnsStatus Status_OK)
            else InsertArrowFromIPCStream_finish eng c buffered
      end
  end.

(** The whole [try] block of [InsertArrowFromIPCStream]. *)
Definition InsertArrowFromIPCStream_try (eng : Engine) (c : Connection)
    (stream : list byte) (options_json : string) : Connection * TryExit :=
  match InsertArrowFromIPCStream_begin eng c options_json with
  | (c, FallsThrough) => InsertArrowFromIPCStream_consume eng c stream
  | (c, exit) => (c, exit)
  end.

(** [WebDB::Connection::InsertArrowFromIPCStream] *)
Definition InsertArrowFromIPCStream (eng : Engine) (c : Connection)
    (stream : list byte) (options_json : string) : Connection * Outcome Status :=
  let '(c, exit) := InsertArrowFromIPCStream_try eng c stream options_json in
  match exit with
  | FallsThrough => (c, Returns Status_OK)
  | ReturnsStatus s => (c, Returns s)
  | Caught what =>
      let c := set_arrow_insert_options None c in
      (set_arrow_ipc_stream None c, Returns (mkStatus UnknownError what))
  | NoMeaning => (c, Undefined)
  end.

(* ===================================================================== *)
(** * The registry invariant *)
(* ===================================================================== *)

(** The two maps describe the same files (invariant I1): a name leads to an
    object that carries this name and is filed under its id, an id leads to
    an object that carries this id and is filed under its name, and every id
    in use was handed out by the counter. *)
Record registry_ok (fs : WebFileSystem) : Prop := mk_registry_ok {
  by_name_ok : forall name p,
    files_by_name_ fs !! name = Some p ->
    is_Some (store fs !! p) /\ file_name_ (deref fs p) = name /\
    files_by_id_ fs !! file_id_ (deref fs p) = Some p;
  by_id_ok : forall id p,
    files_by_id_ fs !! id = Some p ->
    is_Some (store fs !! p) /\ file_id_ (deref fs p) = id /\
    files_by_name_ fs !! file_name_ (deref fs p) = Some p;
  ids_below_next : forall id p,
    files_by_id_ fs !! id = Some p -> id < next_file_id_ fs
}.

(** Every object of [fs] is still there in [fs'], with its id and name. *)
Definition same_identity (fs fs' : WebFileSystem) : Prop :=
  forall q, is_Some (store fs !! q) ->
    is_Some (store fs' !! q) /\
    file_id_ (deref fs' q) = file_id_ (deref fs q) /\
    file_name_ (deref fs' q) = file_name_ (deref fs q).

(** What the code assigns to a file never touches its id or its name. *)
Definition keeps_identity (g : WebFile -> WebFile) : Prop :=
  forall f, file_id_ (g f) = file_id_ f /\ file_name_ (g f) = file_name_ f.

(** [fs'] has every file of [fs], with its identity, and every entry of
    the two maps of [fs]. *)
Definition grows (fs fs' : WebFileSystem) : Prop :=
  same_identity fs fs' /\
  (forall id q, files_by_id_ fs !! id = Some q -> files_by_id_ fs' !! id = Some q) /\
  (forall name q,
     files_by_name_ fs !! name = Some q -> files_by_name_ fs' !! name = Some q).

(** [fs'] is [fs] with some of its files assigned to: the files keep their
    identity, the two maps and the id counter are as before. *)
Definition updates (fs fs' : WebFileSystem) : Prop :=
  same_identity fs fs' /\
  files_by_id_ fs' = files_by_id_ fs /\
  files_by_name_ fs' = files_by_name_ fs /\
  next_file_id_ fs' = next_file_id_ fs.

(** The object at [p] is in both maps, under its own id and name. *)
Definition registered (fs : WebFileSystem) (p : addr) : Prop :=
  files_by_id_ fs !! file_id_ (deref fs p) = Some p /\
  files_by_name_ fs !! file_name_ (deref fs p) = Some p.

(** The status the spec calls [AlreadyRegistered(name)]. *)
Definition AlreadyRegistered (file_name : string) : Status :=
  Status_Invalid ("File already registered: " +:+ file_name).

(* ===================================================================== *)
(** * The operations of the filesystem *)
(* ===================================================================== *)

(** One call into the filesystem, with its arguments. *)
Inductive Operation :=
  | DoRegisterFileURL (file_name file_url : string) (file_size : option Z)
  | DoRegisterFileBuffer (file_name : string) (file_buffer : DataBuffer)
  | DoSetFileDescriptor (file_id file_descriptor : Z)
  | DoTryDropFile (file_name : string)
  | DoDropDanglingFiles
  | DoClose (have_file_lock : bool) (h : WebFileHandle)
  | DoOpenFile (w : Z) (rt : Runtime) (have_file_lock : bool) (url : string)
               (flags : Z)
  | DoTruncate (w : Z) (rt : Runtime) (h : WebFileHandle) (new_size : Z)
  | DoRead (w : Z) (rt : Runtime) (h : WebFileHandle) (nr_bytes : Z)
  | DoWrite (w : Z) (rt : Runtime) (h : WebFileHandle) (buffer : list byte)
            (nr_bytes : Z).

(** Only how the call ended. *)
Definition ended {A} (o : Outcome A) : Outcome unit :=
  match o with
  | Returns _ => Returns tt
  | Throws what => Throws what
  | Undefined => Undefined
  end.

(** The filesystem after the call, and how the call ended (a call that
    returns an error status has returned). *)
Definition perform (op : Operation) (fs : WebFileSystem)
  : WebFileSystem * Outcome unit :=
  match op with
  | DoRegisterFileURL file_name file_url file_size =>
      (fst (RegisterFileURL fs file_name file_url file_size), Returns tt)
  | DoRegisterFileBuffer file_name file_buffer =>
      (fst (RegisterFileBuffer fs file_name file_buffer), Returns tt)
  | DoSetFileDescriptor file_id file_descriptor =>
      (fst (SetFileDescriptor fs file_id file_descriptor), Returns tt)
  | DoTryDropFile file_name => (fst (TryDropFile fs file_name), Returns tt)
  | DoDropDanglingFiles => (DropDanglingFiles fs, Returns tt)
  | DoClose have_file_lock h =>
      (fst (Close have_file_lock fs h), ended (snd (Close have_file_lock fs h)))
  | DoOpenFile w rt have_file_lock url flags =>
      (fst (OpenFile w rt have_file_lock fs url flags),
       ended (snd (OpenFile w rt have_file_lock fs url flags)))
  | DoTruncate w rt h new_size =>
      (fst (Truncate w rt fs h new_size), ended (snd (Truncate w rt fs h new_size)))
  | DoRead w rt h nr_bytes =>
      (fst (fst (Read w rt fs h nr_bytes)), ended (snd (Read w rt fs h nr_bytes)))
  | DoWrite w rt h buffer nr_bytes =>
      (fst (fst (Write w rt fs h buffer nr_bytes)),
       ended (snd (Write w rt fs h buffer nr_bytes)))
  end.

(** A handle that is closed refers to a file that is in the registry. *)
Definition closes_registered (op : Operation) (fs : WebFileSystem) : Prop :=
  match op with
  | DoClose _ h => forall p, file_ h = Some p -> registered fs p
  | _ => True
  end.

(** [history w eng n c]: the connection [c] is what a new connection becomes
    after some sequence of [CreatePreparedStatement] and
    [ClosePreparedStatement] calls, [n] of them [CreatePreparedStatement]. *)
Inductive history (w : Z) (eng : Engine) : Z -> Connection -> Prop :=
  | history_new : history w eng 0 Connection_new
  | history_create n c text :
      history w eng n c ->
      history w eng (n + 1) (fst (CreatePreparedStatement w eng c text))
  | history_close n c statement_id :
      history w eng n c ->
      history w eng n (fst (ClosePreparedStatement c statement_id)).

(* ===================================================================== *)
(** * Seeking, file sizes and the effect of a write *)
(* ===================================================================== *)

(** [WebFileSystem::Seek] *)
Definition Seek (h : WebFileHandle) (location : Z) : WebFileHandle :=
  set_position location h.

(** [WebFileSystem::GetFileSize]: [file_size_], a [uint64_t], returned as
    [int64_t]. *)
Definition GetFileSize (fs : WebFileSystem) (h : WebFileHandle) : Outcome Z :=
  match file_ h with
  | None => Undefined
  | Some p => Returns (i64 (file_size_ (deref fs p)))
  end.

(** The file that the sequential [Write] of [nr_bytes] bytes at position
    [pos] leaves, for a BUFFER file [f] with buffer [b]: the buffer is
    resized when the write ends behind it, then the bytes are copied. *)
Definition after_Write (w : Z) (f : WebFile) (b : DataBuffer) (pos : Z)
    (buffer : list byte) (nr_bytes : Z) : WebFile :=
  let new_size := Z.max (pos + nr_bytes) (usize w (file_size_ f)) in
  let b1 := if size_ b <? pos + nr_bytes then Resize w b new_size else b in
  let f1 :=
    if size_ b <? pos + nr_bytes then
      set_file_size new_size (set_data_buffer (Some b1) f)
    else f in
  set_data_buffer
    (Some (set_data (memcpy_into (data_ b1) pos buffer nr_bytes) b1)) f1.

(* ===================================================================== *)
(** * The buffers of BUFFER files *)
(* ===================================================================== *)

(** A BUFFER file has a buffer, which is one array of [capacity_] bytes,
    and its [file_size_] is the size of that buffer (invariants I2, from
    left to right, and I3). *)
Definition buffer_file_ok (w : Z) (f : WebFile) : Prop :=
  data_protocol_ f = BUFFER ->
  exists b,
    data_buffer_ f = Some b /\ DataBuffer_ok w b /\ file_size_ f = size_ b.

Definition buffers_ok (w : Z) (fs : WebFileSystem) : Prop :=
  forall p f, store fs !! p = Some f -> buffer_file_ok w f.

(** What the code assigns besides the protocol, the buffer and the size. *)
Definition keeps_buffer (g : WebFile -> WebFile) : Prop :=
  forall f, data_protocol_ (g f) = data_protocol_ f /\
            data_buffer_ (g f) = data_buffer_ f /\
            file_size_ (g f) = file_size_ f.

(** The sizes in the arguments of a call fit a [w]-bit [size_t]: a buffer
    that is registered is one array of its size, a buffer that the host
    hands over on opening has the size the host reports, a file is
    truncated to a size in [size_t], and a write takes its bytes from the
    caller's buffer and ends at a position in [size_t]. *)
Definition sizes_fit (w : Z) (op : Operation) : Prop :=
  match op with
  | DoRegisterFileBuffer _ file_buffer => DataBuffer_ok w file_buffer
  | DoOpenFile w' rt _ _ _ =>
      w' = w /\
      forall file_id opened bytes,
        rt_file_open rt file_id = Normal (Some opened) ->
        opened_file_buffer opened = Some bytes ->
        0 <= opened_file_size opened < 2 ^ w /\
        Z.of_nat (length bytes) = opened_file_size opened
  | DoTruncate w' _ _ new_size => w' = w /\ 0 <= new_size < 2 ^ w
  | DoWrite w' _ h buffer nr_bytes =>
      w' = w /\ 0 <= position_ h /\
      0 <= nr_bytes <= Z.of_nat (length buffer) /\
      position_ h + nr_bytes < 2 ^ w
  | _ => True
  end.

(* ===================================================================== *)
(** * File infos and globbing *)
(* ===================================================================== *)

(** [WebFileSystem::FileExists].  [host_exists] is
    [duckdb_web_fs_file_exists], asked only for a name that is not
    registered. *)
Definition FileExists (host_exists : string -> bool) (fs : WebFileSystem)
    (filename : string) : bool :=
  match files_by_name_ fs !! filename with
  | Some _ => true
  | None => host_exists filename
  end.

(** The [rapidjson::Value]s that this code builds: scalars, and null or an
    object with scalar members.  [JDouble z] is the number
    [static_cast<double>(z)]. *)
Inductive JsonScalar :=
  | JNull
  | JBool (b : bool)
  | JUint (n : Z)
  | JDouble (z : Z)
  | JString (s : string).

Inductive Json :=
  | JNullValue
  | JObject (members : list (string * JsonScalar)).

(** [Value::IsNull] *)
Definition IsNull (v : Json) : bool :=
  match v with JNullValue => true | JObject _ => false end.

(** [Value::FindMember] on an object: the first member with the name. *)
Definition FindMember (name : string) (v : Json) : option JsonScalar :=
  match v with
  | JObject members => snd <$> List.find (fun m => String.eqb (fst m) name) members
  | JNullValue => None
  end.

(** Modelled from the spec: [enum DataProtocol] is declared in
    web_filesystem.h, which is not among the sources; the spec gives the
    encoding BUFFER = 0, NATIVE = 1, HTTP = 2. *)
Definition DataProtocol_value (p : DataProtocol) : Z :=
  match p with BUFFER => 0 | NATIVE => 1 | HTTP => 2 end.

(** [WebFileSystem::WebFile::WriteInfo].  [allow_full_http_reads] is
    [filesystem_.config_->filesystem.allow_full_http_reads].  The member
    [dataNativeFd] is added as null, whatever the descriptor. *)
Definition WriteInfo (allow_full_http_reads : bool) (f : WebFile) : Json :=
  JObject
    ([("fileId", JUint (file_id_ f));
      ("fileName", JString (file_name_ f));
      ("fileSize", JDouble (file_size_ f));
      ("dataProtocol", JDouble (DataProtocol_value (data_protocol_ f)))]
     ++ match data_url_ f with
        | Some url => [("dataUrl", JString url)]
        | None => []
        end
     ++ match data_fd_ f with
        | Some _ => [("dataNativeFd", JNull)]
        | None => []
        end
     ++ (if bool_decide (data_protocol_ f = HTTP) && allow_full_http_reads
         then [("allowFullHttpReads", JBool true)] else [])).

(** [WebFileSystem::WriteFileInfo(doc, file_id)] *)
Definition WriteFileInfo_by_id (allow_full_http_reads : bool)
    (fs : WebFileSystem) (file_id : Z) : WebFileSystem * Json :=
  let fs := log FsLock fs in
  match files_by_id_ fs !! file_id with
  | None => (log FsUnlock fs, JNullValue)
  | Some p => (log FsUnlock fs, WriteInfo allow_full_http_reads (deref fs p))
  end.

(** [WebFileSystem::WriteFileInfo(doc, file_name)] *)
Definition WriteFileInfo_by_name (allow_full_http_reads : bool)
    (fs : WebFileSystem) (file_name : string) : WebFileSystem * Json :=
  let fs := log FsLock fs in
  match files_by_name_ fs !! file_name with
  | None =>
      let proto := inferDataProtocol file_name in
      (log FsUnlock fs,
       JObject [("fileName", JString file_name);
                ("dataProtocol", JDouble (DataProtocol_value proto))])
  | Some p => (log FsUnlock fs, WriteInfo allow_full_http_reads (deref fs p))
  end.

(** [operator<=] and [operator<] on [std::string]: the bytes are compared
    as unsigned values, and a proper prefix is smaller. *)
Definition string_le (a b : string) : Prop := String.leb a b = true.
Definition string_lt (a b : string) : Prop := String.ltb a b = true.

#[global] Instance string_le_dec : RelDecision string_le.
Proof. intros a b. unfold string_le. apply _. Defined.

(** [std::unique]: of every run of equal neighbours the first is kept. *)
Fixpoint unique_after (x : string) (l : list string) : list string :=
  match l with
  | [] => []
  | y :: rest =>
      if String.eqb x y then unique_after x rest else y :: unique_after y rest
  end.

Definition unique (l : list string) : list string :=
  match l with
  | [] => []
  | x :: rest => x :: unique_after x rest
  end.

(** [WebFileSystem::Glob].  [glob_match path name] is
    [std::regex_match(name, glob_to_regex(path))] ([glob_to_regex] is not
    among the sources), [host_glob path] is what the host leaves in
    [glob_results] during [duckdb_web_fs_glob]; the call to the host is not
    recorded in the event log.  The loop visits the entries of
    [files_by_name_] in the order [map_to_list] gives them.  [std::sort]
    is a merge sort here: the order is total and antisymmetric, so every
    sorting algorithm gives the same vector. *)
Definition Glob (glob_match : string -> string -> bool)
    (host_glob : string -> list string) (fs : WebFileSystem) (path : string)
  : WebFileSystem * list string :=
  let fs := log FsLock fs in
  let results :=
    foldl (fun results entry =>
             if glob_match path (file_name_ (deref fs (snd entry)))
             then results ++ [fst entry] else results)
          [] (map_to_list (files_by_name_ fs)) in
  let results := results ++ host_glob path in
  (log FsUnlock fs, unique (merge_sort string_le results)).

(** [WebDB::GlobFileInfos], up to the array that is written out as text.  [web_fs] is [io::WebFileSystem::Get()], [None] for null. *)
Definition GlobFileInfos (allow_full_http_reads : bool)
    (glob_match : string -> string -> bool) (host_glob : string -> list string)
    (web_fs : option WebFileSystem) (expression : string)
  : option WebFileSystem * Result (list Json) :=
  match web_fs with
  | None => (None, Error (Status_Invalid "WebFileSystem is not configured"))
  | Some fs =>
      let '(fs, files) := Glob glob_match host_glob fs expression in
      let '(fs, items) :=
        foldl (fun acc file =>
                 let '(fs, value) :=
                   WriteFileInfo_by_name allow_full_http_reads (fst acc) file in
                 (fs, if IsNull value then snd acc else snd acc ++ [value]))
              (fs, []) files in
      (Some fs, Value items)
  end.

(* ===================================================================== *)
(** * Executing prepared statements *)
(* ===================================================================== *)

(** [duckdb::QueryResult] as far as the connection looks at it. *)
Record QueryResult := mkQueryResult {
  result_success : bool;
  result_error : string
}.

Section PreparedStatementArguments.

(** The C++ type [double]; its values are not looked into. *)
Variable double : Type.

(** A value of the arguments document as [ExecutePreparedStatement] looks
    at it: a number with the answer of [IsLosslessDouble] and the result of
    [GetDouble], a string, null, a boolean, or something else (an array or
    an object). *)
Inductive JsonArg :=
  | ArgNumber (is_lossless_double : bool) (get_double : double)
  | ArgString (s : string)
  | ArgNull
  | ArgBool (b : bool)
  | ArgOther.

(** What [rapidjson::Document::Parse] makes of the arguments text: a parse
    error with its message ([GetParseError_En]), a document that is not an
    array, or an array. *)
Inductive ArgsDocument :=
  | ParseError (msg : string)
  | NotArray
  | ArgsArray (args : list JsonArg).

(** [duckdb::Value] as this function constructs it. *)
Inductive DuckValue :=
  | ValueDouble (d : double)
  | ValueString (s : string)
  | ValueNull
  | ValueBool (b : bool).

(** The chain of tests in the loop of [ExecutePreparedStatement]; [None]
    is its final [else]. *)
Definition convert_argument (v : JsonArg) : option DuckValue :=
  match v with
  | ArgNumber true d => Some (ValueDouble d)
  | ArgNumber false _ => None
  | ArgString s => Some (ValueString s)
  | ArgNull => Some ValueNull
  | ArgBool b => Some (ValueBool b)
  | ArgOther => None
  end.

(** The loop of [ExecutePreparedStatement]: the values, or the index at
    which it gave up. *)
Fixpoint convert_arguments (index : Z) (args : list JsonArg)
    (values : list DuckValue) : Z + list DuckValue :=
  match args with
  | [] => inr values
  | v :: rest =>
      match convert_argument v with
      | Some x => convert_arguments (index + 1) rest (values ++ [x])
      | None => inl index
      end
  end.

(** [WebDB::Connection::ExecutePreparedStatement].  [parse] is rapidjson's
    parser and [Execute] is [duckdb::PreparedStatement::Execute], both taken
    as parameters. *)
Definition ExecutePreparedStatement (parse : string -> ArgsDocument)
    (Execute : PreparedStatement -> list DuckValue -> Exc QueryResult)
    (c : Connection) (statement_id : Z) (args_json : string)
  : Result QueryResult :=
  match prepared_statements_ c !! statement_id with
  | None => Error (mkStatus KeyError "No prepared statement found with ID")
  | Some stmt =>
      match parse args_json with
      | ParseError msg => Error (mkStatus Invalid msg)
      | NotArray => Error (mkStatus Invalid "Arguments must be given as array")
      | ArgsArray args =>
          match convert_arguments 0 args [] with
          | inl index =>
              Error (mkStatus Invalid
                       ("Invalid column type encountered for argument " +:+
                        show_Z index))
          | inr values =>
              match Execute stmt values with
              | Throw what => Error (mkStatus ExecutionError what)
              | Normal result =>
                  if negb (result_success result) then
                    Error (mkStatus ExecutionError (result_error result))
                  else Value result
              end
          end
      end
  end.

End PreparedStatementArguments.

Arguments ArgNumber {double} is_lossless_double get_double.
Arguments ArgString {double} s.
Arguments ArgNull {double}.
Arguments ArgBool {double} b.
Arguments ArgOther {double}.
Arguments ParseError {double} msg.
Arguments NotArray {double}.
Arguments ArgsArray {double} args.
Arguments ValueDouble {double} d.
Arguments ValueString {double} s.
Arguments ValueNull {double}.
Arguments ValueBool {double} b.
Arguments convert_argument {double} v.
Arguments convert_arguments {double} index args values.
Arguments ExecutePreparedStatement {double} parse Execute c statement_id args_json.

(* ===================================================================== *)
(** * The WebDB facade for files *)
(* ===================================================================== *)

(** [WebDB], as far as the registration of files goes: the filesystem that
    [io::WebFileSystem::Get()] returns ([None] for null), and
    [pinned_web_files_].  The page buffer and the buffered filesystem are
    not among the sources; what they answer is a parameter of the calls
    below. *)
Record WebDB := mkWebDB {
  web_fs : option WebFileSystem;
  pinned_web_files_ : gmap string WebFileHandle
}.

(** [pinned_web_files_.erase(...)] of a name: the handle that is pinned
    under the name, if there is one, is destroyed. *)
Definition unpin (have_file_lock : bool) (fs : WebFileSystem)
    (pinned : gmap string WebFileHandle) (file_name : string)
  : WebFileSystem * gmap string WebFileHandle * Outcome unit :=
  match pinned !! file_name with
  | None => (fs, pinned, Returns tt)
  | Some h =>
      let '(fs, r) := WebFileHandle_destroy have_file_lock fs h in
      (fs, delete file_name pinned, r)
  end.

(** Modelled from the spec: [WebFileHandle::GetName] is declared in
    web_filesystem.h, which is not among the sources.  The facade pins the
    handle of a file and finds it again under the name of the file, so the
    name of a handle is the name of its file. *)
Definition GetName (fs : WebFileSystem) (p : addr) : string :=
  file_name_ (deref fs p).

(** [pinned_web_files_.insert({file_hdl->GetName(), std::move(file_hdl)})].
    When the name is pinned already, [insert] leaves the map and the new
    handle is destroyed with the pair. *)
Definition pin (have_file_lock : bool) (fs : WebFileSystem)
    (pinned : gmap string WebFileHandle) (file_hdl : WebFileHandle)
  : WebFileSystem * gmap string WebFileHandle * Outcome unit :=
  match file_ file_hdl with
  | None => (fs, pinned, Undefined)
  | Some p =>
      match pinned !! GetName fs p with
      | None => (fs, <[GetName fs p := file_hdl]> pinned, Returns tt)
      | Some _ =>
          let '(fs, r) := WebFileHandle_destroy have_file_lock fs file_hdl in
          (fs, pinned, r)
      end
  end.

(** How a facade call ends after pinning or unpinning: with the status,
    unless the destruction of a handle did not return. *)
Definition facade_result
    (r : WebFileSystem * gmap string WebFileHandle * Outcome unit) (s : Status)
  : WebDB * Outcome Status :=
  match r with
  | (fs, pinned, Returns _) => (mkWebDB (Some fs) pinned, Returns s)
  | (fs, pinned, Throws what) => (mkWebDB (Some fs) pinned, Throws what)
  | (fs, pinned, Undefined) => (mkWebDB (Some fs) pinned, Undefined)
  end.

(** [WebDB::RegisterFileURL].  [buffered_TryDropFile] is the answer of
    [buffered_filesystem_->TryDropFile(file_name)]. *)
Definition WebDB_RegisterFileURL (buffered_TryDropFile have_file_lock : bool)
    (db : WebDB) (file_name file_url : string) (file_size : option Z)
  : WebDB * Outcome Status :=
  match web_fs db with
  | None => (db, Returns (Status_Invalid "WebFileSystem is not configured"))
  | Some fs =>
      if negb buffered_TryDropFile then
        (db, Returns (Status_Invalid
                        "File is already registered and is still buffered"))
      else
        match unpin have_file_lock fs (pinned_web_files_ db) file_name with
        | (fs, pinned, Returns _) =>
            match RegisterFileURL fs file_name file_url file_size with
            | (fs, Error s) => (mkWebDB (Some fs) pinned, Returns s)
            | (fs, Value file_hdl) =>
                facade_result (pin have_file_lock fs pinned file_hdl) Status_OK
            end
        | (fs, pinned, Throws what) => (mkWebDB (Some fs) pinned, Throws what)
        | (fs, pinned, Undefined) => (mkWebDB (Some fs) pinned, Undefined)
        end
  end.

(** [WebDB::RegisterFileBuffer]; the registration in the buffered
    filesystem before the pinning is not modelled. *)
Definition WebDB_RegisterFileBuffer (buffered_TryDropFile have_file_lock : bool)
    (db : WebDB) (file_name : string) (buffer : list byte) (buffer_length : Z)
  : WebDB * Outcome Status :=
  match web_fs db with
  | None => (db, Returns (Status_Invalid "WebFileSystem is not configured"))
  | Some fs =>
      if negb buffered_TryDropFile then
        (db, Returns (Status_Invalid
                        "File is already registered and is still buffered"))
      else
        match unpin have_file_lock fs (pinned_web_files_ db) file_name with
        | (fs, pinned, Returns _) =>
            let data := DataBuffer_new buffer buffer_length in
            match RegisterFileBuffer fs file_name data with
            | (fs, Error s) => (mkWebDB (Some fs) pinned, Returns s)
            | (fs, Value file_hdl) =>
                facade_result (pin have_file_lock fs pinned file_hdl) Status_OK
            end
        | (fs, pinned, Throws what) => (mkWebDB (Some fs) pinned, Throws what)
        | (fs, pinned, Undefined) => (mkWebDB (Some fs) pinned, Undefined)
        end
  end.

(** [WebDB::DropFile].  The answer of the page buffer's [TryDropFile] is
    not looked at.  A handle is only ever pinned while there is a
    filesystem; the destruction of a pinned handle without one would use a
    filesystem that is gone, and is given no meaning. *)
Definition WebDB_DropFile (have_file_lock : bool) (db : WebDB)
    (file_name : string) : WebDB * Outcome Status :=
  match web_fs db with
  | None =>
      match pinned_web_files_ db !! file_name with
      | None => (db, Returns Status_OK)
      | Some _ => (db, Undefined)
      end
  | Some fs =>
      match unpin have_file_lock fs (pinned_web_files_ db) file_name with
      | (fs, pinned, Returns _) =>
          let '(fs, dropped) := TryDropFile fs file_name in
          if negb dropped then
            (mkWebDB (Some fs) pinned, Returns (Status_Invalid "file is in use"))
          else (mkWebDB (Some fs) pinned, Returns Status_OK)
      | (fs, pinned, Throws what) => (mkWebDB (Some fs) pinned, Throws what)
      | (fs, pinned, Undefined) => (mkWebDB (Some fs) pinned, Undefined)
      end
  end.

(* ===================================================================== *)
(** * The state of an Arrow IPC insert *)
(* ===================================================================== *)

(** The decoder of a running Arrow IPC insert and its options are there
    together or not at all. *)
Definition ipc_state_ok (c : Connection) : Prop :=
  arrow_ipc_stream_ c = None <-> arrow_insert_options_ c = None.

(* ===================================================================== *)
(** * Inputs used in the examples *)
(* ===================================================================== *)

(** A buffer of 1908874354 bytes, which a 32-bit target with 4 GiB of
    memory can hold. *)
Definition wide_buffer : DataBuffer :=
  mkDataBuffer (replicate (Z.to_nat 1908874354) Byte.x00) 1908874354 1908874354.

(** A host that opens every file (10 bytes, not copied into memory),
    truncates without error, writes all bytes and reads nothing. *)
Definition rt_plain : Runtime :=
  mkRuntime (fun _ => Normal (Some (mkOpenedFile 10 None)))
            (fun _ _ => Normal tt)
            (fun _ _ nr_bytes _ => nr_bytes)
            (fun _ _ _ _ => (0, [])).

(** A host that cannot open any file. *)
Definition rt_no_open : Runtime :=
  mkRuntime (fun _ => Normal None)
            (fun _ _ => Normal tt)
            (fun _ _ nr_bytes _ => nr_bytes)
            (fun _ _ _ _ => (0, [])).

(** The registry after [RegisterFileURL("a.csv", "data/a.csv")]: one NATIVE
    file, held by the handle the call returned. *)
Definition fs_native : WebFileSystem :=
  fst (RegisterFileURL WebFileSystem_new "a.csv" "data/a.csv" None).

(** The registry after [RegisterFileURL("x", "http://host/x")]: one HTTP
    file of size 0, held by the handle the call returned. *)
Definition fs_http : WebFileSystem :=
  fst (RegisterFileURL WebFileSystem_new "x" "http://host/x" None).

(** Three bytes. *)
Definition abc : list byte := [Byte.x61; Byte.x62; Byte.x63].

(** The registry after [RegisterFileBuffer("b", "abcd")]: one BUFFER file of
    4 bytes. *)
Definition fs_buffer : WebFileSystem :=
  fst (RegisterFileBuffer WebFileSystem_new "b"
         (DataBuffer_new (abc ++ [Byte.x64]) 4)).

(** The handle that a registration on an empty registry returns: it refers
    to the object at address 0 and stands at position 0. *)
Definition first_handle : WebFileHandle := mkWebFileHandle (Some 0%nat) 0.

(** An engine that prepares every statement, accepts every options string
    and every chunk of an IPC stream, and never sees the end of a stream. *)
Definition eng_plain : Engine :=
  mkEngine (fun text => Normal (mkPreparedStatement true EmptyString text))
           (fun _ => Normal (Value (mkArrowInsertOptions "main" "t" true)))
           (fun _ _ => Normal Status_OK)
           (fun _ => false)
           (fun _ => Status_OK)
           (fun _ _ => Normal tt).

(** As [eng_plain], but the decoder rejects every chunk with a status. *)
Definition eng_bad_stream : Engine :=
  mkEngine (fun text => Normal (mkPreparedStatement true EmptyString text))
           (fun _ => Normal (Value (mkArrowInsertOptions "main" "t" true)))
           (fun _ _ => Normal (Status_Invalid "Expected IPC message"))
           (fun _ => false)
           (fun _ => Status_OK)
           (fun _ _ => Normal tt).

(** The statement that [eng_plain] prepares for ["SELECT 1"]. *)
Definition select_1 : PreparedStatement :=
  mkPreparedStatement true EmptyString "SELECT 1".

(** A connection in which statement 0 is live and the counter is at [next]. *)
Definition holding_first (next : Z) : Connection :=
  mkConnection {[ 0 := select_1 ]} next None None.

(** A host that copies every file it opens into memory: the three bytes
    [abc]. *)
Definition rt_in_memory : Runtime :=
  mkRuntime (fun _ => Normal (Some (mkOpenedFile 3 (Some abc))))
            (fun _ _ => Normal tt)
            (fun _ _ nr_bytes _ => nr_bytes)
            (fun _ _ _ _ => (0, [])).

(** As [eng_plain], but the decoder sees the end of the stream once it
    holds more than three bytes. *)
Definition eng_stream_end : Engine :=
  mkEngine (fun text => Normal (mkPreparedStatement true EmptyString text))
           (fun _ => Normal (Value (mkArrowInsertOptions "main" "t" true)))
           (fun _ _ => Normal Status_OK)
           (fun buffered => (3 <? length buffered)%nat)
           (fun _ => Status_OK)
           (fun _ _ => Normal tt).

(* ===================================================================== *)
(** * Properties *)
(* ===================================================================== *)

Section DataBufferFacts.
Variable w : Z.
Hypothesis w_pos : 0 < w.

Lemma usize_small x : 0 <= x < 2 ^ w -> usize w x = x.
Proof. intros H. unfold usize. apply Z.mod_small; lia. Qed.

Lemma grow_capacity_mod cap :
  grow_capacity w cap = (cap + cap + cap / 4) mod 2 ^ w.
Proof.
  unfold grow_capacity, usize.
  rewrite Zplus_mod_idemp_l. reflexivity.
Qed.

Lemma grow_capacity_exact cap :
  0 <= cap -> cap + cap + cap / 4 < 2 ^ w ->
  grow_capacity w cap = 9 * cap / 4.
Proof.
  intros H0 H1. rewrite grow_capacity_mod.
  rewrite Z.mod_small by (split; [pose proof (Z.div_pos cap 4); lia | lia]).
  replace (9 * cap) with (cap + (cap + cap) * 4) by lia.
  rewrite Z.div_add by lia. lia.
Qed.

Lemma length_new_array_copy cap src n :
  0 <= cap -> Z.of_nat (length (new_array_copy cap src n)) = cap.
Proof.
  intros Hc. unfold new_array_copy.
  rewrite length_take, length_app, length_replicate. lia.
Qed.
End DataBufferFacts.

Section ResizeFacts.
Variable w : Z.
Hypothesis w_pos : 0 < w.

Lemma grow_capacity_range cap : 0 <= grow_capacity w cap < 2 ^ w.
Proof.
  rewrite grow_capacity_mod by assumption.
  apply Z.mod_pos_bound. apply Z.pow_pos_nonneg; lia.
Qed.

Lemma Resize_size b n : size_ (Resize w b n) = n.
Proof. unfold Resize. repeat case_match; reflexivity. Qed.

Lemma Resize_capacity_grow b n :
  capacity_ b < n ->
  capacity_ (Resize w b n) = Z.max (grow_capacity w (capacity_ b)) n.
Proof.
  intros H. unfold Resize.
  destruct (Z.ltb_spec (capacity_ b) n); [reflexivity | lia].
Qed.

Lemma Resize_capacity_shrink b n :
  capacity_ b >= n -> n < capacity_ b / 2 -> capacity_ (Resize w b n) = n.
Proof.
  intros H1 H2. unfold Resize.
  destruct (Z.ltb_spec (capacity_ b) n); [lia |].
  destruct (Z.ltb_spec n (capacity_ b / 2)); [reflexivity | lia].
Qed.

Lemma Resize_capacity_keep b n :
  capacity_ b / 2 <= n <= capacity_ b ->
  Resize w b n = mkDataBuffer (data_ b) n (capacity_ b).
Proof.
  intros H. unfold Resize.
  destruct (Z.ltb_spec (capacity_ b) n); [lia |].
  destruct (Z.ltb_spec n (capacity_ b / 2)); [lia | reflexivity].
Qed.

Lemma Resize_ok b n :
  DataBuffer_ok w b -> 0 <= n < 2 ^ w -> DataBuffer_ok w (Resize w b n).
Proof.
  intros (Hs & Hc & Hl) Hn. unfold DataBuffer_ok, Resize.
  pose proof (grow_capacity_range (capacity_ b)) as Hg.
  destruct (Z.ltb_spec (capacity_ b) n); cbn [size_ capacity_ data_].
  - rewrite length_new_array_copy by lia. lia.
  - destruct (Z.ltb_spec n (capacity_ b / 2)); cbn [size_ capacity_ data_].
    + rewrite length_new_array_copy by lia. lia.
    + lia.
Qed.
End ResizeFacts.

(** C9, as amended.  For a [w]-bit [size_t], a buffer that holds [size_]
    bytes in one array of [capacity_] bytes, and [0 <= n < 2^w]: after
    [Resize(n)] the size is [n], [size <= capacity], and the bytes are again
    in one array of [capacity_] bytes.  When [n] exceeds the old capacity
    [cap], the new capacity is [max (cap + cap + cap / 4) n] with the sum
    taken modulo [2^w]; this is [max (floor (2.25 * cap)) n] whenever the sum
    fits in [size_t].  When [n < cap / 2] (integer division) the new
    capacity is [n]; otherwise the capacity does not change. *)
Theorem Resize_spec (w : Z) (b : DataBuffer) (n : Z) :
  0 < w -> DataBuffer_ok w b -> 0 <= n < 2 ^ w ->
  size_ (Resize w b n) = n /\
  size_ (Resize w b n) <= capacity_ (Resize w b n) /\
  Z.of_nat (length (data_ (Resize w b n))) = capacity_ (Resize w b n) /\
  (capacity_ b < n ->
     capacity_ (Resize w b n) =
       Z.max ((capacity_ b + capacity_ b + capacity_ b / 4) mod 2 ^ w) n) /\
  (capacity_ b < n -> capacity_ b + capacity_ b + capacity_ b / 4 < 2 ^ w ->
     capacity_ (Resize w b n) = Z.max (9 * capacity_ b / 4) n) /\
  (n < capacity_ b / 2 -> capacity_ (Resize w b n) = n) /\
  (capacity_ b / 2 <= n <= capacity_ b ->
     capacity_ (Resize w b n) = capacity_ b /\ data_ (Resize w b n) = data_ b).
Proof.
  intros Hw Hb Hn.
  destruct (Resize_ok w Hw b n Hb Hn) as (Hs & Hc & Hl).
  destruct Hb as (Hbs & Hbc & Hbl).
  split; [apply Resize_size |].
  split; [lia |].
  split; [exact Hl |].
  split.
  { intros Hgt. rewrite Resize_capacity_grow by exact Hgt.
    rewrite grow_capacity_mod by exact Hw. reflexivity. }
  split.
  { intros Hgt Hfit. rewrite Resize_capacity_grow by exact Hgt.
    rewrite grow_capacity_exact by lia. reflexivity. }
  split.
  { intros Hlt. apply Resize_capacity_shrink; [| exact Hlt].
    pose proof (Z.div_le_upper_bound (capacity_ b) 2 (capacity_ b)). lia. }
  intros Hkeep. rewrite Resize_capacity_keep by exact Hkeep. split; reflexivity.
Qed.

(** A buffer of 5 bytes with capacity 8, resized to 20 on a 32-bit target. *)
Lemma Resize_spec_witness :
  size_ (Resize 32 (mkDataBuffer (replicate 8 Byte.x00) 5 8) 20) = 20 /\
  capacity_ (Resize 32 (mkDataBuffer (replicate 8 Byte.x00) 5 8) 20) = 20.
Proof.
  destruct (Resize_spec 32 (mkDataBuffer (replicate 8 Byte.x00) 5 8) 20)
    as (Hs & _ & _ & Hc & _).
  - lia.
  - unfold DataBuffer_ok. cbn. lia.
  - lia.
  - split; [exact Hs |]. rewrite Hc by (cbn; lia). reflexivity.
Defined.

(** C9, as stated, fails on a 32-bit target: growing [wide_buffer] by one
    byte gives capacity [n = 1908874355], not
    [max (2.25 * cap) n = 4294967296], because [cap + cap + cap / 4]
    wraps to 0. *)
Lemma Resize_growth_wraps :
  DataBuffer_ok 32 wide_buffer /\
  capacity_ wide_buffer < 1908874355 < 2 ^ 32 /\
  capacity_ (Resize 32 wide_buffer 1908874355) = 1908874355 /\
  Z.max (9 * capacity_ wide_buffer / 4) 1908874355 = 4294967296 /\
  capacity_ (Resize 32 wide_buffer 1908874355)
    <> Z.max (9 * capacity_ wide_buffer / 4) 1908874355.
Proof.
  assert (Hcap : capacity_ wide_buffer = 1908874354) by reflexivity.
  assert (Hgrow : capacity_ (Resize 32 wide_buffer 1908874355) = 1908874355).
  { rewrite Resize_capacity_grow by (rewrite Hcap; lia).
    rewrite Hcap. reflexivity. }
  split.
  { unfold DataBuffer_ok. change (size_ wide_buffer) with 1908874354.
    rewrite Hcap. change (data_ wide_buffer)
      with (replicate (Z.to_nat 1908874354) Byte.x00).
    rewrite length_replicate, Z2Nat.id by lia. lia. }
  rewrite Hgrow, Hcap.
  assert (Hmax : Z.max (9 * 1908874354 / 4) 1908874355 = 4294967296)
    by reflexivity.
  rewrite Hmax. repeat split; try reflexivity; lia.
Qed.

(* ===================================================================== *)
(** * Protocol inference *)
(* ===================================================================== *)

Lemma inferDataProtocol_http url :
  hasPrefix url "http://" = true \/ hasPrefix url "https://" = true ->
  inferDataProtocol url = HTTP.
Proof.
  intros H. unfold inferDataProtocol, inferDataProtocol_body.
  destruct H as [-> | ->]; [reflexivity |].
  rewrite orb_true_r. reflexivity.
Qed.

Lemma inferDataProtocol_native url :
  hasPrefix url "http://" = false -> hasPrefix url "https://" = false ->
  inferDataProtocol url = NATIVE.
Proof.
  intros H1 H2. unfold inferDataProtocol, inferDataProtocol_body.
  rewrite H1, H2. cbn. destruct (hasPrefix url "file://"); reflexivity.
Qed.

Lemma inferDataProtocol_never_buffer url : inferDataProtocol url <> BUFFER.
Proof.
  unfold inferDataProtocol, inferDataProtocol_body.
  repeat case_match; cbn; discriminate.
Qed.

(** [hasPrefix] is the prefix test: [text] is [pre] followed by something. *)
Lemma hasPrefix_spec text pre :
  hasPrefix text pre = true <-> exists rest, text = pre +:+ rest.
Proof.
  unfold hasPrefix. rewrite String.eqb_eq.
  revert text. induction pre as [| c pre IH]; intros text; cbn.
  - split; [intros _; exists text; reflexivity | intros _].
    destruct text; reflexivity.
  - destruct text as [| d text]; cbn.
    + split; [discriminate | intros [rest H]; discriminate].
    + split.
      * intros [= -> H]. apply IH in H as [rest ->]. exists rest. reflexivity.
      * intros [rest [= -> ->]]. f_equal. apply IH. exists rest. reflexivity.
Qed.

Lemma substring_whole s : substring 0 (String.length s) s = s.
Proof. induction s as [| c s IH]; cbn; [reflexivity | rewrite IH; reflexivity]. Qed.

(** For a url ["file://" ++ path] the protocol is NATIVE and the local
    [data_url] of [inferDataProtocol] ends as [path]. *)
Lemma inferDataProtocol_body_file path :
  inferDataProtocol_body ("file://" +:+ path) = (NATIVE, path).
Proof.
  unfold inferDataProtocol_body.
  assert (H1 : hasPrefix ("file://" +:+ path) "http://" = false) by reflexivity.
  assert (H2 : hasPrefix ("file://" +:+ path) "https://" = false) by reflexivity.
  assert (H3 : hasPrefix ("file://" +:+ path) "file://" = true)
    by (destruct path; reflexivity).
  rewrite H1, H2, H3. cbn [orb]. f_equal.
  change (substring 7 (String.length ("file://" +:+ path) - 7) ("file://" +:+ path))
    with (substring 0 (String.length path - 0) path).
  rewrite Nat.sub_0_r. apply substring_whole.
Qed.

(* ===================================================================== *)
(** * The store of file objects *)
(* ===================================================================== *)

(** An update of the object at [p] leaves every other object alone, and
    changes the object at [p] by [g] when there is one. *)
Lemma deref_update_file p g fs q :
  deref (update_file p g fs) q =
    if decide (p = q) then
      match store fs !! p with Some f => g f | None => deref fs q end
    else deref fs q.
Proof.
  unfold deref, update_file, set_store; cbn.
  rewrite !lookup_total_alt, lookup_alter.
  destruct (decide (p = q)) as [-> | Hne].
  - destruct (store fs !! q); reflexivity.
  - reflexivity.
Qed.

Lemma deref_update_file_eq p g fs f :
  store fs !! p = Some f -> deref (update_file p g fs) p = g f.
Proof.
  intros H. rewrite deref_update_file, decide_True by reflexivity.
  rewrite H. reflexivity.
Qed.

Lemma deref_update_file_ne p g fs q :
  p <> q -> deref (update_file p g fs) q = deref fs q.
Proof. intros H. rewrite deref_update_file, decide_False by exact H. reflexivity. Qed.

Lemma deref_Some fs p f : store fs !! p = Some f -> deref fs p = f.
Proof. intros H. unfold deref. rewrite lookup_total_alt, H. reflexivity. Qed.

Lemma deref_log e fs p : deref (log e fs) p = deref fs p.
Proof. reflexivity. Qed.

Lemma store_update_file_Some p g fs f :
  store fs !! p = Some f -> store (update_file p g fs) !! p = Some (g f).
Proof.
  intros H. unfold update_file, set_store; cbn.
  rewrite lookup_alter, decide_True, H by reflexivity. reflexivity.
Qed.

(** A field that [g] does not change is not changed by the update. *)
Lemma deref_update_file_field {A} (proj : WebFile -> A) p g fs q :
  (forall f, proj (g f) = proj f) ->
  proj (deref (update_file p g fs) q) = proj (deref fs q).
Proof.
  intros Hg. rewrite deref_update_file.
  destruct (decide (p = q)) as [-> | _]; [| reflexivity].
  destruct (store fs !! q) eqn:E; [| reflexivity].
  rewrite Hg, (deref_Some _ _ _ E). reflexivity.
Qed.

Lemma store_update_file_is_Some p g fs q :
  is_Some (store (update_file p g fs) !! q) <-> is_Some (store fs !! q).
Proof.
  unfold update_file, set_store; cbn. rewrite lookup_alter.
  destruct (decide (p = q)) as [-> | _]; [| reflexivity].
  destruct (store fs !! q); cbn; split; intros [x H]; eauto; discriminate.
Qed.

Lemma make_shared_fresh file fs :
  store fs !! snd (make_shared file fs) = None.
Proof.
  unfold make_shared; cbn. apply not_elem_of_dom. apply is_fresh.
Qed.

Lemma deref_make_shared_new file fs :
  deref (fst (make_shared file fs)) (snd (make_shared file fs)) = file.
Proof.
  unfold make_shared, deref, set_store; cbn.
  rewrite lookup_total_insert_eq. reflexivity.
Qed.

Lemma deref_make_shared_old file fs q :
  is_Some (store fs !! q) ->
  deref (fst (make_shared file fs)) q = deref fs q.
Proof.
  intros Hq. unfold make_shared, deref, set_store; cbn.
  rewrite lookup_total_insert_ne; [reflexivity |].
  intros <-. pose proof (make_shared_fresh file fs) as Hf. cbn in Hf.
  rewrite Hf in Hq. destruct Hq as [? ?]; discriminate.
Qed.

Lemma map_insert_new_fresh `{Countable K} {V} (k : K) (v : V) (m : gmap K V) :
  m !! k = None -> map_insert_new k v m = <[k := v]> m.
Proof. intros E. unfold map_insert_new. rewrite E. reflexivity. Qed.

Lemma map_insert_new_keeps `{Countable K} {V} (k j : K) (v x : V) (m : gmap K V) :
  m !! j = Some x -> map_insert_new k v m !! j = Some x.
Proof.
  intros E. unfold map_insert_new. destruct (m !! k) eqn:Ek; [exact E |].
  rewrite lookup_insert_ne; [exact E | congruence].
Qed.

(* ===================================================================== *)
(** * Registering files *)
(* ===================================================================== *)

Lemma registry_ok_new : registry_ok WebFileSystem_new.
Proof. split; cbn; intros ? ? H; rewrite lookup_empty in H; discriminate. Qed.

(** C6, at the url ["file:///tmp/a.csv"]: [inferDataProtocol] computes the
    stripped path ["/tmp/a.csv"] in its local [data_url] and returns NATIVE,
    but the record that [RegisterFileURL] and [OpenFile] create keeps the
    url with its ["file://"] prefix. *)
Theorem file_prefix_not_stripped :
  inferDataProtocol_body "file:///tmp/a.csv" = (NATIVE, "/tmp/a.csv") /\
  (let fs := fst (RegisterFileURL WebFileSystem_new "a.csv" "file:///tmp/a.csv" None) in
   files_by_name_ fs !! "a.csv" = Some 0%nat /\
   data_protocol_ (deref fs 0%nat) = NATIVE /\
   data_url_ (deref fs 0%nat) = Some "file:///tmp/a.csv") /\
  (let fs := fst (OpenFile 32 rt_plain true WebFileSystem_new "file:///tmp/a.csv" 0) in
   files_by_name_ fs !! "file:///tmp/a.csv" = Some 0%nat /\
   data_protocol_ (deref fs 0%nat) = NATIVE /\
   data_url_ (deref fs 0%nat) = Some "file:///tmp/a.csv").
Proof. vm_compute. repeat split; reflexivity. Qed.

Lemma RegisterFileURL_existing fs file_name file_url file_size p :
  files_by_name_ fs !! file_name = Some p ->
  data_url_ (deref fs p) = Some file_url ->
  RegisterFileURL fs file_name file_url file_size =
    (log FsUnlock
       (update_file p (fun f => set_handle_count (handle_count_ f + 1) f)
          (log FsLock fs)),
     Value (mkWebFileHandle (Some p) 0)).
Proof.
  intros Hn Hu. unfold RegisterFileURL.
  change (files_by_name_ (log FsLock fs)) with (files_by_name_ fs). rewrite Hn.
  change (deref (log FsLock fs) p) with (deref fs p).
  rewrite decide_True by exact Hu. reflexivity.
Qed.

Lemma RegisterFileURL_conflict fs file_name file_url file_size p :
  files_by_name_ fs !! file_name = Some p ->
  data_url_ (deref fs p) <> Some file_url ->
  RegisterFileURL fs file_name file_url file_size =
    (log FsUnlock (log FsLock fs), Error (AlreadyRegistered file_name)).
Proof.
  intros Hn Hu. unfold RegisterFileURL.
  change (files_by_name_ (log FsLock fs)) with (files_by_name_ fs). rewrite Hn.
  change (deref (log FsLock fs) p) with (deref fs p).
  rewrite decide_False by exact Hu. reflexivity.
Qed.

Lemma RegisterFileURL_fresh fs file_name file_url file_size :
  files_by_name_ fs !! file_name = None ->
  files_by_id_ fs !! next_file_id_ fs = None ->
  exists fs' p,
    RegisterFileURL fs file_name file_url file_size =
      (fs', Value (mkWebFileHandle (Some p) 0)) /\
    store fs !! p = None /\
    deref fs' p =
      mkWebFile (next_file_id_ fs) file_name (inferDataProtocol file_url)
                (Some file_url) None (default 0 file_size) None 1 /\
    files_by_id_ fs' = <[next_file_id_ fs := p]> (files_by_id_ fs) /\
    files_by_name_ fs' = <[file_name := p]> (files_by_name_ fs) /\
    next_file_id_ fs' = next_file_id_ fs + 1 /\
    is_Some (store fs' !! p) /\
    (forall q, is_Some (store fs !! q) ->
       is_Some (store fs' !! q) /\ deref fs' q = deref fs q).
Proof.
  intros Hn Hi. unfold RegisterFileURL.
  change (files_by_name_ (log FsLock fs)) with (files_by_name_ fs). rewrite Hn.
  cbn -[fresh].
  pose proof (is_fresh (dom (store fs))) as Hfresh.
  apply not_elem_of_dom in Hfresh.
  set (p := fresh (dom (store fs))) in *.
  eexists _, p. split; [reflexivity |].
  split; [exact Hfresh |].
  split.
  { unfold deref, log, update_file, set_store; cbn.
    rewrite lookup_total_alt, lookup_alter, decide_True by reflexivity.
    rewrite lookup_insert_eq. reflexivity. }
  split.
  { cbn. apply map_insert_new_fresh, Hi. }
  split.
  { cbn. apply map_insert_new_fresh, Hn. }
  split; [reflexivity |].
  split.
  { unfold log, update_file, set_store; cbn.
    rewrite lookup_alter, decide_True, lookup_insert_eq by reflexivity.
    cbn. eauto. }
  intros q Hq. unfold deref, log, update_file, set_store; cbn.
  assert (p <> q) as Hne.
  { intros <-. rewrite Hfresh in Hq. destruct Hq; discriminate. }
  rewrite !lookup_total_alt, lookup_alter, decide_False by exact Hne.
  rewrite lookup_insert_ne by exact Hne. split; [exact Hq | reflexivity].
Qed.



(** C10.  When [name] is registered with the url passed, [RegisterFileURL]
    leaves the file's id, size, protocol and url as they are, and no other
    file changes; the call does the same whatever [file_size] it is given. *)
Theorem RegisterFileURL_existing_unchanged fs file_name file_url file_size p :
  files_by_name_ fs !! file_name = Some p ->
  data_url_ (deref fs p) = Some file_url ->
  file_id_ (deref (fst (RegisterFileURL fs file_name file_url file_size)) p)
    = file_id_ (deref fs p) /\
  file_size_ (deref (fst (RegisterFileURL fs file_name file_url file_size)) p)
    = file_size_ (deref fs p) /\
  data_protocol_ (deref (fst (RegisterFileURL fs file_name file_url file_size)) p)
    = data_protocol_ (deref fs p) /\
  data_url_ (deref (fst (RegisterFileURL fs file_name file_url file_size)) p)
    = data_url_ (deref fs p) /\
  (forall q, q <> p ->
     deref (fst (RegisterFileURL fs file_name file_url file_size)) q = deref fs q) /\
  RegisterFileURL fs file_name file_url file_size
    = RegisterFileURL fs file_name file_url None.
Proof.
  intros Hn Hu.
  rewrite !(RegisterFileURL_existing fs file_name file_url _ p Hn Hu).
  cbn [fst].
  change (deref (log FsUnlock ?x) ?q) with (deref x q).
  repeat split;
    try (rewrite deref_update_file_field by (intros f; reflexivity); reflexivity).
  intros q Hq. rewrite deref_update_file_ne by congruence. reflexivity.
Qed.

(** ["x"] is registered for ["http://host/x"] with size 0; registering it
    again with size 99 leaves the size at 0. *)
Lemma RegisterFileURL_existing_unchanged_witness :
  files_by_name_ fs_http !! "x" = Some 0%nat /\
  file_size_ (deref fs_http 0%nat) = 0 /\
  file_size_
    (deref (fst (RegisterFileURL fs_http "x" "http://host/x" (Some 99))) 0%nat) = 0.
Proof.
  split; [reflexivity |]. split; [reflexivity |].
  destruct (RegisterFileURL_existing_unchanged fs_http "x" "http://host/x"
              (Some 99) 0%nat) as (_ & Hsize & _).
  - reflexivity.
  - reflexivity.
  - rewrite Hsize. reflexivity.
Defined.

Lemma RegisterFileBuffer_existing_native fs file_name file_buffer p :
  files_by_name_ fs !! file_name = Some p ->
  is_Some (store fs !! p) ->
  data_protocol_ (deref fs p) = NATIVE ->
  data_protocol_ (deref (fst (RegisterFileBuffer fs file_name file_buffer)) p)
    = NATIVE /\
  data_buffer_ (deref (fst (RegisterFileBuffer fs file_name file_buffer)) p)
    = Some file_buffer /\
  file_size_ (deref (fst (RegisterFileBuffer fs file_name file_buffer)) p)
    = size_ file_buffer.
Proof.
  intros Hn [f Hf] Hp. unfold RegisterFileBuffer.
  change (files_by_name_ (log FsLock fs)) with (files_by_name_ fs). rewrite Hn.
  change (deref (log FsLock fs) p) with (deref fs p). rewrite Hp.
  rewrite (deref_Some fs p f Hf) in Hp.
  unfold WebFileHandle_new, deref, update_file, set_store, log; cbn.
  rewrite !lookup_total_alt, !lookup_alter, !decide_True, Hf by reflexivity.
  cbn. repeat split; try reflexivity. exact Hp.
Qed.

Lemma RegisterFileBuffer_existing_other fs file_name file_buffer p :
  files_by_name_ fs !! file_name = Some p ->
  is_Some (store fs !! p) ->
  data_protocol_ (deref fs p) <> NATIVE ->
  data_protocol_ (deref (fst (RegisterFileBuffer fs file_name file_buffer)) p)
    = BUFFER /\
  data_buffer_ (deref (fst (RegisterFileBuffer fs file_name file_buffer)) p)
    = Some file_buffer /\
  file_size_ (deref (fst (RegisterFileBuffer fs file_name file_buffer)) p)
    = size_ file_buffer.
Proof.
  intros Hn [f Hf] Hp. unfold RegisterFileBuffer.
  change (files_by_name_ (log FsLock fs)) with (files_by_name_ fs). rewrite Hn.
  change (deref (log FsLock fs) p) with (deref fs p).
  destruct (data_protocol_ (deref fs p)) eqn:E; [| congruence |];
    unfold WebFileHandle_new, deref, update_file, set_store, log; cbn;
    rewrite !lookup_total_alt, !lookup_alter, !decide_True, Hf by reflexivity;
    repeat split; reflexivity.
Qed.

(** C3, at the registry [fs_native], where ["a.csv"] is a NATIVE file:
    [RegisterFileBuffer("a.csv", abc)] stores the buffer and its size and
    closes the host handle between releasing and retaking [fs_mutex_], but
    the file's protocol is still NATIVE afterwards, not BUFFER. *)
Theorem RegisterFileBuffer_native_stays_native :
  files_by_name_ fs_native !! "a.csv" = Some 0%nat /\
  data_protocol_ (deref fs_native 0%nat) = NATIVE /\
  (let fs := fst (RegisterFileBuffer fs_native "a.csv" (DataBuffer_new abc 3)) in
   data_protocol_ (deref fs 0%nat) = NATIVE /\
   data_buffer_ (deref fs 0%nat) = Some (DataBuffer_new abc 3) /\
   file_size_ (deref fs 0%nat) = 3 /\
   events fs = events fs_native ++ [FsLock; FsUnlock; RtFileClose 0; FsLock; FsUnlock]).
Proof. vm_compute. repeat split; reflexivity. Qed.

(* ===================================================================== *)
(** * Identity of the stored files *)
(* ===================================================================== *)

Create HintDb identity.

Lemma same_identity_refl fs : same_identity fs fs.
Proof. intros q Hq. split; [exact Hq | split; reflexivity]. Qed.

Lemma same_identity_trans fs1 fs2 fs3 :
  same_identity fs1 fs2 -> same_identity fs2 fs3 -> same_identity fs1 fs3.
Proof.
  intros H12 H23 q Hq.
  destruct (H12 q Hq) as (Hq2 & Hi2 & Hn2).
  destruct (H23 q Hq2) as (Hq3 & Hi3 & Hn3).
  split; [exact Hq3 | split; congruence].
Qed.

Lemma same_identity_log fs0 fs e :
  same_identity fs0 fs -> same_identity fs0 (log e fs).
Proof. intros H. exact H. Qed.

Lemma same_identity_set_files_by_id fs0 fs m :
  same_identity fs0 fs -> same_identity fs0 (set_files_by_id m fs).
Proof. intros H. exact H. Qed.

Lemma same_identity_set_files_by_name fs0 fs m :
  same_identity fs0 fs -> same_identity fs0 (set_files_by_name m fs).
Proof. intros H. exact H. Qed.

Lemma same_identity_set_next_file_id fs0 fs v :
  same_identity fs0 fs -> same_identity fs0 (set_next_file_id v fs).
Proof. intros H. exact H. Qed.

Lemma same_identity_update_file fs0 fs p g :
  keeps_identity g ->
  same_identity fs0 fs -> same_identity fs0 (update_file p g fs).
Proof.
  intros Hg H q Hq. destruct (H q Hq) as (Hq' & Hi & Hn).
  split; [apply store_update_file_is_Some; exact Hq' |].
  rewrite !deref_update_file_field by (intros f; apply Hg).
  split; assumption.
Qed.

Lemma same_identity_make_shared fs0 fs file :
  same_identity fs0 fs -> same_identity fs0 (fst (make_shared file fs)).
Proof.
  intros H q Hq. destruct (H q Hq) as (Hq' & Hi & Hn).
  rewrite deref_make_shared_old by exact Hq'.
  split; [| split; assumption].
  unfold make_shared, set_store; cbn.
  destruct (decide (fresh (dom (store fs)) = q)) as [<- | Hne].
  - rewrite lookup_insert_eq. eauto.
  - rewrite lookup_insert_ne by exact Hne. exact Hq'.
Qed.

Lemma keeps_identity_set_handle_count (k : WebFile -> Z) :
  keeps_identity (fun f => set_handle_count (k f) f).
Proof. intros f. split; reflexivity. Qed.

Lemma keeps_identity_set_data_protocol v : keeps_identity (set_data_protocol v).
Proof. intros f. split; reflexivity. Qed.

Lemma keeps_identity_set_data_url v : keeps_identity (set_data_url v).
Proof. intros f. split; reflexivity. Qed.

Lemma keeps_identity_set_data_fd v : keeps_identity (set_data_fd v).
Proof. intros f. split; reflexivity. Qed.

Lemma keeps_identity_set_file_size v : keeps_identity (set_file_size v).
Proof. intros f. split; reflexivity. Qed.

Lemma keeps_identity_set_file_size_fun (k : WebFile -> Z) :
  keeps_identity (fun f => set_file_size (k f) f).
Proof. intros f. split; reflexivity. Qed.

Lemma keeps_identity_set_data_buffer v : keeps_identity (set_data_buffer v).
Proof. intros f. split; reflexivity. Qed.

Lemma keeps_identity_set_data_buffer_fun (k : WebFile -> option DataBuffer) :
  keeps_identity (fun f => set_data_buffer (k f) f).
Proof. intros f. split; reflexivity. Qed.

#[local] Hint Resolve same_identity_refl same_identity_log
  same_identity_set_files_by_id same_identity_set_files_by_name
  same_identity_set_next_file_id same_identity_update_file
  same_identity_make_shared keeps_identity_set_handle_count
  keeps_identity_set_data_protocol keeps_identity_set_data_url
  keeps_identity_set_data_fd keeps_identity_set_file_size
  keeps_identity_set_file_size_fun keeps_identity_set_data_buffer
  keeps_identity_set_data_buffer_fun : identity.

(** With the maps and the counter as they were, and the files keeping their
    identity, the invariant carries over. *)
Lemma registry_ok_same_maps fs fs' :
  registry_ok fs -> same_identity fs fs' ->
  files_by_id_ fs' = files_by_id_ fs ->
  files_by_name_ fs' = files_by_name_ fs ->
  next_file_id_ fs <= next_file_id_ fs' ->
  registry_ok fs'.
Proof.
  intros [Hn Hi Hb] Hs Ei En Hnext. split.
  - intros name p H. rewrite En in H. destruct (Hn _ _ H) as (Hp & Hname & Hid).
    destruct (Hs p Hp) as (Hp' & Ei' & En'). rewrite Ei, Ei', En'. auto.
  - intros id p H. rewrite Ei in H. destruct (Hi _ _ H) as (Hp & Hid & Hname).
    destruct (Hs p Hp) as (Hp' & Ei' & En'). rewrite En, Ei', En'. auto.
  - intros id p H. rewrite Ei in H. pose proof (Hb _ _ H). lia.
Qed.

Lemma RegisterFileURL_registry_ok fs file_name file_url file_size :
  registry_ok fs ->
  registry_ok (fst (RegisterFileURL fs file_name file_url file_size)).
Proof.
  intros Hok.
  destruct (files_by_name_ fs !! file_name) as [p |] eqn:Hn.
  - destruct (decide (data_url_ (deref fs p) = Some file_url)) as [Hu | Hu].
    + rewrite (RegisterFileURL_existing _ _ _ _ p Hn Hu). cbn [fst].
      apply (registry_ok_same_maps fs); auto 8 with identity; cbn; lia.
    + rewrite (RegisterFileURL_conflict _ _ _ _ p Hn Hu). cbn [fst].
      apply (registry_ok_same_maps fs); auto 8 with identity; cbn; lia.
  - assert (Hi : files_by_id_ fs !! next_file_id_ fs = None).
    { destruct (files_by_id_ fs !! next_file_id_ fs) as [q |] eqn:E; [| reflexivity].
      pose proof (ids_below_next fs Hok _ _ E). lia. }
    destruct (RegisterFileURL_fresh fs file_name file_url file_size Hn Hi)
      as (fs' & p & Hr & Hp & Hd & Hbi & Hbn & Hnext & Hp' & Hstore).
    rewrite Hr. cbn [fst]. destruct Hok as [Hon Hoi Hob].
    split.
    + intros name q H. rewrite Hbn in H.
      destruct (decide (file_name = name)) as [<- | Hne].
      * rewrite lookup_insert_eq in H. injection H as <-.
        rewrite Hd, Hbi. cbn. rewrite lookup_insert_eq. auto.
      * rewrite lookup_insert_ne in H by exact Hne.
        destruct (Hon _ _ H) as (Hq & Hname & Hid).
        destruct (Hstore q Hq) as (Hq' & ->). rewrite Hbi.
        rewrite lookup_insert_ne; [auto |].
        pose proof (Hob _ _ Hid). lia.
    + intros id q H. rewrite Hbi in H.
      destruct (decide (next_file_id_ fs = id)) as [<- | Hne].
      * rewrite lookup_insert_eq in H. injection H as <-.
        rewrite Hd, Hbn. cbn. rewrite lookup_insert_eq. auto.
      * rewrite lookup_insert_ne in H by exact Hne.
        destruct (Hoi _ _ H) as (Hq & Hid & Hname).
        destruct (Hstore q Hq) as (Hq' & ->). rewrite Hbn.
        rewrite lookup_insert_ne; [auto |]. congruence.
    + intros id q H. rewrite Hbi in H. rewrite Hnext.
      destruct (decide (next_file_id_ fs = id)) as [<- | Hne]; [lia |].
      rewrite lookup_insert_ne in H by exact Hne.
      pose proof (Hob _ _ H). lia.
Qed.


(* ===================================================================== *)
(** * Operations that remove nothing *)
(* ===================================================================== *)

Lemma grows_refl fs : grows fs fs.
Proof. split; [apply same_identity_refl | split; auto]. Qed.

Lemma grows_log fs0 fs e : grows fs0 fs -> grows fs0 (log e fs).
Proof. intros H. exact H. Qed.

Lemma grows_set_next_file_id fs0 fs v :
  grows fs0 fs -> grows fs0 (set_next_file_id v fs).
Proof. intros H. exact H. Qed.

Lemma grows_update_file fs0 fs p g :
  keeps_identity g -> grows fs0 fs -> grows fs0 (update_file p g fs).
Proof.
  intros Hg (Hs & Hi & Hn).
  split; [apply same_identity_update_file; assumption | split; assumption].
Qed.

Lemma grows_make_shared fs0 fs file :
  grows fs0 fs -> grows fs0 (fst (make_shared file fs)).
Proof.
  intros (Hs & Hi & Hn).
  split; [apply same_identity_make_shared; assumption | split; assumption].
Qed.

Lemma grows_insert_id fs0 fs k v :
  grows fs0 fs ->
  grows fs0 (set_files_by_id (map_insert_new k v (files_by_id_ fs)) fs).
Proof.
  intros (Hs & Hi & Hn). split; [exact Hs | split; [| exact Hn]].
  intros id q H. cbn. apply map_insert_new_keeps, Hi, H.
Qed.

Lemma grows_insert_name fs0 fs k v :
  grows fs0 fs ->
  grows fs0 (set_files_by_name (map_insert_new k v (files_by_name_ fs)) fs).
Proof.
  intros (Hs & Hi & Hn). split; [exact Hs | split; [exact Hi |]].
  intros name q H. cbn. apply map_insert_new_keeps, Hn, H.
Qed.

#[local] Hint Resolve grows_refl grows_log grows_set_next_file_id
  grows_update_file grows_make_shared grows_insert_id grows_insert_name
  : identity.

Lemma registered_grows fs fs' p :
  grows fs fs' -> is_Some (store fs !! p) -> registered fs p -> registered fs' p.
Proof.
  intros (Hs & Hi & Hn) Hp [Rid Rname].
  destruct (Hs p Hp) as (_ & Ei & En).
  split; [rewrite Ei; apply Hi, Rid | rewrite En; apply Hn, Rname].
Qed.

(** Names the filesystem after [make_shared] again as such. *)
Ltac name_shared :=
  repeat match goal with
  | H : make_shared ?file ?x = (?fs, ?p) |- _ =>
      let E := fresh in
      assert (E : fs = fst (make_shared file x)) by (rewrite H; reflexivity);
      clear H; subst fs
  end.

Lemma RegisterFileURL_grows fs file_name file_url file_size :
  grows fs (fst (RegisterFileURL fs file_name file_url file_size)).
Proof.
  unfold RegisterFileURL, WebFileHandle_new, AllocateFileID.
  repeat case_match; name_shared; cbn [fst]; auto 12 with identity.
Qed.

Lemma RegisterFileBuffer_grows fs file_name file_buffer :
  grows fs (fst (RegisterFileBuffer fs file_name file_buffer)).
Proof.
  unfold RegisterFileBuffer, WebFileHandle_new, AllocateFileID.
  repeat case_match; name_shared; cbn [fst]; auto 14 with identity.
Qed.

Lemma SetFileDescriptor_grows fs file_id file_descriptor :
  grows fs (fst (SetFileDescriptor fs file_id file_descriptor)).
Proof.
  unfold SetFileDescriptor. repeat case_match; cbn [fst]; auto 8 with identity.
Qed.

Lemma Truncate_grows w rt fs h new_size :
  grows fs (fst (Truncate w rt fs h new_size)).
Proof.
  unfold Truncate, InvalidateReadAheads.
  repeat case_match; cbn [fst]; auto 10 with identity.
Qed.

Lemma Read_grows w rt fs h nr_bytes :
  grows fs (fst (fst (Read w rt fs h nr_bytes))).
Proof.
  unfold Read. repeat case_match; cbn [fst]; auto with identity.
Qed.

Lemma grows_trans fs1 fs2 fs3 : grows fs1 fs2 -> grows fs2 fs3 -> grows fs1 fs3.
Proof.
  intros (Hs & Hi & Hn) (Hs' & Hi' & Hn').
  split; [eapply same_identity_trans; eassumption | split; auto].
Qed.

Lemma Write_grows w rt fs h buffer nr_bytes :
  grows fs (fst (fst (Write w rt fs h buffer nr_bytes))).
Proof.
  unfold Write, InvalidateReadAheads.
  destruct (file_ h) as [p |]; [| apply grows_refl].
  destruct (data_protocol_ (deref fs p)).
  - destruct (data_buffer_ (deref fs p)) as [b0 |]; [| apply grows_refl].
    destruct (size_ b0 <? u64 (position_ h + nr_bytes)).
    + pose proof (Truncate_grows w rt fs h
        (i64 (Z.max (usize w (u64 (position_ h + nr_bytes)))
                    (usize w (file_size_ (deref fs p)))))) as Hg.
      destruct (Truncate w rt fs h _) as [fs1 r]. cbn [fst] in Hg.
      destruct r; [destruct (data_buffer_ (deref fs1 p)) | |];
        cbn [fst]; auto 8 with identity.
    + destruct (data_buffer_ (deref fs p)); cbn [fst]; auto 8 with identity.
  - case_match; cbn [fst]; auto 8 with identity.
  - apply grows_refl.
Qed.

(** An [OpenFile] that reaches its [catch] block does not return. *)
Lemma OpenFile_abort_not_returned have_file_lock fs p handle what :
  ended (snd (OpenFile_abort have_file_lock fs p handle what)) <> Returns tt.
Proof.
  unfold OpenFile_abort. repeat case_match; cbn; discriminate.
Qed.

Lemma OpenFile_host_grows w rt have_file_lock fs0 fs p handle flags :
  grows fs0 fs ->
  ended (snd (OpenFile_host w rt have_file_lock fs p handle flags)) = Returns tt ->
  grows fs0 (fst (OpenFile_host w rt have_file_lock fs p handle flags)).
Proof.
  intros Hg. unfold OpenFile_host.
  destruct (rt_file_open rt _) as [[opened |] | what].
  - set (fs1 := match opened_file_buffer opened with Some _ => _ | None => _ end).
    assert (Hg1 : grows fs0 fs1).
    { subst fs1. destruct (opened_file_buffer opened); auto 8 with identity. }
    clearbody fs1.
    destruct (create_new_set flags); [| intros _; exact Hg1].
    pose proof (Truncate_grows w rt fs1 handle 0) as Ht.
    destruct (Truncate w rt fs1 handle 0) as [fs2 [[] | what |]]; cbn [fst] in Ht.
    + intros _. cbn [fst]. eapply grows_trans; eassumption.
    + intros H. exfalso. exact (OpenFile_abort_not_returned _ _ _ _ _ H).
    + discriminate.
  - intros H. exfalso. exact (OpenFile_abort_not_returned _ _ _ _ _ H).
  - intros H. exfalso. exact (OpenFile_abort_not_returned _ _ _ _ _ H).
Qed.

Lemma OpenFile_grows w rt have_file_lock fs url flags :
  ended (snd (OpenFile w rt have_file_lock fs url flags)) = Returns tt ->
  grows fs (fst (OpenFile w rt have_file_lock fs url flags)).
Proof.
  unfold OpenFile, WebFileHandle_new, AllocateFileID.
  set (found := match files_by_name_ (log FsLock fs) !! url with
                | Some p => _ | None => _ end).
  assert (Hg : grows fs (fst found)).
  { subst found. repeat case_match; name_shared; cbn [fst];
      auto 12 with identity. }
  destruct found as [fs1 p]. cbn [fst] in Hg.
  set (fs2 := log FsUnlock _).
  assert (Hg2 : grows fs fs2) by (subst fs2; auto 8 with identity).
  clearbody fs2.
  destruct (data_protocol_ (deref fs2 p)).
  - destruct (create_new_set flags); [| intros _; exact Hg2].
    destruct (data_buffer_ (deref fs2 p)); [| discriminate].
    intros _. cbn [fst]. auto 8 with identity.
  - destruct (data_fd_ (deref fs2 p)); [intros _; exact Hg2 |].
    apply OpenFile_host_grows, Hg2.
  - apply OpenFile_host_grows, Hg2.
Qed.

(* ===================================================================== *)
(** * Operations that remove files *)
(* ===================================================================== *)

Lemma foldl_delete_lookup `{Countable K} {V} (ids : list K) (m : gmap K V) k :
  foldl (fun m id => delete id m) m ids !! k =
    if decide (k ∈ ids) then None else m !! k.
Proof.
  revert m. induction ids as [| id ids IH]; intros m; cbn.
  - rewrite decide_False by apply not_elem_of_nil. reflexivity.
  - rewrite IH. destruct (decide (k ∈ ids)) as [Hin | Hin].
    + rewrite decide_True by (right; exact Hin). reflexivity.
    + destruct (decide (k = id)) as [-> | Hne].
      * rewrite decide_True by left. apply lookup_delete_eq.
      * rewrite decide_False by (intros Hc; apply elem_of_cons in Hc; tauto).
        apply lookup_delete_ne. congruence.
Qed.

(** The first loop of [DropDanglingFiles]: a name survives when no visited
    file without a handle carries it; an id is collected when a visited file
    without a handle is filed under it. *)
Lemma DropDanglingFiles_scan_spec fs l names ids :
  (forall n v,
     (foldl (DropDanglingFiles_scan fs) (names, ids) l).1 !! n = Some v <->
     names !! n = Some v /\
     forall id q, (id, q) ∈ l -> handle_count_ (deref fs q) = 0 ->
                  file_name_ (deref fs q) <> n) /\
  (forall id,
     id ∈ (foldl (DropDanglingFiles_scan fs) (names, ids) l).2 <->
     id ∈ ids \/ exists q, (id, q) ∈ l /\ handle_count_ (deref fs q) = 0).
Proof.
  revert names ids. induction l as [| [id0 q0] l IH]; intros names ids; cbn.
  - split.
    + intros n v. split; [intros H; split; [exact H |] | tauto].
      intros id q Hin. apply elem_of_nil in Hin. contradiction.
    + intros id. split; [tauto |]. intros [H | (q & Hin & _)]; [exact H |].
      apply elem_of_nil in Hin. contradiction.
  - destruct (Z.eqb_spec (handle_count_ (deref fs q0)) 0) as [E0 | E0].
    + destruct (IH (delete (file_name_ (deref fs q0)) names) (ids ++ [id0]))
        as [IHn IHi]. split.
      * intros n v. rewrite IHn. split.
        -- intros [Hl Hall].
           apply lookup_delete_Some in Hl as [Hne Hl]. split; [exact Hl |].
           intros id q Hin Hc. apply elem_of_cons in Hin as [[= -> ->] | Hin];
             [exact Hne | eapply Hall; eassumption].
        -- intros [Hl Hall]. split.
           ++ apply lookup_delete_Some. split; [| exact Hl].
              apply (Hall id0 q0); [left | exact E0].
           ++ intros id q Hin. apply (Hall id q). right. exact Hin.
      * intros id. rewrite IHi, elem_of_app, list_elem_of_singleton. split.
        -- intros [[H | ->] | (q & Hin & Hc)]; [tauto | |].
           ++ right. exists q0. split; [left | exact E0].
           ++ right. exists q. split; [right; exact Hin | exact Hc].
        -- intros [H | (q & Hin & Hc)]; [tauto |].
           apply elem_of_cons in Hin as [[= -> ->] | Hin]; [tauto |].
           right. exists q. tauto.
    + destruct (IH names ids) as [IHn IHi]. split.
      * intros n v. rewrite IHn. split.
        -- intros [Hl Hall]. split; [exact Hl |].
           intros id q Hin Hc. apply elem_of_cons in Hin as [[= -> ->] | Hin];
             [contradiction | eapply Hall; eassumption].
        -- intros [Hl Hall]. split; [exact Hl |].
           intros id q Hin. apply (Hall id q). right. exact Hin.
      * intros id. rewrite IHi. split.
        -- intros [H | (q & Hin & Hc)]; [tauto |].
           right. exists q. split; [right; exact Hin | exact Hc].
        -- intros [H | (q & Hin & Hc)]; [tauto |].
           apply elem_of_cons in Hin as [[= -> ->] | Hin]; [contradiction |].
           right. exists q. tauto.
Qed.

(** What [DropDanglingFiles] leaves in the registry. *)
Lemma DropDanglingFiles_spec fs :
  store (DropDanglingFiles fs) = store fs /\
  next_file_id_ (DropDanglingFiles fs) = next_file_id_ fs /\
  (forall n v,
     files_by_name_ (DropDanglingFiles fs) !! n = Some v <->
     files_by_name_ fs !! n = Some v /\
     forall id q, files_by_id_ fs !! id = Some q ->
                  handle_count_ (deref fs q) = 0 -> file_name_ (deref fs q) <> n) /\
  (forall id q,
     files_by_id_ (DropDanglingFiles fs) !! id = Some q <->
     files_by_id_ fs !! id = Some q /\ handle_count_ (deref fs q) <> 0).
Proof.
  unfold DropDanglingFiles.
  pose proof (DropDanglingFiles_scan_spec (log FsLock fs)
                (map_to_list (files_by_id_ (log FsLock fs)))
                (files_by_name_ (log FsLock fs)) []) as [Hn Hi].
  destruct (foldl _ _ _) as [by_name to_delete]. cbn [fst snd] in Hn, Hi.
  cbn. split; [reflexivity |]. split; [reflexivity |]. split.
  - intros n v. rewrite Hn. split; intros [Hl Hall]; (split; [exact Hl |]);
      intros id q Hq; apply (Hall id q); apply elem_of_map_to_list; exact Hq.
  - intros id q. rewrite foldl_delete_lookup.
    destruct (decide (id ∈ to_delete)) as [Hin | Hin].
    + apply Hi in Hin as [Hin | (q' & Hin & Hc)];
        [apply elem_of_nil in Hin; contradiction |].
      apply elem_of_map_to_list in Hin. split; [discriminate |].
      intros [Hq Hne]. cbn in Hin. rewrite Hq in Hin. injection Hin as <-.
      contradiction.
    + split; [| tauto]. intros Hq. split; [exact Hq |]. intros Hc.
      apply Hin, Hi. right. exists q. split; [| exact Hc].
      apply elem_of_map_to_list. exact Hq.
Qed.

Lemma DropDanglingFiles_keeps_held fs p :
  registry_ok fs -> registered fs p ->
  0 < handle_count_ (deref (DropDanglingFiles fs) p) ->
  registered (DropDanglingFiles fs) p.
Proof.
  intros Hok [Rid Rname] Hc.
  destruct (DropDanglingFiles_spec fs) as (Hs & _ & Hn & Hi).
  assert (Hd : forall q, deref (DropDanglingFiles fs) q = deref fs q).
  { intros q. unfold deref. rewrite Hs. reflexivity. }
  rewrite Hd in Hc. unfold registered. rewrite !Hd. split.
  - apply Hi. split; [exact Rid | lia].
  - apply Hn. split; [exact Rname |]. intros id q Hq Hz Hname.
    destruct (by_id_ok fs Hok _ _ Hq) as (_ & _ & Hq').
    rewrite Hname, Rname in Hq'. injection Hq' as ->. lia.
Qed.

Lemma TryDropFile_keeps_held fs file_name p :
  registry_ok fs -> registered fs p ->
  0 < handle_count_ (deref (fst (TryDropFile fs file_name)) p) ->
  registered (fst (TryDropFile fs file_name)) p.
Proof.
  intros Hok [Rid Rname]. unfold TryDropFile.
  change (files_by_name_ (log FsLock fs)) with (files_by_name_ fs).
  destruct (files_by_name_ fs !! file_name) as [q |] eqn:Hq;
    [| intros _; split; assumption].
  change (deref (log FsLock fs) q) with (deref fs q).
  destruct (Z.eqb_spec (handle_count_ (deref fs q)) 0) as [Hz | Hz];
    [| intros _; split; assumption].
  cbn [fst]. intros Hc.
  destruct (by_name_ok fs Hok _ _ Hq) as (_ & _ & Hqid).
  destruct (by_id_ok fs Hok _ _ Hqid) as (_ & _ & Hqname).
  unfold registered, deref in *. cbn in *.
  assert (q <> p) as Hne by (intros ->; lia).
  split.
  - rewrite lookup_delete_ne; [exact Rid |]. intros E.
    rewrite E, Rid in Hqid. congruence.
  - rewrite lookup_delete_ne; [exact Rname |]. intros E.
    rewrite E, Rname in Hqname. congruence.
Qed.

Lemma Close_keeps_held have_file_lock fs h q :
  registry_ok fs ->
  (forall p, file_ h = Some p -> registered fs p) ->
  registered fs q ->
  0 < handle_count_ (deref (fst (Close have_file_lock fs h)) q) ->
  registered (fst (Close have_file_lock fs h)) q.
Proof.
  intros Hok Hh Rq. unfold Close.
  destruct (file_ h) as [p |]; [| intros _; exact Rq].
  specialize (Hh p eq_refl).
  set (fs1 := update_file p _ (log FsLock fs)).
  assert (Hg : grows fs fs1) by (subst fs1; auto 8 with identity).
  assert (Hq : is_Some (store fs !! q))
    by (destruct Rq as [Rid _]; apply (by_id_ok fs Hok _ _ Rid)).
  assert (Hp : is_Some (store fs !! p))
    by (destruct Hh as [Rid _]; apply (by_id_ok fs Hok _ _ Rid)).
  pose proof (registered_grows fs fs1 q Hg Hq Rq) as Rq1.
  pose proof (registered_grows fs fs1 p Hg Hp Hh) as Rp1.
  clearbody fs1. clear Hg Hq Hp Rq Hh Hok fs.
  destruct (Z.ltb_spec 0 (handle_count_ (deref fs1 p))) as [Hc | Hc];
    [intros _; exact Rq1 |].
  destruct have_file_lock; cbn [negb]; [| intros _; exact Rq1].
  destruct (decide (data_protocol_ (deref fs1 p) = BUFFER));
    [intros _; exact Rq1 |].
  destruct Rq1 as [Rid Rname]. destruct Rp1 as [Pid Pname].
  assert (Hcase : 0 < handle_count_ (deref fs1 q) ->
            file_id_ (deref fs1 p) <> file_id_ (deref fs1 q) /\
            file_name_ (deref fs1 p) <> file_name_ (deref fs1 q)).
  { intros Hpos. assert (p <> q) as Hne by (intros ->; lia).
    split; intros E; [rewrite E, Rid in Pid | rewrite E, Rname in Pname];
      congruence. }
  unfold registered, deref in *. cbn in *.
  destruct (files_by_id_ fs1 !! file_id_ (store fs1 !!! p)); cbn;
    intros Hpos; destruct (Hcase Hpos) as [Hi Hn];
    rewrite ?lookup_delete_ne by assumption; split; assumption.
Qed.




(* ===================================================================== *)
(** * Positional reads and writes *)
(* ===================================================================== *)

Lemma Read_loop_step fuel w rt fs h location file_size nr_bytes out :
  0 < nr_bytes -> location < file_size ->
  Read_loop (S fuel) w rt fs h location file_size nr_bytes out =
    match Read w rt fs h nr_bytes with
    | (fs, h, Returns (n, bytes)) =>
        Read_loop fuel w rt fs h location file_size (i64 (nr_bytes - n))
                  (out ++ bytes)
    | (fs, h, Throws what) => Some (fs, h, Throws what)
    | (fs, h, Undefined) => Some (fs, h, Undefined)
    end.
Proof.
  intros H1 H2. cbn [Read_loop].
  destruct (Z.ltb_spec 0 nr_bytes); [| lia].
  destruct (Z.ltb_spec location file_size); [| lia].
  reflexivity.
Qed.

Lemma i64_small x : - 2 ^ 63 <= x < 2 ^ 63 -> i64 x = x.
Proof. intros H. unfold i64. rewrite Z.mod_small; lia. Qed.

(** Once a sequential read returns 0 bytes while bytes are still wanted,
    the loop of the positional read repeats the same read for ever: it tests
    [location], which it never advances, and [nr_bytes], which no longer
    shrinks. *)
Lemma Read_loop_stuck w rt fs h location file_size nr_bytes bytes :
  0 < nr_bytes < 2 ^ 63 -> location < file_size ->
  Read w rt fs h nr_bytes = (fs, h, Returns (0, bytes)) ->
  forall fuel out,
    Read_loop fuel w rt fs h location file_size nr_bytes out = None.
Proof.
  intros Hn Hl Hread. induction fuel as [| fuel IH]; intros out.
  - cbn. destruct (Z.ltb_spec 0 nr_bytes); [| lia].
    destruct (Z.ltb_spec location file_size); [| lia]. reflexivity.
  - rewrite Read_loop_step by lia. rewrite Hread.
    rewrite Z.sub_0_r, i64_small by lia. apply IH.
Qed.

(** The sequential write on an HTTP file always throws. *)
Lemma Write_http_throws w rt fs h p buffer nr_bytes :
  file_ h = Some p -> data_protocol_ (deref fs p) = HTTP ->
  Write w rt fs h buffer nr_bytes =
    (fs, h, Throws "writing to HTTP files is not implemented").
Proof. intros Hh Hp. unfold Write. rewrite Hh, Hp. reflexivity. Qed.

(** The positional write on an HTTP file throws when it enters its loop,
    that is when [nr_bytes > 0] and [location] is below the file size. *)
Lemma Write_at_http_throws fuel w rt fs h p buffer nr_bytes location :
  file_ h = Some p -> data_protocol_ (deref fs p) = HTTP ->
  0 < nr_bytes -> location < file_size_ (deref fs p) ->
  Write_at (S fuel) w rt fs h buffer nr_bytes location =
    Some (fs, set_position location h,
          Throws "writing to HTTP files is not implemented").
Proof.
  intros Hh Hp Hn Hl. unfold Write_at. rewrite Hh. cbn [Write_loop].
  destruct (Z.ltb_spec 0 nr_bytes); [| lia].
  destruct (Z.ltb_spec location (file_size_ (deref fs p))); [| lia].
  cbn [andb]. rewrite (Write_http_throws _ _ _ _ p) by assumption.
  reflexivity.
Qed.

(** The positional write does nothing at all when [location] is not below
    the file size: it sets the position and returns, whatever the protocol. *)
Lemma Write_at_beyond_size fuel w rt fs h p buffer nr_bytes location :
  file_ h = Some p -> file_size_ (deref fs p) <= location ->
  Write_at fuel w rt fs h buffer nr_bytes location =
    Some (fs, set_position location h, Returns tt).
Proof.
  intros Hh Hl. unfold Write_at. rewrite Hh.
  destruct fuel; cbn [Write_loop];
    destruct (Z.ltb_spec location (file_size_ (deref fs p))); try lia;
    rewrite andb_false_r; reflexivity.
Qed.

(** C1, at a BUFFER file of 4 bytes: [Read(handle, buffer, 8, 0)] never
    returns, on the 32-bit and on the 64-bit target.  The first sequential
    read delivers the 4 bytes; every later one delivers 0 bytes, and the loop
    goes on, whatever fuel it is given.  And [Write(handle, "abc", 3, 4)],
    an append at the end of the file, returns at once: the position is set
    to 4, not advanced past it, and none of the 3 bytes is written. *)
Theorem Read_at_never_returns_Write_at_skips :
  forall (rt : Runtime) (fuel : nat),
    Read_at fuel 32 rt fs_buffer first_handle 8 0 = None /\
    Read_at fuel 64 rt fs_buffer first_handle 8 0 = None /\
    Write_at fuel 32 rt fs_buffer first_handle abc 3 4 =
      Some (fs_buffer, set_position 4 first_handle, Returns tt) /\
    Write_at fuel 64 rt fs_buffer first_handle abc 3 4 =
      Some (fs_buffer, set_position 4 first_handle, Returns tt).
Proof.
  intros rt fuel.
  assert (Hsize : file_size_ (deref fs_buffer 0%nat) = 4) by reflexivity.
  assert (Hread : forall w, w = 32 \/ w = 64 ->
            Read_at fuel w rt fs_buffer first_handle 8 0 = None).
  { intros w Hw. unfold Read_at.
    change (file_ first_handle) with (Some 0%nat). cbn match. rewrite Hsize.
    destruct fuel as [| fuel]; [reflexivity |].
    rewrite Read_loop_step by lia.
    assert (H1 : Read w rt fs_buffer (set_position 0 first_handle) 8 =
              (fs_buffer, mkWebFileHandle (Some 0%nat) 4,
               Returns (4, abc ++ [Byte.x64])))
      by (destruct Hw as [-> | ->]; vm_compute; reflexivity).
    rewrite H1. change (i64 (8 - 4)) with 4.
    apply (Read_loop_stuck _ _ _ _ _ _ _ []); try lia.
    destruct Hw as [-> | ->]; vm_compute; reflexivity. }
  split; [apply Hread; auto |]. split; [apply Hread; auto |].
  split; apply (Write_at_beyond_size _ _ _ _ _ 0%nat);
    try reflexivity; rewrite Hsize; lia.
Qed.

(** C8, at the HTTP file ["x"]: with the handle of its registration, when
    the file size is still 0, [Write(handle, "abc", 3, 0)] returns without
    an error and without writing; and with the handle of an [OpenFile],
    after which the size is the 10 bytes the host reports, so does
    [Write(handle, "abc", 3, 10)]. *)
Theorem Write_at_http_returns :
  forall (rt : Runtime) (fuel : nat),
    data_protocol_ (deref fs_http 0%nat) = HTTP /\
    Write_at fuel 32 rt fs_http first_handle abc 3 0 =
      Some (fs_http, first_handle, Returns tt) /\
    Write_at fuel 64 rt fs_http first_handle abc 3 0 =
      Some (fs_http, first_handle, Returns tt) /\
    snd (OpenFile 32 rt_plain true fs_http "x" 0) = Returns first_handle /\
    data_protocol_ (deref (fst (OpenFile 32 rt_plain true fs_http "x" 0)) 0%nat)
      = HTTP /\
    Write_at fuel 32 rt (fst (OpenFile 32 rt_plain true fs_http "x" 0))
             first_handle abc 3 10 =
      Some (fst (OpenFile 32 rt_plain true fs_http "x" 0),
            set_position 10 first_handle, Returns tt).
Proof.
  intros rt fuel. split; [reflexivity |].
  rewrite !(Write_at_beyond_size _ _ _ _ _ 0%nat)
    by (try reflexivity; vm_compute; discriminate).
  repeat split; reflexivity.
Qed.

Lemma Write_loop_step fuel w rt fs h location file_size writer nr_bytes :
  0 < nr_bytes -> location < file_size ->
  Write_loop (S fuel) w rt fs h location file_size writer nr_bytes =
    match Write w rt fs h writer nr_bytes with
    | (fs, h, Returns n) =>
        Write_loop fuel w rt fs h location file_size
                   (drop (Z.to_nat n) writer) (i64 (nr_bytes - n))
    | (fs, h, Throws what) => Some (fs, h, Throws what)
    | (fs, h, Undefined) => Some (fs, h, Undefined)
    end.
Proof.
  intros H1 H2. cbn [Write_loop].
  destruct (Z.ltb_spec 0 nr_bytes); [| lia].
  destruct (Z.ltb_spec location file_size); [| lia].
  reflexivity.
Qed.

(** The sequential write on a BUFFER file takes all the bytes at once. *)
Lemma Write_buffer_returns w rt fs h p f b buffer nr_bytes :
  file_ h = Some p -> store fs !! p = Some f ->
  data_protocol_ f = BUFFER -> data_buffer_ f = Some b ->
  exists fs',
    Write w rt fs h buffer nr_bytes =
      (fs', set_position (u64 (position_ h + nr_bytes)) h,
       Returns (i64 (usize w nr_bytes))).
Proof.
  intros Hh Hf Hp Hb. unfold Write. rewrite Hh.
  rewrite (deref_Some fs p f Hf), Hp, Hb.
  destruct (size_ b <? u64 (position_ h + nr_bytes)).
  - unfold Truncate. rewrite Hh, (deref_Some fs p f Hf), Hp, Hb.
    cbn zeta. unfold InvalidateReadAheads. rewrite !deref_log.
    erewrite deref_Some
      by (apply store_update_file_Some, store_update_file_Some, Hf).
    cbn. eexists. reflexivity.
  - rewrite (deref_Some fs p f Hf), Hb. eexists. reflexivity.
Qed.

(** On a BUFFER file the positional write of [nr_bytes] bytes at a
    [location] below the file size does end, after one sequential write,
    with the position advanced by [nr_bytes]. *)
Lemma Write_at_buffer_returns fuel w rt fs h p f b buffer nr_bytes location :
  file_ h = Some p -> store fs !! p = Some f ->
  data_protocol_ f = BUFFER -> data_buffer_ f = Some b ->
  0 < nr_bytes < 2 ^ 63 -> nr_bytes < 2 ^ w -> location < file_size_ f ->
  exists fs',
    Write_at (S fuel) w rt fs h buffer nr_bytes location =
      Some (fs', set_position (u64 (location + nr_bytes)) h, Returns tt).
Proof.
  intros Hh Hf Hp Hb Hn Hw Hl. unfold Write_at. rewrite Hh.
  rewrite (deref_Some fs p f Hf).
  rewrite Write_loop_step by lia.
  destruct (Write_buffer_returns w rt fs (set_position location h) p f b
              buffer nr_bytes) as [fs' ->]; try assumption.
  rewrite usize_small, i64_small by lia.
  exists fs'. rewrite Z.sub_diag.
  destruct fuel; reflexivity.
Qed.

(* ===================================================================== *)
(** * Arrow IPC insert *)
(* ===================================================================== *)

(** The first part leaves the [try] block only with an empty insert state. *)
Lemma InsertArrowFromIPCStream_begin_state eng c options_json c' exit :
  InsertArrowFromIPCStream_begin eng c options_json = (c', exit) ->
  exit <> FallsThrough ->
  arrow_ipc_stream_ c' = None /\ arrow_insert_options_ c' = None.
Proof.
  unfold InsertArrowFromIPCStream_begin.
  destruct (arrow_ipc_stream_ c) eqn:E; [intros [= <- <-]; congruence |].
  destruct (options_ReadFrom eng options_json) as [[options | s] | what];
    intros [= <- <-] Hne; try congruence; cbn; auto.
Qed.

(** Options that cannot be read on the first call leave the insert state
    empty: nothing has been created yet and the stored options have been
    reset. *)
Lemma InsertArrowFromIPCStream_bad_options eng c stream options_json s :
  arrow_ipc_stream_ c = None ->
  options_ReadFrom eng options_json = Normal (Error s) ->
  snd (InsertArrowFromIPCStream eng c stream options_json) = Returns s /\
  arrow_ipc_stream_ (fst (InsertArrowFromIPCStream eng c stream options_json)) = None /\
  arrow_insert_options_ (fst (InsertArrowFromIPCStream eng c stream options_json)) = None.
Proof.
  intros Hc Ho.
  unfold InsertArrowFromIPCStream, InsertArrowFromIPCStream_try,
    InsertArrowFromIPCStream_begin.
  rewrite Hc, Ho. cbn. rewrite Hc. auto.
Qed.

(** An exception anywhere in the [try] block (the engine fails, the decoder
    or the options reader throws) ends in the [catch] block, which clears
    the insert state. *)
Lemma InsertArrowFromIPCStream_exception eng c stream options_json c1 what :
  InsertArrowFromIPCStream_try eng c stream options_json = (c1, Caught what) ->
  snd (InsertArrowFromIPCStream eng c stream options_json)
    = Returns (mkStatus UnknownError what) /\
  arrow_ipc_stream_ (fst (InsertArrowFromIPCStream eng c stream options_json)) = None /\
  arrow_insert_options_ (fst (InsertArrowFromIPCStream eng c stream options_json)) = None.
Proof.
  intros H. unfold InsertArrowFromIPCStream. rewrite H. cbn. auto.
Qed.

(** A status that is not ok from [Consume] is returned as it is, and the
    decoder stays in the connection. *)
Lemma InsertArrowFromIPCStream_Consume_status eng c stream options_json buffered s :
  arrow_ipc_stream_ c = Some buffered ->
  ipc_consume eng buffered stream = Normal s -> ok s = false ->
  InsertArrowFromIPCStream eng c stream options_json = (c, Returns s).
Proof.
  intros Hc Hs Hok.
  unfold InsertArrowFromIPCStream, InsertArrowFromIPCStream_try,
    InsertArrowFromIPCStream_begin, InsertArrowFromIPCStream_consume.
  rewrite Hc. cbn. rewrite Hc, Hs, Hok. reflexivity.
Qed.

(** C5, at a first call whose options are fine and whose bytes the decoder
    rejects with a status: the call returns that status, but the decoder and
    the options stay in the connection. *)
Theorem InsertArrowFromIPCStream_keeps_state_on_Consume_error :
  snd (InsertArrowFromIPCStream eng_bad_stream Connection_new abc "{}")
    = Returns (Status_Invalid "Expected IPC message") /\
  arrow_ipc_stream_
    (fst (InsertArrowFromIPCStream eng_bad_stream Connection_new abc "{}"))
    = Some [] /\
  arrow_insert_options_
    (fst (InsertArrowFromIPCStream eng_bad_stream Connection_new abc "{}"))
    = Some (mkArrowInsertOptions "main" "t" true).
Proof. repeat split; reflexivity. Qed.

(* ===================================================================== *)
(** * Prepared statements *)
(* ===================================================================== *)

Section PreparedStatementIds.
Variable w : Z.
Hypothesis w_pos : 0 < w.
Variable eng : Engine.

Lemma SIZE_MAX_pos : 0 < SIZE_MAX w.
Proof.
  unfold SIZE_MAX. assert (2 ^ 1 <= 2 ^ w) by (apply Z.pow_le_mono_r; lia).
  change (2 ^ 1) with 2 in *. lia.
Qed.

(** A failed [Prepare] leaves the connection as it is. *)
Lemma CreatePreparedStatement_error c text c' s :
  CreatePreparedStatement w eng c text = (c', Error s) -> c' = c.
Proof.
  unfold CreatePreparedStatement.
  destruct (Prepare eng text) as [prep | what]; [| congruence].
  destruct (success prep); cbn; congruence.
Qed.

(** A successful call hands out the counter and moves it on by one,
    modulo [SIZE_MAX]; [emplace] keeps a statement already filed under
    the id. *)
Lemma CreatePreparedStatement_value c text c' id :
  0 <= next_prepared_statement_id_ c < SIZE_MAX w ->
  CreatePreparedStatement w eng c text = (c', Value id) ->
  id = next_prepared_statement_id_ c /\
  next_prepared_statement_id_ c' = (id + 1) mod SIZE_MAX w /\
  exists prep,
    Prepare eng text = Normal prep /\
    prepared_statements_ c' = map_insert_new id prep (prepared_statements_ c).
Proof.
  intros Hn. unfold CreatePreparedStatement.
  destruct (Prepare eng text) as [prep | what]; [| discriminate].
  destruct (success prep); cbn [negb]; [| discriminate].
  assert (Hu : usize w (next_prepared_statement_id_ c + 1)
               = next_prepared_statement_id_ c + 1).
  { apply usize_small. unfold SIZE_MAX in Hn. lia. }
  cbn. rewrite Hu.
  destruct (Z.eqb_spec (next_prepared_statement_id_ c + 1) (SIZE_MAX w)) as [E | E];
    intros [= <- <-]; cbn; (split; [reflexivity |]); (split; [| eauto]).
  - rewrite E, Z.mod_same by lia. reflexivity.
  - rewrite Z.mod_small by lia. reflexivity.
Qed.

(** The counter never holds the sentinel [SIZE_MAX]. *)
Lemma history_counter n c :
  history w eng n c -> 0 <= next_prepared_statement_id_ c < SIZE_MAX w.
Proof.
  pose proof SIZE_MAX_pos as Hpos.
  induction 1 as [| n c text H IH | n c statement_id H IH].
  - cbn. lia.
  - destruct (CreatePreparedStatement w eng c text) as [c' [id | s]] eqn:E; cbn.
    + destruct (CreatePreparedStatement_value _ _ _ _ IH E) as (_ & -> & _).
      apply Z.mod_pos_bound. lia.
    + rewrite (CreatePreparedStatement_error _ _ _ _ E). exact IH.
  - unfold ClosePreparedStatement. case_match; exact IH.
Qed.

(** Until [SIZE_MAX] statements have been created, the counter has not
    wrapped: it is above every live id. *)
Lemma history_before_wrap n c :
  history w eng n c -> n < SIZE_MAX w ->
  0 <= next_prepared_statement_id_ c <= n /\
  forall id s, prepared_statements_ c !! id = Some s ->
               0 <= id < next_prepared_statement_id_ c.
Proof.
  induction 1 as [| n c text H IH | n c statement_id H IH]; intros Hn.
  - cbn. split; [lia |]. intros id s Hs. rewrite lookup_empty in Hs.
    discriminate.
  - destruct IH as [Hnext Hlive]; [lia |].
    destruct (CreatePreparedStatement w eng c text) as [c' [id | s]] eqn:E; cbn.
    + destruct (CreatePreparedStatement_value _ _ _ _
                  (history_counter _ _ H) E) as (-> & Hn' & prep & _ & Hs).
      rewrite Hn', Hs, Z.mod_small by lia. split; [lia |].
      intros id s. unfold map_insert_new.
      destruct (prepared_statements_ c !! next_prepared_statement_id_ c).
      * intros Hl. pose proof (Hlive _ _ Hl). lia.
      * destruct (decide (next_prepared_statement_id_ c = id)) as [<- | Hne];
          [lia |].
        rewrite lookup_insert_ne by exact Hne.
        intros Hl. pose proof (Hlive _ _ Hl). lia.
    + rewrite (CreatePreparedStatement_error _ _ _ _ E).
      split; [lia | exact Hlive].
  - destruct IH as [Hnext Hlive]; [lia |].
    unfold ClosePreparedStatement. case_match; cbn; [| auto].
    split; [lia |]. intros id s Hl.
    apply lookup_delete_Some in Hl as [_ Hl]. eauto.
Qed.
End PreparedStatementIds.

(** C4, as amended.  On a target whose [size_t] has [w] bits, on a
    connection reached by creating and closing statements, [n] calls of
    which were [CreatePreparedStatement]: a call that succeeds returns the
    counter, which is never the sentinel [2^w - 1], and moves the counter to
    [(id + 1) mod (2^w - 1)]; and as long as [n < 2^w - 1] the id it returns
    is not the id of a live statement, and the new statement is filed under
    it. *)
Theorem CreatePreparedStatement_ids w eng n c text c' id :
  0 < w ->
  history w eng n c ->
  CreatePreparedStatement w eng c text = (c', Value id) ->
  id = next_prepared_statement_id_ c /\
  0 <= id < SIZE_MAX w /\
  next_prepared_statement_id_ c' = (id + 1) mod SIZE_MAX w /\
  (n < SIZE_MAX w ->
     prepared_statements_ c !! id = None /\
     exists prep, Prepare eng text = Normal prep /\
                  prepared_statements_ c' !! id = Some prep).
Proof.
  intros Hw Hh Hc.
  pose proof (history_counter w Hw eng n c Hh) as Hn.
  destruct (CreatePreparedStatement_value w eng c text c' id Hn Hc)
    as (-> & Hnext & prep & Hp & Hs).
  split; [reflexivity |]. split; [exact Hn |]. split; [exact Hnext |].
  intros Hlt.
  destruct (history_before_wrap w Hw eng n c Hh Hlt) as [_ Hlive].
  assert (Hfree : prepared_statements_ c !! next_prepared_statement_id_ c = None).
  { destruct (prepared_statements_ c !! next_prepared_statement_id_ c) eqn:E;
      [| reflexivity].
    pose proof (Hlive _ _ E). lia. }
  split; [exact Hfree |]. exists prep. split; [exact Hp |].
  rewrite Hs, map_insert_new_fresh by exact Hfree. apply lookup_insert_eq.
Qed.

(** The second statement of a new connection gets id 1, which is free. *)
Lemma CreatePreparedStatement_ids_witness :
  1 = next_prepared_statement_id_
        (fst (CreatePreparedStatement 64 eng_plain Connection_new "SELECT 1")) /\
  prepared_statements_
        (fst (CreatePreparedStatement 64 eng_plain Connection_new "SELECT 1")) !! 1
    = None.
Proof.
  destruct (CreatePreparedStatement_ids 64 eng_plain 1
              (fst (CreatePreparedStatement 64 eng_plain Connection_new "SELECT 1"))
              "SELECT 2"
              (fst (CreatePreparedStatement 64 eng_plain
                      (fst (CreatePreparedStatement 64 eng_plain Connection_new
                              "SELECT 1")) "SELECT 2"))
              1) as (Hid & _ & _ & Hfree).
  - lia.
  - apply (history_create 64 eng_plain 0 Connection_new "SELECT 1").
    apply history_new.
  - reflexivity.
  - split; [exact Hid |]. apply Hfree. reflexivity.
Defined.

(** Creating a statement and closing it again leaves only statement 0 live
    and moves the counter on; at the last id before the sentinel the counter
    wraps to 0. *)
Lemma holding_first_step w next :
  1 <= next < SIZE_MAX w ->
  fst (ClosePreparedStatement
         (fst (CreatePreparedStatement w eng_plain (holding_first next) "SELECT 1"))
         next)
    = holding_first ((next + 1) mod SIZE_MAX w).
Proof.
  intros H. unfold CreatePreparedStatement, holding_first. cbn.
  assert (Hu : usize w (next + 1) = next + 1).
  { apply usize_small. unfold SIZE_MAX in H. lia. }
  rewrite Hu.
  assert (Hfree : ({[0 := select_1]} : gmap Z PreparedStatement) !! next = None)
    by (apply lookup_singleton_ne; lia).
  assert (Hnext : (if next + 1 =? SIZE_MAX w then 0 else next + 1)
                  = (next + 1) mod SIZE_MAX w).
  { destruct (Z.eqb_spec (next + 1) (SIZE_MAX w)) as [E | E].
    - rewrite E, Z.mod_same by lia. reflexivity.
    - rewrite Z.mod_small by lia. reflexivity. }
  destruct (next + 1 =? SIZE_MAX w); rewrite <- Hnext;
    unfold ClosePreparedStatement; cbn;
    rewrite map_insert_new_fresh by exact Hfree;
    rewrite lookup_insert_eq;
    unfold set_prepared_statements, set_next_prepared_statement_id; cbn;
    f_equal; apply delete_insert_id; exact Hfree.
Qed.

Lemma history_holding_first w next :
  0 <= next -> 1 + next < SIZE_MAX w ->
  history w eng_plain (1 + next) (holding_first (1 + next)).
Proof.
  revert next. apply (natlike_ind (fun next =>
    1 + next < SIZE_MAX w ->
    history w eng_plain (1 + next) (holding_first (1 + next)))).
  - intros Hlt.
    assert (Hone : fst (CreatePreparedStatement w eng_plain Connection_new "SELECT 1")
                   = holding_first 1).
    { unfold CreatePreparedStatement, holding_first. cbn.
      assert (Hu : usize w (0 + 1) = 1)
        by (apply usize_small; unfold SIZE_MAX in Hlt; lia).
      rewrite Hu. destruct (Z.eqb_spec 1 (SIZE_MAX w)); [lia | reflexivity]. }
    change (holding_first (1 + 0)) with (holding_first 1). rewrite <- Hone.
    apply (history_create w eng_plain 0 Connection_new "SELECT 1"), history_new.
  - intros next Hnext IH Hlt.
    replace (1 + Z.succ next) with ((1 + next) + 1) by lia.
    replace (holding_first (1 + next + 1))
      with (holding_first ((1 + next + 1) mod SIZE_MAX w))
      by (rewrite Z.mod_small by lia; reflexivity).
    rewrite <- holding_first_step by lia.
    apply history_close, history_create, IH. lia.
Qed.

(** After [SIZE_MAX] creations with statement 0 kept open, the counter is
    back at 0. *)
Lemma history_wrapped w :
  1 < w -> history w eng_plain (SIZE_MAX w) (holding_first 0).
Proof.
  intros Hw.
  assert (Hmax : 3 <= SIZE_MAX w).
  { unfold SIZE_MAX. assert (2 ^ 2 <= 2 ^ w) by (apply Z.pow_le_mono_r; lia).
    change (2 ^ 2) with 4 in *. lia. }
  replace (holding_first 0)
    with (holding_first ((SIZE_MAX w - 1 + 1) mod SIZE_MAX w))
    by (rewrite Z.sub_add, Z.mod_same by lia; reflexivity).
  rewrite <- holding_first_step by lia.
  replace (SIZE_MAX w) with ((SIZE_MAX w - 1) + 1) at 1 by lia.
  apply history_close, history_create.
  replace (SIZE_MAX w - 1) with (1 + (SIZE_MAX w - 2)) by lia.
  apply history_holding_first; lia.
Qed.

(** C4, as stated, fails once the counter has wrapped.  Statement 0 of a
    connection is kept open while [2^64 - 2] further statements are created
    and closed ([2^32 - 2] on the 32-bit target); the counter is then at 0
    again, and the next [CreatePreparedStatement] returns id 0, the id of
    the statement that is still live.  The table keeps the old statement:
    the new one is lost. *)
Lemma CreatePreparedStatement_collides_after_wrap :
  history 64 eng_plain (2 ^ 64 - 1) (holding_first 0) /\
  history 32 eng_plain (2 ^ 32 - 1) (holding_first 0) /\
  prepared_statements_ (holding_first 0) !! 0 = Some select_1 /\
  snd (CreatePreparedStatement 64 eng_plain (holding_first 0) "SELECT 2")
    = Value 0 /\
  snd (CreatePreparedStatement 32 eng_plain (holding_first 0) "SELECT 2")
    = Value 0 /\
  prepared_statements_
    (fst (CreatePreparedStatement 64 eng_plain (holding_first 0) "SELECT 2")) !! 0
    = Some select_1.
Proof.
  split; [apply (history_wrapped 64); lia |].
  split; [apply (history_wrapped 32); lia |].
  repeat split; reflexivity.
Qed.

(* ===================================================================== *)
(** * The registry invariant is kept *)
(* ===================================================================== *)

Lemma updates_refl fs : updates fs fs.
Proof. split; [apply same_identity_refl | auto]. Qed.

Lemma updates_log fs0 fs e : updates fs0 fs -> updates fs0 (log e fs).
Proof. intros H. exact H. Qed.

Lemma updates_update_file fs0 fs p g :
  keeps_identity g -> updates fs0 fs -> updates fs0 (update_file p g fs).
Proof.
  intros Hg (Hs & Hi & Hn & Hx).
  split; [apply same_identity_update_file; assumption | auto].
Qed.

Lemma updates_trans fs1 fs2 fs3 :
  updates fs1 fs2 -> updates fs2 fs3 -> updates fs1 fs3.
Proof.
  intros (Hs & Hi & Hn & Hx) (Hs' & Hi' & Hn' & Hx').
  split; [eapply same_identity_trans; eassumption |].
  repeat split; congruence.
Qed.

#[local] Hint Resolve updates_refl updates_log updates_update_file : identity.

Lemma registry_ok_updates fs fs' :
  registry_ok fs -> updates fs fs' -> registry_ok fs'.
Proof.
  intros Hok (Hs & Hi & Hn & Hx).
  apply (registry_ok_same_maps fs); auto. lia.
Qed.

Lemma SetFileDescriptor_updates fs file_id file_descriptor :
  updates fs (fst (SetFileDescriptor fs file_id file_descriptor)).
Proof.
  unfold SetFileDescriptor. repeat case_match; cbn [fst]; auto 8 with identity.
Qed.

Lemma Truncate_updates w rt fs h new_size :
  updates fs (fst (Truncate w rt fs h new_size)).
Proof.
  unfold Truncate, InvalidateReadAheads.
  repeat case_match; cbn [fst]; auto 10 with identity.
Qed.

Lemma Read_updates w rt fs h nr_bytes :
  updates fs (fst (fst (Read w rt fs h nr_bytes))).
Proof.
  unfold Read. repeat case_match; cbn [fst]; auto with identity.
Qed.

Lemma Write_updates w rt fs h buffer nr_bytes :
  updates fs (fst (fst (Write w rt fs h buffer nr_bytes))).
Proof.
  unfold Write, InvalidateReadAheads.
  destruct (file_ h) as [p |]; [| apply updates_refl].
  destruct (data_protocol_ (deref fs p)).
  - destruct (data_buffer_ (deref fs p)) as [b0 |]; [| apply updates_refl].
    destruct (size_ b0 <? u64 (position_ h + nr_bytes)).
    + pose proof (Truncate_updates w rt fs h
        (i64 (Z.max (usize w (u64 (position_ h + nr_bytes)))
                    (usize w (file_size_ (deref fs p)))))) as Hg.
      destruct (Truncate w rt fs h _) as [fs1 r]. cbn [fst] in Hg.
      destruct r; [destruct (data_buffer_ (deref fs1 p)) | |];
        cbn [fst]; auto 8 with identity.
    + destruct (data_buffer_ (deref fs p)); cbn [fst]; auto 8 with identity.
  - case_match; cbn [fst]; auto 8 with identity.
  - apply updates_refl.
Qed.

Lemma OpenFile_host_updates w rt have_file_lock fs0 fs p handle flags :
  updates fs0 fs ->
  ended (snd (OpenFile_host w rt have_file_lock fs p handle flags)) = Returns tt ->
  updates fs0 (fst (OpenFile_host w rt have_file_lock fs p handle flags)).
Proof.
  intros Hg. unfold OpenFile_host.
  destruct (rt_file_open rt _) as [[opened |] | what].
  - set (fs1 := match opened_file_buffer opened with Some _ => _ | None => _ end).
    assert (Hg1 : updates fs0 fs1).
    { subst fs1. destruct (opened_file_buffer opened); auto 8 with identity. }
    clearbody fs1.
    destruct (create_new_set flags); [| intros _; exact Hg1].
    pose proof (Truncate_updates w rt fs1 handle 0) as Ht.
    destruct (Truncate w rt fs1 handle 0) as [fs2 [[] | what |]]; cbn [fst] in Ht.
    + intros _. cbn [fst]. eapply updates_trans; eassumption.
    + intros H. exfalso. exact (OpenFile_abort_not_returned _ _ _ _ _ H).
    + discriminate.
  - intros H. exfalso. exact (OpenFile_abort_not_returned _ _ _ _ _ H).
  - intros H. exfalso. exact (OpenFile_abort_not_returned _ _ _ _ _ H).
Qed.

(** A new file, filed under the next id and under a name that was free. *)
Lemma registry_ok_add fs fs' p name :
  registry_ok fs ->
  store fs !! p = None ->
  files_by_name_ fs !! name = None ->
  is_Some (store fs' !! p) ->
  file_id_ (deref fs' p) = next_file_id_ fs ->
  file_name_ (deref fs' p) = name ->
  (forall q, is_Some (store fs !! q) ->
     is_Some (store fs' !! q) /\
     file_id_ (deref fs' q) = file_id_ (deref fs q) /\
     file_name_ (deref fs' q) = file_name_ (deref fs q)) ->
  files_by_id_ fs' = <[next_file_id_ fs := p]> (files_by_id_ fs) ->
  files_by_name_ fs' = <[name := p]> (files_by_name_ fs) ->
  next_file_id_ fs' = next_file_id_ fs + 1 ->
  registry_ok fs'.
Proof.
  intros [Hon Hoi Hob] Hp Hname Hp' Hid Hnm Hstore Hbi Hbn Hnext. split.
  - intros n q H. rewrite Hbn in H.
    destruct (decide (name = n)) as [<- | Hne].
    + rewrite lookup_insert_eq in H. injection H as <-.
      rewrite Hid, Hbi, lookup_insert_eq. auto.
    + rewrite lookup_insert_ne in H by exact Hne.
      destruct (Hon _ _ H) as (Hq & Hqn & Hqi).
      destruct (Hstore q Hq) as (Hq' & Ei & En). rewrite Ei, En, Hbi.
      rewrite lookup_insert_ne; [auto |].
      pose proof (Hob _ _ Hqi). lia.
  - intros id q H. rewrite Hbi in H.
    destruct (decide (next_file_id_ fs = id)) as [<- | Hne].
    + rewrite lookup_insert_eq in H. injection H as <-.
      rewrite Hnm, Hbn, lookup_insert_eq. auto.
    + rewrite lookup_insert_ne in H by exact Hne.
      destruct (Hoi _ _ H) as (Hq & Hqi & Hqn).
      destruct (Hstore q Hq) as (Hq' & Ei & En). rewrite Ei, En, Hbn.
      rewrite lookup_insert_ne; [auto |]. congruence.
  - intros id q H. rewrite Hbi in H. rewrite Hnext.
    destruct (decide (next_file_id_ fs = id)) as [<- | Hne]; [lia |].
    rewrite lookup_insert_ne in H by exact Hne.
    pose proof (Hob _ _ H). lia.
Qed.

(** A registered file is taken out of both maps. *)
Lemma registry_ok_remove fs fs' p :
  registry_ok fs -> registered fs p ->
  store fs' = store fs ->
  files_by_id_ fs' = delete (file_id_ (deref fs p)) (files_by_id_ fs) ->
  files_by_name_ fs' = delete (file_name_ (deref fs p)) (files_by_name_ fs) ->
  next_file_id_ fs' = next_file_id_ fs ->
  registry_ok fs'.
Proof.
  intros [Hon Hoi Hob] [Rid Rname] Hs Hbi Hbn Hnext.
  assert (Hd : forall q, deref fs' q = deref fs q)
    by (intros q; unfold deref; rewrite Hs; reflexivity).
  split.
  - intros n q H. rewrite Hbn in H. apply lookup_delete_Some in H as [Hne H].
    destruct (Hon _ _ H) as (Hq & Hqn & Hqi). rewrite Hd, Hs, Hbi.
    split; [exact Hq |]. split; [exact Hqn |].
    rewrite lookup_delete_ne; [exact Hqi |].
    intros E. rewrite E, Hqi in Rid. injection Rid as ->. congruence.
  - intros id q H. rewrite Hbi in H. apply lookup_delete_Some in H as [Hne H].
    destruct (Hoi _ _ H) as (Hq & Hqi & Hqn). rewrite Hd, Hs, Hbn.
    split; [exact Hq |]. split; [exact Hqi |].
    rewrite lookup_delete_ne; [exact Hqn |].
    intros E. rewrite E, Hqn in Rname. injection Rname as ->. congruence.
  - intros id q H. rewrite Hbi in H. apply lookup_delete_Some in H as [_ H].
    rewrite Hnext. eapply Hob, H.
Qed.

(** A file made by [make_shared], assigned to by [g], and filed by
    [insert] under the next id and under its name, which was free. *)
Lemma registry_ok_new_file fs fs' file g :
  registry_ok fs ->
  files_by_name_ fs !! file_name_ file = None ->
  file_id_ file = next_file_id_ fs ->
  keeps_identity g ->
  store fs' =
    alter g (fresh (dom (store fs))) (<[fresh (dom (store fs)) := file]> (store fs)) ->
  files_by_id_ fs' =
    map_insert_new (next_file_id_ fs) (fresh (dom (store fs))) (files_by_id_ fs) ->
  files_by_name_ fs' =
    map_insert_new (file_name_ file) (fresh (dom (store fs))) (files_by_name_ fs) ->
  next_file_id_ fs' = next_file_id_ fs + 1 ->
  registry_ok fs'.
Proof.
  intros Hok Hname Hid Hg Hs Hbi Hbn Hnext.
  pose proof (is_fresh (dom (store fs))) as Hfresh.
  apply not_elem_of_dom in Hfresh.
  set (p := fresh (dom (store fs))) in *.
  assert (Hi : files_by_id_ fs !! next_file_id_ fs = None).
  { destruct (files_by_id_ fs !! next_file_id_ fs) as [q |] eqn:E; [| reflexivity].
    pose proof (ids_below_next fs Hok _ _ E). lia. }
  rewrite map_insert_new_fresh in Hbi by exact Hi.
  rewrite map_insert_new_fresh in Hbn by exact Hname.
  assert (Hdp : deref fs' p = g file).
  { unfold deref. rewrite Hs, lookup_total_alt, lookup_alter,
      decide_True, lookup_insert_eq by reflexivity. reflexivity. }
  apply (registry_ok_add fs fs' p (file_name_ file)); try assumption.
  - rewrite Hs, lookup_alter, decide_True, lookup_insert_eq by reflexivity.
    cbn. eauto.
  - rewrite Hdp. destruct (Hg file) as [-> _]. exact Hid.
  - rewrite Hdp. destruct (Hg file) as [_ ->]. reflexivity.
  - intros q Hq. assert (p <> q) as Hne.
    { intros <-. rewrite Hfresh in Hq. destruct Hq; discriminate. }
    unfold deref. rewrite Hs, !lookup_total_alt, lookup_alter,
      decide_False, lookup_insert_ne by exact Hne. auto.
Qed.

Lemma RegisterFileBuffer_registry_ok fs file_name file_buffer :
  registry_ok fs ->
  registry_ok (fst (RegisterFileBuffer fs file_name file_buffer)).
Proof.
  intros Hok. unfold RegisterFileBuffer, WebFileHandle_new, AllocateFileID.
  change (files_by_name_ (log FsLock fs)) with (files_by_name_ fs).
  destruct (files_by_name_ fs !! file_name) as [p |] eqn:Hn.
  - apply (registry_ok_updates fs); [exact Hok |].
    destruct (data_protocol_ (deref (log FsLock fs) p)); cbn [fst];
      auto 14 with identity.
  - cbn -[fresh].
    apply (registry_ok_new_file fs _
             (set_data_buffer (Some file_buffer)
                (set_file_size (size_ file_buffer)
                   (WebFile_new (next_file_id_ fs) file_name BUFFER)))
             (fun f => set_handle_count (handle_count_ f + 1) f));
      auto with identity; reflexivity.
Qed.

Lemma TryDropFile_registry_ok fs file_name :
  registry_ok fs -> registry_ok (fst (TryDropFile fs file_name)).
Proof.
  intros Hok. unfold TryDropFile.
  change (files_by_name_ (log FsLock fs)) with (files_by_name_ fs).
  destruct (files_by_name_ fs !! file_name) as [p |] eqn:Hn;
    [| apply (registry_ok_updates fs); cbn [fst]; auto with identity].
  destruct (handle_count_ (deref (log FsLock fs) p) =? 0);
    [| apply (registry_ok_updates fs); cbn [fst]; auto with identity].
  cbn [fst]. destruct (by_name_ok fs Hok _ _ Hn) as (_ & Hname & Hid).
  apply (registry_ok_remove fs _ p); try reflexivity; [exact Hok |].
  split; [exact Hid | rewrite Hname; exact Hn].
Qed.

Lemma DropDanglingFiles_registry_ok fs :
  registry_ok fs -> registry_ok (DropDanglingFiles fs).
Proof.
  intros [Hon Hoi Hob].
  destruct (DropDanglingFiles_spec fs) as (Hs & Hnext & Hn & Hi).
  assert (Hd : forall q, deref (DropDanglingFiles fs) q = deref fs q)
    by (intros q; unfold deref; rewrite Hs; reflexivity).
  split.
  - intros n q H. apply Hn in H as [H Hall].
    destruct (Hon _ _ H) as (Hq & Hqn & Hqi). rewrite Hd, Hs.
    split; [exact Hq |]. split; [exact Hqn |].
    apply Hi. split; [exact Hqi |]. intros Hz.
    exact (Hall _ _ Hqi Hz Hqn).
  - intros id q H. apply Hi in H as [H Hz].
    destruct (Hoi _ _ H) as (Hq & Hqi & Hqn). rewrite Hd, Hs.
    split; [exact Hq |]. split; [exact Hqi |].
    apply Hn. split; [exact Hqn |]. intros id' q' Hq' Hz' E.
    destruct (Hoi _ _ Hq') as (_ & _ & Hq'n).
    rewrite E, Hqn in Hq'n. injection Hq'n as ->. contradiction.
  - intros id q H. apply Hi in H as [H _]. rewrite Hnext. eapply Hob, H.
Qed.

Lemma Close_registry_ok have_file_lock fs h :
  registry_ok fs ->
  (forall p, file_ h = Some p -> registered fs p) ->
  registry_ok (fst (Close have_file_lock fs h)).
Proof.
  intros Hok Hh. unfold Close.
  destruct (file_ h) as [p |]; [| exact Hok].
  specialize (Hh p eq_refl).
  set (fs1 := update_file p _ (log FsLock fs)).
  assert (Hu : updates fs fs1) by (subst fs1; auto 8 with identity).
  pose proof (registry_ok_updates fs fs1 Hok Hu) as Hok1.
  assert (Hp : is_Some (store fs !! p))
    by (destruct Hh as [Rid _]; apply (by_id_ok fs Hok _ _ Rid)).
  assert (Rp1 : registered fs1 p).
  { destruct Hu as (Hs & Hi & Hn & _). destruct (Hs p Hp) as (_ & Ei & En).
    destruct Hh as [Rid Rname]. split; [rewrite Ei, Hi | rewrite En, Hn];
      assumption. }
  clearbody fs1. clear Hu Hp Hh Hok fs.
  destruct (0 <? handle_count_ (deref fs1 p));
    [apply (registry_ok_updates fs1); cbn [fst]; auto with identity |].
  destruct have_file_lock; cbn [negb];
    [| apply (registry_ok_updates fs1); cbn [fst]; auto with identity].
  destruct (decide (data_protocol_ (deref fs1 p) = BUFFER));
    [apply (registry_ok_updates fs1); cbn [fst]; auto with identity |].
  pose proof Rp1 as [Rid Rname].
  unfold deref in *. cbn. rewrite Rid. cbn [fst].
  apply (registry_ok_remove fs1 _ p); try reflexivity; assumption.
Qed.

Lemma OpenFile_registry_ok w rt have_file_lock fs url flags :
  registry_ok fs ->
  ended (snd (OpenFile w rt have_file_lock fs url flags)) = Returns tt ->
  registry_ok (fst (OpenFile w rt have_file_lock fs url flags)).
Proof.
  intros Hok. unfold OpenFile, WebFileHandle_new, AllocateFileID.
  change (files_by_name_ (log FsLock fs)) with (files_by_name_ fs).
  set (found := match files_by_name_ fs !! url with
                | Some p => _ | None => _ end).
  assert (Hok1 : registry_ok
            (update_file found.2
               (fun f => set_handle_count (handle_count_ f + 1) f) found.1)).
  { subst found. destruct (files_by_name_ fs !! url) as [p |] eqn:Hn.
    - apply (registry_ok_updates fs); cbn [fst snd]; auto 8 with identity.
    - cbn -[fresh].
      apply (registry_ok_new_file fs _
               (WebFile_new (next_file_id_ fs) url (inferDataProtocol url))
               ((fun f => set_handle_count (handle_count_ f + 1) f)
                  ∘ set_data_url (Some url)));
        auto with identity; try reflexivity.
      + intros f. split; reflexivity.
      + cbn -[fresh]. rewrite alter_alter_eq. reflexivity. }
  destruct found as [fs1 p]. cbn [fst snd] in Hok1.
  set (fs2 := log FsUnlock _).
  assert (Hok2 : registry_ok fs2).
  { apply (registry_ok_updates _ _ Hok1). subst fs2. auto with identity. }
  clearbody fs2.
  destruct (data_protocol_ (deref fs2 p)).
  - destruct (create_new_set flags); [| intros _; exact Hok2].
    destruct (data_buffer_ (deref fs2 p)); [| discriminate].
    intros _. cbn [fst].
    apply (registry_ok_updates fs2); auto 8 with identity.
  - destruct (data_fd_ (deref fs2 p)); [intros _; exact Hok2 |].
    intros H. apply (registry_ok_updates fs2); [exact Hok2 |].
    apply OpenFile_host_updates; [apply updates_refl | exact H].
  - intros H. apply (registry_ok_updates fs2); [exact Hok2 |].
    apply OpenFile_host_updates; [apply updates_refl | exact H].
Qed.

(** X7.  Invariant I1: the two maps of the registry agree (a name leads
    to a file that carries this name and is filed under its id, and the
    other way round, and every id in use is below the counter).  Every
    operation that returns keeps it, where a handle that is closed refers
    to a registered file; it holds in the new filesystem by
    [registry_ok_new]. *)
Theorem perform_registry_ok op fs :
  registry_ok fs ->
  closes_registered op fs ->
  snd (perform op fs) = Returns tt ->
  registry_ok (fst (perform op fs)).
Proof.
  intros Hok Hh Hret. destruct op; cbn [perform fst snd] in *.
  - apply RegisterFileURL_registry_ok, Hok.
  - apply RegisterFileBuffer_registry_ok, Hok.
  - apply (registry_ok_updates fs), SetFileDescriptor_updates. exact Hok.
  - apply TryDropFile_registry_ok, Hok.
  - apply DropDanglingFiles_registry_ok, Hok.
  - apply Close_registry_ok; assumption.
  - apply OpenFile_registry_ok; assumption.
  - apply (registry_ok_updates fs), Truncate_updates. exact Hok.
  - apply (registry_ok_updates fs), Read_updates. exact Hok.
  - apply (registry_ok_updates fs), Write_updates. exact Hok.
Qed.

(** ["b"] of [fs_buffer] is dropped after its handle was closed. *)
Lemma perform_registry_ok_witness :
  registry_ok
    (fst (perform (DoTryDropFile "b") (fst (Close true fs_buffer first_handle)))).
Proof.
  apply (perform_registry_ok (DoTryDropFile "b")
           (fst (Close true fs_buffer first_handle))).
  - apply Close_registry_ok.
    + apply RegisterFileBuffer_registry_ok, registry_ok_new.
    + intros p [= <-]. split; reflexivity.
  - exact I.
  - reflexivity.
Defined.

(* ===================================================================== *)
(** * Reading and writing BUFFER files *)
(* ===================================================================== *)

Lemma u64_small x : 0 <= x < 2 ^ 64 -> u64 x = x.
Proof. intros H. unfold u64. apply Z.mod_small. exact H. Qed.

Lemma pow2_le_64 w : 0 < w <= 64 -> 2 ^ w <= 2 ^ 64.
Proof. intros H. apply Z.pow_le_mono_r; lia. Qed.

(** A [size_t] passed as [int64_t] and taken back as [size_t]. *)
Lemma usize_i64 w x : 0 < w <= 64 -> 0 <= x < 2 ^ w -> usize w (i64 x) = x.
Proof.
  intros Hw Hx. pose proof (pow2_le_64 w Hw) as H64.
  unfold usize, i64.
  assert (E : 2 ^ 64 = 2 ^ w * 2 ^ (64 - w)).
  { rewrite <- Z.pow_add_r by lia. f_equal. lia. }
  destruct (Z.lt_ge_cases x (2 ^ 63)) as [Hlt | Hge].
  - rewrite (Z.mod_small (x + 2 ^ 63)) by lia.
    replace (x + 2 ^ 63 - 2 ^ 63) with x by lia. apply Z.mod_small. exact Hx.
  - replace ((x + 2 ^ 63) mod 2 ^ 64) with (x + 2 ^ 63 - 2 ^ 64).
    + replace (x + 2 ^ 63 - 2 ^ 64 - 2 ^ 63)
        with (x + (- 2 ^ (64 - w)) * 2 ^ w) by lia.
      rewrite Z.mod_add by lia. apply Z.mod_small. exact Hx.
    + apply Z.mod_unique with (q := 1); lia.
Qed.

Lemma u64_i64 x : 0 <= x < 2 ^ 64 -> u64 (i64 x) = x.
Proof. intros Hx. apply (usize_i64 64); lia. Qed.

Lemma store_update_file_insert p g fs f :
  store fs !! p = Some f ->
  store (update_file p g fs) = <[p := g f]> (store fs).
Proof.
  intros Hf. apply map_eq. intros q. unfold update_file. cbn.
  rewrite lookup_alter. destruct (decide (p = q)) as [<- | Hne].
  - rewrite Hf, lookup_insert_eq. reflexivity.
  - rewrite lookup_insert_ne by exact Hne. reflexivity.
Qed.

Lemma store_log e fs : store (log e fs) = store fs.
Proof. reflexivity. Qed.

(** [Truncate] on a BUFFER file resizes the buffer and stores the size. *)
Lemma Truncate_buffer_effect w rt fs h p f b new_size :
  file_ h = Some p -> store fs !! p = Some f ->
  data_protocol_ f = BUFFER -> data_buffer_ f = Some b ->
  snd (Truncate w rt fs h new_size) = Returns tt /\
  store (fst (Truncate w rt fs h new_size)) =
    <[p := set_file_size (u64 new_size)
             (set_data_buffer (Some (Resize w b (usize w new_size))) f)]>
      (store fs).
Proof.
  intros Hh Hf Hp Hb. unfold Truncate.
  rewrite Hh, (deref_Some fs p f Hf), Hp, Hb. cbn [fst snd].
  split; [reflexivity |]. unfold InvalidateReadAheads. rewrite !store_log.
  erewrite store_update_file_insert
    by (apply store_update_file_Some; exact Hf).
  rewrite (store_update_file_insert _ _ _ f Hf).
  apply insert_insert_eq.
Qed.

(** The sequential write on a BUFFER file, when the position and the end of
    the write fit in [size_t]. *)
Lemma Write_buffer_effect w rt fs h p f b buffer nr_bytes :
  0 < w <= 64 ->
  file_ h = Some p -> store fs !! p = Some f ->
  data_protocol_ f = BUFFER -> data_buffer_ f = Some b ->
  0 <= position_ h -> 0 <= nr_bytes -> position_ h + nr_bytes < 2 ^ w ->
  exists fs',
    Write w rt fs h buffer nr_bytes =
      (fs', set_position (position_ h + nr_bytes) h, Returns (i64 nr_bytes)) /\
    store fs' =
      <[p := after_Write w f b (position_ h) buffer nr_bytes]> (store fs).
Proof.
  intros Hw Hh Hf Hp Hb Hpos Hnr Hend.
  pose proof (pow2_le_64 w Hw) as H64.
  unfold Write. rewrite Hh, (deref_Some fs p f Hf), Hp, Hb.
  rewrite (u64_small (position_ h + nr_bytes)) by lia.
  rewrite (usize_small w nr_bytes) by lia.
  rewrite (usize_small w (position_ h + nr_bytes)) by lia.
  unfold after_Write.
  set (new_size := Z.max (position_ h + nr_bytes) (usize w (file_size_ f))).
  assert (Hns : 0 <= new_size < 2 ^ w).
  { pose proof (Z.mod_pos_bound (file_size_ f) (2 ^ w)) as Hm.
    unfold new_size, usize. lia. }
  destruct (size_ b <? position_ h + nr_bytes).
  - destruct (Truncate_buffer_effect w rt fs h p f b (i64 new_size) Hh Hf Hp Hb)
      as [Hret Hst].
    destruct (Truncate w rt fs h _) as [fs1 r]. cbn [fst snd] in Hret, Hst.
    subst r. rewrite u64_i64, usize_i64 in Hst by lia.
    assert (Hf1 : store fs1 !! p =
              Some (set_file_size new_size
                      (set_data_buffer (Some (Resize w b new_size)) f))).
    { rewrite Hst. apply lookup_insert_eq. }
    rewrite (deref_Some fs1 p _ Hf1).
    cbn [data_buffer_ set_file_size set_data_buffer].
    eexists. split; [reflexivity |].
    unfold InvalidateReadAheads. rewrite !store_log.
    rewrite (store_update_file_insert _ _ _ _ Hf1), Hst.
    apply insert_insert_eq.
  - rewrite (deref_Some fs p f Hf), Hb.
    eexists. split; [reflexivity |].
    unfold InvalidateReadAheads. rewrite !store_log.
    apply (store_update_file_insert _ _ _ _ Hf).
Qed.

Lemma take_new_array_copy (k : nat) cap src n :
  (k <= Z.to_nat cap)%nat -> (k <= Z.to_nat n)%nat ->
  (Z.to_nat n <= length src)%nat ->
  take k (new_array_copy cap src n) = take k src.
Proof.
  intros Hc Hn Hl. unfold new_array_copy.
  rewrite take_take, Nat.min_l by exact Hc.
  rewrite take_app_le by (rewrite length_take; lia).
  rewrite take_take, Nat.min_l by exact Hn. reflexivity.
Qed.

(** [Resize] keeps the bytes that are in use before and after it. *)
Lemma Resize_prefix (w : Z) (b : DataBuffer) (n : Z) (k : nat) :
  DataBuffer_ok w b -> 0 <= n ->
  (k <= Z.to_nat (Z.min (size_ b) n))%nat ->
  take k (data_ (Resize w b n)) = take k (data_ b).
Proof.
  intros (Hs & Hc & Hl) Hn Hk. unfold Resize.
  destruct (Z.ltb_spec (capacity_ b) n) as [Hgrow | Hgrow]; cbn [data_].
  - apply take_new_array_copy; lia.
  - destruct (Z.ltb_spec n (capacity_ b / 2)) as [Hshrink | Hkeep]; cbn [data_].
    + assert (capacity_ b / 2 <= capacity_ b) by (apply Z.div_le_upper_bound; lia).
      apply take_new_array_copy; lia.
    + reflexivity.
Qed.

Section Memcpy.
Variables (dst src : list byte) (pos n : Z).
Hypothesis pos_ok : 0 <= pos.
Hypothesis n_ok : 0 <= n.
Hypothesis dst_ok : pos + n <= Z.of_nat (length dst).
Hypothesis src_ok : n <= Z.of_nat (length src).

Lemma length_memcpy_into : length (memcpy_into dst pos src n) = length dst.
Proof.
  unfold memcpy_into. rewrite !length_app, !length_take, length_drop. lia.
Qed.

Lemma take_memcpy_into (k : nat) :
  (k <= Z.to_nat pos)%nat ->
  take k (memcpy_into dst pos src n) = take k dst.
Proof.
  intros Hk. unfold memcpy_into.
  rewrite take_app_le by (rewrite length_take; lia).
  rewrite take_take, Nat.min_l by exact Hk. reflexivity.
Qed.

Lemma drop_memcpy_into :
  drop (Z.to_nat pos) (memcpy_into dst pos src n) =
    take (Z.to_nat n) src ++ drop (Z.to_nat (pos + n)) dst.
Proof.
  unfold memcpy_into.
  rewrite drop_app_length' by (rewrite length_take; lia). reflexivity.
Qed.

Lemma read_memcpy_into :
  take (Z.to_nat n) (drop (Z.to_nat pos) (memcpy_into dst pos src n)) =
    take (Z.to_nat n) src.
Proof.
  rewrite drop_memcpy_into.
  rewrite take_app_length' by (rewrite length_take; lia). reflexivity.
Qed.

Lemma tail_memcpy_into :
  drop (Z.to_nat (pos + n)) (memcpy_into dst pos src n) =
    drop (Z.to_nat (pos + n)) dst.
Proof.
  replace (Z.to_nat (pos + n)) with (Z.to_nat pos + Z.to_nat n)%nat at 1 by lia.
  rewrite <- drop_drop, drop_memcpy_into.
  rewrite drop_app_length' by (rewrite length_take; lia). reflexivity.
Qed.

End Memcpy.

(** The buffer that the sequential write leaves is again one array of
    [capacity_] bytes; it holds the bytes written. *)
Lemma after_Write_buffer w f b pos buffer nr_bytes :
  0 < w ->
  DataBuffer_ok w b ->
  0 <= pos -> 0 <= nr_bytes -> pos + nr_bytes < 2 ^ w ->
  nr_bytes <= Z.of_nat (length buffer) ->
  data_protocol_ (after_Write w f b pos buffer nr_bytes) = data_protocol_ f /\
  exists b',
    data_buffer_ (after_Write w f b pos buffer nr_bytes) = Some b' /\
    DataBuffer_ok w b' /\
    (file_size_ f = size_ b ->
     file_size_ (after_Write w f b pos buffer nr_bytes) = size_ b' /\
     size_ b' = Z.max (size_ b) (pos + nr_bytes)) /\
    take (Z.to_nat nr_bytes) (drop (Z.to_nat pos) (data_ b')) =
      take (Z.to_nat nr_bytes) buffer /\
    take (Z.to_nat (Z.min pos (size_ b))) (data_ b') =
      take (Z.to_nat (Z.min pos (size_ b))) (data_ b) /\
    (pos + nr_bytes <= size_ b ->
     drop (Z.to_nat (pos + nr_bytes)) (data_ b') =
       drop (Z.to_nat (pos + nr_bytes)) (data_ b)).
Proof.
  intros Hw Hb Hpos Hnr Hend Hbuf. unfold after_Write.
  pose proof Hb as (Hs & Hc & Hl).
  set (new_size := Z.max (pos + nr_bytes) (usize w (file_size_ f))).
  assert (Hns : 0 <= new_size < 2 ^ w).
  { pose proof (Z.mod_pos_bound (file_size_ f) (2 ^ w)) as Hm.
    unfold new_size, usize. lia. }
  destruct (Z.ltb_spec (size_ b) (pos + nr_bytes)) as [Hgrow | Hfit].
  - pose proof (Resize_ok w Hw b new_size Hb Hns) as (Hs' & Hc' & Hl').
    pose proof (Resize_size w b new_size) as Hsz.
    split; [reflexivity |].
    eexists. split; [reflexivity |].
    cbn [size_ set_data data_ capacity_ file_size_ set_data_buffer set_file_size].
    split.
    { unfold DataBuffer_ok. cbn [size_ data_ capacity_ set_data].
      rewrite length_memcpy_into by lia. auto. }
    split.
    { intros H3. rewrite Hsz. split; [reflexivity |].
      unfold new_size. rewrite H3, usize_small by lia. lia. }
    split; [apply read_memcpy_into; lia |].
    split.
    + rewrite take_memcpy_into by lia.
      apply Resize_prefix; [exact Hb | lia | lia].
    + intros Hc0. lia.
  - split; [reflexivity |].
    eexists. split; [reflexivity |].
    cbn [size_ set_data data_ capacity_ file_size_ set_data_buffer set_file_size].
    split.
    { unfold DataBuffer_ok. cbn [size_ data_ capacity_ set_data].
      rewrite length_memcpy_into by lia. auto. }
    split; [intros H3; split; [exact H3 | lia] |].
    split; [apply read_memcpy_into; lia |].
    split.
    + apply take_memcpy_into; lia.
    + intros _. apply tail_memcpy_into; lia.
Qed.

(** The sequential read on a BUFFER file delivers the bytes from the
    position to the end of the buffer, at most [nr_bytes] of them. *)
Lemma Read_buffer_returns w rt fs h p f b nr_bytes :
  0 < w <= 64 ->
  file_ h = Some p -> store fs !! p = Some f ->
  data_protocol_ f = BUFFER -> data_buffer_ f = Some b ->
  DataBuffer_ok w b -> size_ b < 2 ^ 63 ->
  0 <= position_ h <= size_ b -> 0 <= nr_bytes < 2 ^ w ->
  Read w rt fs h nr_bytes =
    (fs, set_position (position_ h + Z.min nr_bytes (size_ b - position_ h)) h,
     Returns (Z.min nr_bytes (size_ b - position_ h),
              take (Z.to_nat (Z.min nr_bytes (size_ b - position_ h)))
                   (drop (Z.to_nat (position_ h)) (data_ b)))).
Proof.
  intros Hw Hh Hf Hp Hb (Hs & Hc & Hl) H63 Hpos Hnr.
  pose proof (pow2_le_64 w Hw) as H64.
  unfold Read. rewrite Hh, (deref_Some fs p f Hf), Hp, Hb.
  rewrite (usize_small w) by lia.
  rewrite (usize_small w (position_ h)) by lia.
  rewrite (Z.min_l (position_ h)) by lia.
  rewrite (usize_small w (size_ b - position_ h)) by lia.
  rewrite u64_small by lia.
  rewrite i64_small by lia. reflexivity.
Qed.

(** X1.  [DataBuffer::Resize] keeps the content: for a buffer that holds
    [size_] bytes in one array of [capacity_] bytes and [0 <= n < 2^w], the
    first [min size_ n] bytes after [Resize(n)] are the first [min size_ n]
    bytes before it, whether the buffer grows, shrinks or stays. *)
Theorem Resize_keeps_content (w : Z) (b : DataBuffer) (n : Z) :
  0 < w -> DataBuffer_ok w b -> 0 <= n < 2 ^ w ->
  take (Z.to_nat (Z.min (size_ b) n)) (data_ (Resize w b n)) =
  take (Z.to_nat (Z.min (size_ b) n)) (data_ b).
Proof. intros _ Hb Hn. apply Resize_prefix; [exact Hb | lia | lia]. Qed.

(** The three bytes [abc], shrunk to one byte on a 32-bit target. *)
Lemma Resize_keeps_content_witness :
  take (Z.to_nat (Z.min 3 1)) (data_ (Resize 32 (DataBuffer_new abc 3) 1)) =
  take (Z.to_nat (Z.min 3 1)) abc.
Proof.
  apply (Resize_keeps_content 32 (DataBuffer_new abc 3) 1).
  - lia.
  - unfold DataBuffer_ok. cbn. lia.
  - lia.
Defined.

(** X2.  The sequential [Read] on a BUFFER file: with the position at most
    the size of the buffer, it returns [n = min nr_bytes (size - position)]
    bytes, which are the [n] bytes of the buffer from the position on, and
    advances the position by [n]; the filesystem is unchanged.  At the end
    of the file it returns 0 bytes and leaves the position. *)
Theorem Read_buffer_spec w rt fs h p f b nr_bytes :
  0 < w <= 64 ->
  file_ h = Some p -> store fs !! p = Some f ->
  data_protocol_ f = BUFFER -> data_buffer_ f = Some b ->
  DataBuffer_ok w b -> size_ b < 2 ^ 63 ->
  0 <= position_ h <= size_ b -> 0 <= nr_bytes < 2 ^ w ->
  exists n bytes,
    Read w rt fs h nr_bytes =
      (fs, set_position (position_ h + n) h, Returns (n, bytes)) /\
    n = Z.min nr_bytes (size_ b - position_ h) /\
    bytes = take (Z.to_nat n) (drop (Z.to_nat (position_ h)) (data_ b)) /\
    Z.of_nat (length bytes) = n /\
    (position_ h = size_ b -> n = 0 /\ bytes = []).
Proof.
  intros Hw Hh Hf Hp Hb Hok H63 Hpos Hnr.
  eexists _, _. split; [eapply Read_buffer_returns; eassumption |].
  split; [reflexivity |]. split; [reflexivity |].
  destruct Hok as (Hs & Hc & Hl). split.
  - rewrite length_take, length_drop. lia.
  - intros E. split; [lia |].
    replace (Z.min nr_bytes (size_ b - position_ h)) with 0 by lia.
    reflexivity.
Qed.

(** Two bytes read at position 1 of the four bytes of [fs_buffer]. *)
Lemma Read_buffer_spec_witness :
  exists n bytes,
    Read 32 rt_plain fs_buffer (set_position 1 first_handle) 2 =
      (fs_buffer, set_position (1 + n) (set_position 1 first_handle),
       Returns (n, bytes)) /\
    n = 2 /\ bytes = [Byte.x62; Byte.x63].
Proof.
  destruct (Read_buffer_spec 32 rt_plain fs_buffer (set_position 1 first_handle)
              0%nat (deref fs_buffer 0%nat) (DataBuffer_new (abc ++ [Byte.x64]) 4) 2)
    as (n & bytes & Hr & Hn & Hb & _).
  - lia.
  - reflexivity.
  - reflexivity.
  - reflexivity.
  - reflexivity.
  - unfold DataBuffer_ok. cbn. lia.
  - cbn. lia.
  - cbn. lia.
  - lia.
  - exists n, bytes. split; [exact Hr |]. split; [exact Hn |].
    rewrite Hb, Hn. reflexivity.
Defined.





(** X5.  When the positional [Read] returns, on a BUFFER file whose
    [file_size_] is the size of its buffer, for [nr_bytes > 0]: with
    [location] at or behind the end of the file it returns at once, having
    read nothing; with [location + nr_bytes] inside the file it returns
    after one sequential read, with the [nr_bytes] bytes at [location];
    and when the request starts inside the file and ends behind it, the
    call never returns, whatever fuel the loop is given. *)
Theorem Read_at_buffer_cases w rt fs h p f b nr_bytes location :
  0 < w <= 64 ->
  file_ h = Some p -> store fs !! p = Some f ->
  data_protocol_ f = BUFFER -> data_buffer_ f = Some b ->
  DataBuffer_ok w b -> file_size_ f = size_ b -> size_ b < 2 ^ 63 ->
  0 <= location -> 0 < nr_bytes < 2 ^ w -> nr_bytes < 2 ^ 63 ->
  (size_ b <= location ->
   forall fuel,
     Read_at fuel w rt fs h nr_bytes location =
       Some (fs, set_position location h, Returns [])) /\
  (location + nr_bytes <= size_ b ->
   forall fuel,
     Read_at (S fuel) w rt fs h nr_bytes location =
       Some (fs, set_position (location + nr_bytes) h,
             Returns (take (Z.to_nat nr_bytes)
                           (drop (Z.to_nat location) (data_ b))))) /\
  (location < size_ b < location + nr_bytes ->
   forall fuel, Read_at fuel w rt fs h nr_bytes location = None).
Proof.
  intros Hw Hh Hf Hp Hb Hok H3 H63 Hloc Hnr Hnr63.
  unfold Read_at. rewrite Hh, (deref_Some fs p f Hf), H3.
  split; [| split].
  - intros Hend fuel.
    destruct fuel; cbn [Read_loop];
      destruct (Z.ltb_spec location (size_ b)); try lia;
      rewrite andb_false_r; reflexivity.
  - intros Hin fuel. rewrite Read_loop_step by lia.
    rewrite (Read_buffer_returns w rt fs (set_position location h) p f b nr_bytes)
      by (try assumption; cbn [position_ set_position]; lia).
    cbn [position_ set_position file_].
    replace (Z.min nr_bytes (size_ b - location)) with nr_bytes by lia.
    rewrite Z.sub_diag. change (i64 0) with 0.
    destruct fuel; reflexivity.
  - intros Hover fuel. destruct fuel as [| fuel].
    + cbn [Read_loop].
      destruct (Z.ltb_spec 0 nr_bytes); [| lia].
      destruct (Z.ltb_spec location (size_ b)); [| lia]. reflexivity.
    + rewrite Read_loop_step by lia.
      rewrite (Read_buffer_returns w rt fs (set_position location h) p f b nr_bytes)
        by (try assumption; cbn [position_ set_position]; lia).
      cbn [position_ set_position file_].
      replace (Z.min nr_bytes (size_ b - location)) with (size_ b - location) by lia.
      rewrite i64_small by lia.
      apply (Read_loop_stuck _ _ _ _ _ _ _ []); try lia.
      rewrite (Read_buffer_returns w rt fs _ p f b) ;
        try assumption; cbn [position_ set_position file_]; try lia.
      replace (location + (size_ b - location)) with (size_ b) by lia.
      replace (Z.min _ (size_ b - size_ b)) with 0 by lia.
      rewrite Z.add_0_r. reflexivity.
Qed.

(** Two bytes read at location 1 of the four bytes of [fs_buffer]. *)
Lemma Read_at_buffer_cases_witness :
  Read_at 1 32 rt_plain fs_buffer first_handle 2 1 =
    Some (fs_buffer, set_position 3 first_handle,
          Returns [Byte.x62; Byte.x63]).
Proof.
  destruct (Read_at_buffer_cases 32 rt_plain fs_buffer first_handle 0%nat
              (deref fs_buffer 0%nat) (DataBuffer_new (abc ++ [Byte.x64]) 4) 2 1)
    as (_ & Hin & _).
  - lia.
  - reflexivity.
  - reflexivity.
  - reflexivity.
  - reflexivity.
  - unfold DataBuffer_ok. cbn. lia.
  - reflexivity.
  - cbn. lia.
  - lia.
  - lia.
  - lia.
  - apply (Hin ltac:(cbn; lia) 0%nat).
Defined.

(* ===================================================================== *)
(** * The buffers of BUFFER files *)
(* ===================================================================== *)

Lemma update_file_twice p g1 g2 fs :
  update_file p g1 (update_file p g2 fs) = update_file p (g1 ∘ g2) fs.
Proof.
  unfold update_file, set_store; cbn. f_equal. apply alter_alter_eq.
Qed.

Lemma update_file_log p g e fs :
  update_file p g (log e fs) = log e (update_file p g fs).
Proof. reflexivity. Qed.

Section BuffersOk.
Variable w : Z.
Hypothesis w_ok : 0 < w <= 64.

Lemma buffers_ok_new : buffers_ok w WebFileSystem_new.
Proof. intros p f H. cbn in H. rewrite lookup_empty in H. discriminate. Qed.

Lemma buffers_ok_store fs fs' :
  store fs' = store fs -> buffers_ok w fs -> buffers_ok w fs'.
Proof. intros E H p f Hp. rewrite E in Hp. exact (H p f Hp). Qed.

Lemma buffers_ok_log fs e : buffers_ok w fs -> buffers_ok w (log e fs).
Proof. intros H. exact H. Qed.

Lemma buffers_ok_set_files_by_id fs m :
  buffers_ok w fs -> buffers_ok w (set_files_by_id m fs).
Proof. intros H. exact H. Qed.

Lemma buffers_ok_set_files_by_name fs m :
  buffers_ok w fs -> buffers_ok w (set_files_by_name m fs).
Proof. intros H. exact H. Qed.

Lemma buffers_ok_set_next_file_id fs v :
  buffers_ok w fs -> buffers_ok w (set_next_file_id v fs).
Proof. intros H. exact H. Qed.

(** An assignment to the file at [p] keeps the invariant when the file it
    leaves satisfies it. *)
Lemma buffers_ok_update_file fs p g :
  (forall f, store fs !! p = Some f -> buffer_file_ok w f ->
             buffer_file_ok w (g f)) ->
  buffers_ok w fs -> buffers_ok w (update_file p g fs).
Proof.
  intros Hg H q f' Hq. unfold update_file, set_store in Hq; cbn in Hq.
  rewrite lookup_alter in Hq. destruct (decide (p = q)) as [<- | Hne].
  - destruct (store fs !! p) as [f |] eqn:E; [| discriminate].
    injection Hq as <-. apply Hg; [reflexivity | exact (H p f E)].
  - exact (H q f' Hq).
Qed.

Lemma buffers_ok_insert fs fs' p f' :
  store fs' = <[p := f']> (store fs) ->
  buffer_file_ok w f' -> buffers_ok w fs -> buffers_ok w fs'.
Proof.
  intros E Hf' H q f Hq. rewrite E in Hq.
  destruct (decide (p = q)) as [<- | Hne].
  - rewrite lookup_insert_eq in Hq. injection Hq as <-. exact Hf'.
  - rewrite lookup_insert_ne in Hq by exact Hne. exact (H q f Hq).
Qed.

Lemma buffers_ok_make_shared fs file :
  buffer_file_ok w file -> buffers_ok w fs ->
  buffers_ok w (fst (make_shared file fs)).
Proof.
  intros Hf H. eapply buffers_ok_insert; [| exact Hf | exact H]. reflexivity.
Qed.

Lemma buffers_ok_update_file_keeps fs p g :
  keeps_buffer g -> buffers_ok w fs -> buffers_ok w (update_file p g fs).
Proof.
  intros Hg. apply buffers_ok_update_file. intros f _ Hf Hp.
  destruct (Hg f) as (E1 & E2 & E3). rewrite E1 in Hp.
  rewrite E2, E3. exact (Hf Hp).
Qed.

Lemma keeps_buffer_set_handle_count (k : WebFile -> Z) :
  keeps_buffer (fun f => set_handle_count (k f) f).
Proof. intros f. auto. Qed.

Lemma keeps_buffer_set_data_url v : keeps_buffer (set_data_url v).
Proof. intros f. auto. Qed.

Lemma keeps_buffer_set_data_fd v : keeps_buffer (set_data_fd v).
Proof. intros f. auto. Qed.

Lemma buffer_file_ok_not_buffer f :
  data_protocol_ f <> BUFFER -> buffer_file_ok w f.
Proof. intros H E. contradiction. Qed.

Lemma RegisterFileURL_buffers_ok fs file_name file_url file_size :
  buffers_ok w fs ->
  buffers_ok w (fst (RegisterFileURL fs file_name file_url file_size)).
Proof.
  intros H. unfold RegisterFileURL, WebFileHandle_new, AllocateFileID.
  repeat case_match; name_shared; cbn [fst];
    repeat first
      [ apply buffers_ok_log | apply buffers_ok_set_files_by_id
      | apply buffers_ok_set_files_by_name | apply buffers_ok_set_next_file_id
      | apply buffers_ok_update_file_keeps;
          [apply keeps_buffer_set_handle_count |]
      | apply buffers_ok_make_shared ]; try exact H.
  apply buffer_file_ok_not_buffer. cbn. apply inferDataProtocol_never_buffer.
Qed.

Ltac buffers_step :=
  repeat first
    [ apply buffers_ok_log | apply buffers_ok_set_files_by_id
    | apply buffers_ok_set_files_by_name | apply buffers_ok_set_next_file_id
    | apply buffers_ok_update_file_keeps;
        [first [ apply keeps_buffer_set_handle_count
               | apply keeps_buffer_set_data_url
               | apply keeps_buffer_set_data_fd ] |] ].

Lemma RegisterFileBuffer_buffers_ok fs file_name file_buffer :
  DataBuffer_ok w file_buffer -> buffers_ok w fs ->
  buffers_ok w (fst (RegisterFileBuffer fs file_name file_buffer)).
Proof.
  intros Hb H. unfold RegisterFileBuffer, WebFileHandle_new, AllocateFileID.
  destruct (files_by_name_ (log FsLock fs) !! file_name) as [p |].
  - destruct (data_protocol_ (deref (log FsLock fs) p)) eqn:E; cbn [fst];
      buffers_step; rewrite !update_file_twice;
      (apply buffers_ok_update_file; [| exact H]); intros f Hf _ Hp.
    + exists file_buffer. cbn. auto.
    + rewrite (deref_Some _ _ _ Hf) in E. cbn in Hp. congruence.
    + exists file_buffer. cbn. auto.
  - destruct (make_shared _ _) as [fs1 p] eqn:Hs. name_shared. cbn [fst].
    buffers_step. apply buffers_ok_make_shared; [| exact H].
    intros _. exists file_buffer. auto.
Qed.

Lemma SetFileDescriptor_buffers_ok fs file_id file_descriptor :
  buffers_ok w fs ->
  buffers_ok w (fst (SetFileDescriptor fs file_id file_descriptor)).
Proof.
  intros H. unfold SetFileDescriptor.
  destruct (files_by_id_ (log FsLock fs) !! file_id); cbn [fst];
    buffers_step; exact H.
Qed.

Lemma TryDropFile_buffers_ok fs file_name :
  buffers_ok w fs -> buffers_ok w (fst (TryDropFile fs file_name)).
Proof.
  intros H. unfold TryDropFile.
  repeat case_match; cbn [fst]; buffers_step; exact H.
Qed.

Lemma DropDanglingFiles_buffers_ok fs :
  buffers_ok w fs -> buffers_ok w (DropDanglingFiles fs).
Proof.
  apply buffers_ok_store. destruct (DropDanglingFiles_spec fs) as [E _].
  exact E.
Qed.

Lemma Close_buffers_ok have_file_lock fs h :
  buffers_ok w fs -> buffers_ok w (fst (Close have_file_lock fs h)).
Proof.
  intros H. unfold Close.
  repeat case_match; cbn [fst]; buffers_step; exact H.
Qed.

Lemma Truncate_buffers_ok rt fs h new_size :
  0 <= new_size < 2 ^ w -> buffers_ok w fs ->
  buffers_ok w (fst (Truncate w rt fs h new_size)).
Proof.
  intros Hn H. pose proof (pow2_le_64 w w_ok) as H64.
  unfold Truncate, InvalidateReadAheads.
  destruct (file_ h) as [p |]; [| exact H].
  destruct (data_protocol_ (deref fs p)) eqn:E.
  - destruct (data_buffer_ (deref fs p)) as [b |] eqn:Eb; [| exact H].
    cbn [fst]. buffers_step. rewrite update_file_twice.
    apply buffers_ok_update_file; [| exact H]. intros f Hf Hok _.
    rewrite (deref_Some _ _ _ Hf) in E, Eb.
    destruct (Hok E) as (b0 & Hb0 & Hok0 & _).
    rewrite Eb in Hb0. injection Hb0 as <-.
    exists (Resize w b (usize w new_size)). cbn.
    rewrite usize_small, u64_small by lia.
    split; [reflexivity |]. split; [apply Resize_ok; [lia | exact Hok0 | exact Hn] |].
    symmetry. apply Resize_size.
  - destruct (rt_file_truncate rt _ _); cbn [fst]; buffers_step; [| exact H].
    apply buffers_ok_update_file; [| exact H]. intros f Hf _.
    rewrite (deref_Some fs p f Hf) in E.
    apply buffer_file_ok_not_buffer. cbn. congruence.
  - destruct (rt_file_truncate rt _ _); cbn [fst]; buffers_step; [| exact H].
    apply buffers_ok_update_file; [| exact H]. intros f Hf _.
    rewrite (deref_Some fs p f Hf) in E.
    apply buffer_file_ok_not_buffer. cbn. congruence.
Qed.

Lemma Read_buffers_ok rt fs h nr_bytes :
  buffers_ok w fs -> buffers_ok w (fst (fst (Read w rt fs h nr_bytes))).
Proof.
  intros H. unfold Read. repeat case_match; cbn [fst]; exact H.
Qed.

Lemma deref_None fs p :
  store fs !! p = None -> deref fs p = WebFile_new 0 EmptyString BUFFER.
Proof. intros E. unfold deref. rewrite lookup_total_alt, E. reflexivity. Qed.

Lemma Write_buffers_ok rt fs h buffer nr_bytes :
  0 <= position_ h -> 0 <= nr_bytes <= Z.of_nat (length buffer) ->
  position_ h + nr_bytes < 2 ^ w ->
  buffers_ok w fs ->
  buffers_ok w (fst (fst (Write w rt fs h buffer nr_bytes))).
Proof.
  intros Hpos Hnr Hend H.
  destruct (file_ h) as [p |] eqn:Hh; [| unfold Write; rewrite Hh; exact H].
  destruct (store fs !! p) as [f |] eqn:Hf.
  - destruct (data_protocol_ f) eqn:E.
    + destruct (data_buffer_ f) as [b |] eqn:Eb.
      * destruct (Write_buffer_effect w rt fs h p f b buffer nr_bytes)
          as (fs' & Hwr & Hst); try assumption; try lia.
        rewrite Hwr. cbn [fst].
        destruct (H p f Hf E) as (b0 & Hb0 & Hok0 & H3).
        rewrite Eb in Hb0. injection Hb0 as <-.
        destruct (after_Write_buffer w f b (position_ h) buffer nr_bytes)
          as (Hproto & b' & Hb' & Hok' & Hsz & _); try assumption; try lia.
        eapply buffers_ok_insert; [exact Hst | | exact H].
        intros _. exists b'. destruct (Hsz H3) as [Hfs _]. auto.
      * unfold Write. rewrite Hh, (deref_Some _ _ _ Hf), E, Eb. exact H.
    + unfold Write, InvalidateReadAheads.
      rewrite Hh, (deref_Some _ _ _ Hf), E. cbn [fst]. buffers_step.
      case_match; [| exact H].
      apply buffers_ok_update_file; [| exact H]. intros f' Hf' _.
      cbn in Hf'. rewrite Hf in Hf'. injection Hf' as <-.
      apply buffer_file_ok_not_buffer. cbn. congruence.
    + unfold Write. rewrite Hh, (deref_Some _ _ _ Hf), E. exact H.
  - unfold Write. rewrite Hh, (deref_None _ _ Hf). exact H.
Qed.

Lemma OpenFile_abort_buffers_ok have_file_lock fs p handle what :
  buffers_ok w fs ->
  buffers_ok w (fst (OpenFile_abort have_file_lock fs p handle what)).
Proof.
  intros H. unfold OpenFile_abort, WebFileHandle_destroy.
  destruct (files_by_id_ _ !! _); [| cbn [fst]; buffers_step; exact H].
  match goal with
  | |- context [Close ?l ?x ?y] =>
      pose proof (Close_buffers_ok l x y) as Hc;
      destruct (Close l x y) as [fs1 [? | ? |]]
  end; cbn [fst] in *; apply Hc; buffers_step; exact H.
Qed.

Lemma OpenFile_host_buffers_ok rt have_file_lock fs p handle flags :
  (forall file_id opened bytes,
     rt_file_open rt file_id = Normal (Some opened) ->
     opened_file_buffer opened = Some bytes ->
     0 <= opened_file_size opened < 2 ^ w /\
     Z.of_nat (length bytes) = opened_file_size opened) ->
  data_protocol_ (deref fs p) <> BUFFER ->
  buffers_ok w fs ->
  buffers_ok w (fst (OpenFile_host w rt have_file_lock fs p handle flags)).
Proof.
  intros Hrt Hp H. unfold OpenFile_host.
  destruct (rt_file_open rt _) as [[opened |] | what] eqn:Ho;
    [| apply OpenFile_abort_buffers_ok; buffers_step; exact H
     | apply OpenFile_abort_buffers_ok; buffers_step; exact H].
  set (fs1 := match opened_file_buffer opened with Some _ => _ | None => _ end).
  assert (H1 : buffers_ok w fs1).
  { subst fs1. destruct (opened_file_buffer opened) as [bytes |] eqn:Eb.
    - destruct (Hrt _ _ _ Ho Eb) as [Hsize Hlen].
      rewrite !update_file_twice. apply buffers_ok_update_file;
        [| buffers_step; exact H].
      intros f _ _ _. exists (DataBuffer_new bytes (usize w (opened_file_size opened))).
      cbn. rewrite usize_small by lia.
      split; [reflexivity |]. split; [| reflexivity].
      unfold DataBuffer_ok. cbn. lia.
    - apply buffers_ok_update_file; [| buffers_step; exact H].
      intros f Hf _. cbn in Hf.
      apply buffer_file_ok_not_buffer. cbn.
      rewrite <- (deref_Some _ _ _ Hf). exact Hp. }
  clearbody fs1.
  destruct (create_new_set flags); [| exact H1].
  pose proof (Truncate_buffers_ok rt fs1 handle 0 ltac:(lia) H1) as Ht.
  destruct (Truncate w rt fs1 handle 0) as [fs2 [[] | what |]];
    cbn [fst] in Ht |- *; [exact Ht | | exact Ht].
  apply OpenFile_abort_buffers_ok. exact Ht.
Qed.

Lemma OpenFile_buffers_ok rt have_file_lock fs url flags :
  (forall file_id opened bytes,
     rt_file_open rt file_id = Normal (Some opened) ->
     opened_file_buffer opened = Some bytes ->
     0 <= opened_file_size opened < 2 ^ w /\
     Z.of_nat (length bytes) = opened_file_size opened) ->
  buffers_ok w fs ->
  buffers_ok w (fst (OpenFile w rt have_file_lock fs url flags)).
Proof.
  intros Hrt H. unfold OpenFile, WebFileHandle_new, AllocateFileID.
  set (found := match files_by_name_ (log FsLock fs) !! url with
                | Some p => _ | None => _ end).
  assert (H1 : buffers_ok w (fst found)).
  { subst found. destruct (files_by_name_ _ !! url); [exact H |].
    destruct (make_shared _ _) as [fs1 p] eqn:Hs. name_shared. cbn [fst].
    buffers_step. apply buffers_ok_make_shared; [| exact H].
    apply buffer_file_ok_not_buffer. cbn. apply inferDataProtocol_never_buffer. }
  destruct found as [fs1 p]. cbn [fst] in H1.
  set (fs2 := log FsUnlock _).
  assert (H2 : buffers_ok w fs2) by (subst fs2; buffers_step; exact H1).
  clearbody fs2.
  destruct (data_protocol_ (deref fs2 p)) eqn:E.
  - destruct (create_new_set flags); [| exact H2].
    destruct (data_buffer_ (deref fs2 p)) as [b |] eqn:Eb; [| exact H2].
    cbn [fst]. rewrite update_file_twice.
    apply buffers_ok_update_file; [| exact H2]. intros f Hf Hok _.
    rewrite (deref_Some _ _ _ Hf) in E, Eb.
    destruct (Hok E) as (b0 & Hb0 & Hok0 & _).
    rewrite Eb in Hb0. injection Hb0 as <-.
    exists (Resize w b 0). cbn.
    split; [reflexivity |].
    split; [apply Resize_ok; [lia | exact Hok0 | lia] |].
    symmetry. apply Resize_size.
  - destruct (data_fd_ (deref fs2 p)); [exact H2 |].
    apply OpenFile_host_buffers_ok; [exact Hrt | congruence | exact H2].
  - apply OpenFile_host_buffers_ok; [exact Hrt | congruence | exact H2].
Qed.

End BuffersOk.
(** X6.  Invariants I2 (from left to right) and I3.  In the new filesystem,
    and after every operation whose sizes fit the [w]-bit [size_t], however
    the operation ends: every BUFFER file has a buffer, the buffer is one
    array of [capacity_] bytes with [size_ <= capacity_], and the file's
    [file_size_] is the size of its buffer. *)
Theorem perform_buffers_ok w op fs :
  0 < w <= 64 -> buffers_ok w fs -> sizes_fit w op ->
  buffers_ok w WebFileSystem_new /\ buffers_ok w (fst (perform op fs)).
Proof.
  intros Hw H Hop. split; [apply buffers_ok_new |].
  destruct op; cbn [perform fst sizes_fit] in *.
  - apply RegisterFileURL_buffers_ok, H.
  - apply RegisterFileBuffer_buffers_ok; assumption.
  - apply SetFileDescriptor_buffers_ok, H.
  - apply TryDropFile_buffers_ok, H.
  - apply DropDanglingFiles_buffers_ok, H.
  - apply Close_buffers_ok, H.
  - destruct Hop as [-> Hrt]. apply OpenFile_buffers_ok; assumption.
  - destruct Hop as [-> Hn]. apply Truncate_buffers_ok; assumption.
  - destruct (Read w0 rt fs h nr_bytes) as [[fs1 h1] r] eqn:E.
    cbn [fst]. unfold Read in E. repeat case_match; simplify_eq; exact H.
  - destruct Hop as (-> & Hpos & Hnr & Hend).
    apply Write_buffers_ok; assumption.
Qed.

(** [abc] written at position 2 through the handle of [fs_buffer]: the
    file at address 0 is a BUFFER file of 5 bytes with a buffer of size 5. *)
Lemma perform_buffers_ok_witness :
  buffers_ok 32
    (fst (perform (DoWrite 32 rt_plain (set_position 2 first_handle) abc 3)
            fs_buffer)).
Proof.
  apply (perform_buffers_ok 32
           (DoWrite 32 rt_plain (set_position 2 first_handle) abc 3) fs_buffer).
  - lia.
  - apply RegisterFileBuffer_buffers_ok; [| apply buffers_ok_new].
    unfold DataBuffer_ok. cbn. lia.
  - cbn. repeat split; lia.
Defined.

(* ===================================================================== *)
(** * Dropping, closing and opening registered files *)
(* ===================================================================== *)

(** A map is determined by the keys it binds to a value. *)
Lemma map_eq_Some `{Countable K} {V} (m1 m2 : gmap K V) :
  (forall k v, m1 !! k = Some v <-> m2 !! k = Some v) -> m1 = m2.
Proof.
  intros Hm. apply map_eq. intros k. apply option_eq. intros v. apply Hm.
Qed.

(** X8.  [TryDropFile] in a registry whose two maps agree: it returns
    [false] exactly when the name is registered and the file has a handle,
    and then changes neither map; otherwise it returns [true] (also for a
    name that is not registered) and afterwards the name is in neither map,
    while every other entry stays.  It never changes a file. *)
Theorem TryDropFile_spec fs file_name :
  registry_ok fs ->
  store (fst (TryDropFile fs file_name)) = store fs /\
  (snd (TryDropFile fs file_name) = false <->
   exists p, files_by_name_ fs !! file_name = Some p /\
             handle_count_ (deref fs p) <> 0) /\
  (snd (TryDropFile fs file_name) = false ->
   files_by_name_ (fst (TryDropFile fs file_name)) = files_by_name_ fs /\
   files_by_id_ (fst (TryDropFile fs file_name)) = files_by_id_ fs) /\
  (snd (TryDropFile fs file_name) = true ->
   files_by_name_ (fst (TryDropFile fs file_name)) =
     delete file_name (files_by_name_ fs) /\
   forall id q,
     files_by_id_ (fst (TryDropFile fs file_name)) !! id = Some q <->
     files_by_id_ fs !! id = Some q /\
     files_by_name_ fs !! file_name <> Some q).
Proof.
  intros Hok. unfold TryDropFile.
  change (files_by_name_ (log FsLock fs)) with (files_by_name_ fs).
  change (deref (log FsLock fs)) with (deref fs).
  destruct (files_by_name_ fs !! file_name) as [p |] eqn:Hn.
  - destruct (by_name_ok fs Hok _ _ Hn) as (_ & Hname & Hid).
    destruct (Z.eqb_spec (handle_count_ (deref fs p)) 0) as [Hz | Hz];
      cbn [fst snd store files_by_name_ files_by_id_ log set_files_by_name
           set_files_by_id].
    + split; [reflexivity |]. split.
      { split; [discriminate |]. intros (q & [= <-] & Hq). contradiction. }
      split; [discriminate |]. intros _.
      change (deref (set_files_by_id _ _) p) with (deref fs p). rewrite Hname.
      split; [reflexivity |]. intros id q. rewrite lookup_delete_Some. split.
      * intros [Hne Hq]. split; [exact Hq |]. intros [= <-].
        destruct (by_id_ok fs Hok _ _ Hq) as (_ & Hqi & _). congruence.
      * intros [Hq Hne]. split; [| exact Hq]. intros <-.
        rewrite Hid in Hq. congruence.
    + split; [reflexivity |]. split.
      { split; [| reflexivity]. intros _. exists p. auto. }
      split; [auto | discriminate].
  - cbn [fst snd store files_by_name_ files_by_id_ log].
    split; [reflexivity |]. split.
    { split; [discriminate |]. intros (q & Hq & _). discriminate. }
    split; [discriminate |]. intros _.
    split; [symmetry; apply delete_id; exact Hn |].
    intros id q. split; [| tauto]. intros Hq. split; [exact Hq | discriminate].
Qed.

(** ["b"] of [fs_buffer] is held by the handle of its registration. *)
Lemma TryDropFile_spec_witness :
  snd (TryDropFile fs_buffer "b") = false /\
  files_by_name_ (fst (TryDropFile fs_buffer "b")) = files_by_name_ fs_buffer.
Proof.
  destruct (TryDropFile_spec fs_buffer "b") as (_ & Hf & Hsame & _).
  - apply RegisterFileBuffer_registry_ok, registry_ok_new.
  - assert (E : snd (TryDropFile fs_buffer "b") = false).
    { apply Hf. exists 0%nat. split; [reflexivity |]. vm_compute. discriminate. }
    split; [exact E | apply (Hsame E)].
Defined.

(** X9.  [DropDanglingFiles] in a registry whose two maps agree: an entry
    of either map survives exactly when its file has a handle; no file is
    changed; and a second call right after the first changes neither map. *)
Theorem DropDanglingFiles_exact fs :
  registry_ok fs ->
  store (DropDanglingFiles fs) = store fs /\
  (forall name p,
     files_by_name_ (DropDanglingFiles fs) !! name = Some p <->
     files_by_name_ fs !! name = Some p /\ handle_count_ (deref fs p) <> 0) /\
  (forall id p,
     files_by_id_ (DropDanglingFiles fs) !! id = Some p <->
     files_by_id_ fs !! id = Some p /\ handle_count_ (deref fs p) <> 0) /\
  files_by_name_ (DropDanglingFiles (DropDanglingFiles fs)) =
    files_by_name_ (DropDanglingFiles fs) /\
  files_by_id_ (DropDanglingFiles (DropDanglingFiles fs)) =
    files_by_id_ (DropDanglingFiles fs).
Proof.
  intros Hok.
  assert (Hexact : forall fs0, registry_ok fs0 ->
            (forall name p,
               files_by_name_ (DropDanglingFiles fs0) !! name = Some p <->
               files_by_name_ fs0 !! name = Some p /\
               handle_count_ (deref fs0 p) <> 0) /\
            (forall id p,
               files_by_id_ (DropDanglingFiles fs0) !! id = Some p <->
               files_by_id_ fs0 !! id = Some p /\
               handle_count_ (deref fs0 p) <> 0)).
  { intros fs0 Hok0. destruct (DropDanglingFiles_spec fs0) as (_ & _ & Hn & Hi).
    split; [| exact Hi]. intros name p. rewrite Hn. split.
    - intros [Hp Hall]. split; [exact Hp |]. intros Hz.
      destruct (by_name_ok fs0 Hok0 _ _ Hp) as (_ & Hname & Hid).
      exact (Hall _ _ Hid Hz Hname).
    - intros [Hp Hc]. split; [exact Hp |]. intros id q Hq Hz Hname.
      destruct (by_id_ok fs0 Hok0 _ _ Hq) as (_ & _ & Hq').
      rewrite Hname, Hp in Hq'. congruence. }
  destruct (Hexact fs Hok) as [Hn Hi].
  destruct (Hexact _ (DropDanglingFiles_registry_ok fs Hok)) as [Hn2 Hi2].
  destruct (DropDanglingFiles_spec fs) as (Hs & _).
  assert (Hd : forall q, deref (DropDanglingFiles fs) q = deref fs q)
    by (intros q; unfold deref; rewrite Hs; reflexivity).
  split; [exact Hs |]. split; [exact Hn |]. split; [exact Hi |]. split.
  - apply map_eq_Some. intros name p. rewrite Hn2, Hd, Hn. tauto.
  - apply map_eq_Some. intros id p. rewrite Hi2, Hd, Hi. tauto.
Qed.

(** ["b"] of [fs_buffer] is held, so it survives. *)
Lemma DropDanglingFiles_exact_witness :
  files_by_name_ (DropDanglingFiles fs_buffer) !! "b" = Some 0%nat.
Proof.
  destruct (DropDanglingFiles_exact fs_buffer) as (_ & Hn & _).
  - apply RegisterFileBuffer_registry_ok, registry_ok_new.
  - apply Hn. split; [reflexivity |]. vm_compute. discriminate.
Defined.

(** X10.  Closing the last handle of a registered file.  The call returns,
    the handle no longer refers to a file and closing it again does nothing.
    A BUFFER file stays in both maps with no handle, and the host is not
    called.  A NATIVE or HTTP file is closed in the host, between releasing
    and retaking [fs_mutex_], and erased from both maps, provided the file
    lock was obtained; without the file lock it stays in both maps with no
    handle. *)
Theorem Close_last_handle have_file_lock fs h p f :
  file_ h = Some p -> store fs !! p = Some f -> registered fs p ->
  handle_count_ f = 1 ->
  exists fs' h',
    Close have_file_lock fs h = (fs', Returns h') /\
    file_ h' = None /\
    Close have_file_lock fs' h' = (fs', Returns h') /\
    store fs' !! p = Some (set_handle_count 0 f) /\
    (data_protocol_ f = BUFFER \/ have_file_lock = false ->
     files_by_name_ fs' = files_by_name_ fs /\
     files_by_id_ fs' = files_by_id_ fs /\
     events fs' = events fs ++ [FsLock; FsUnlock]) /\
    (data_protocol_ f <> BUFFER -> have_file_lock = true ->
     files_by_name_ fs' = delete (file_name_ f) (files_by_name_ fs) /\
     files_by_id_ fs' = delete (file_id_ f) (files_by_id_ fs) /\
     events fs' =
       events fs ++
       [FsLock; FsUnlock; RtFileClose (file_id_ f); FsLock; FsUnlock]).
Proof.
  intros Hh Hf [Rid Rname] Hc. rewrite (deref_Some fs p f Hf) in Rid, Rname.
  unfold Close. rewrite Hh.
  set (fs1 := update_file p _ (log FsLock fs)).
  assert (Hf1 : store fs1 !! p = Some (set_handle_count 0 f)).
  { subst fs1. erewrite store_update_file_Some by exact Hf.
    rewrite Hc. reflexivity. }
  rewrite (deref_Some fs1 p _ Hf1).
  cbn [handle_count_ set_handle_count data_protocol_ file_id_ file_name_].
  change (0 <? 0) with false. cbv iota.
  destruct have_file_lock; cbn [negb].
  - destruct (decide (data_protocol_ f = BUFFER)) as [Eb | Eb].
    + eexists _, _. split; [reflexivity |]. split; [reflexivity |].
      split; [reflexivity |]. split; [exact Hf1 |].
      split; [intros _; subst fs1; cbn; rewrite <- app_assoc; auto |].
      intros Hne. contradiction.
    + rewrite !deref_log, (deref_Some fs1 p _ Hf1).
      cbn [file_id_ file_name_ set_handle_count].
      change (deref (set_files_by_name _ _) p) with (deref fs1 p).
      rewrite (deref_Some fs1 p _ Hf1).
      cbn [file_id_ file_name_ set_handle_count].
      assert (Ei : forall m x, files_by_id_ (set_files_by_name m x) = files_by_id_ x) by reflexivity.
      rewrite !Ei. clear Ei.
      change (files_by_id_ (log FsLock _)) with (files_by_id_ fs).
      rewrite Rid.
      eexists _, _. split; [reflexivity |]. split; [reflexivity |].
      split; [reflexivity |]. split; [exact Hf1 |].
      split; [intros [E | E]; [contradiction | discriminate] |].
      intros _ _. subst fs1. cbn. rewrite <- !app_assoc. auto.
  - eexists _, _. split; [reflexivity |]. split; [reflexivity |].
    split; [reflexivity |]. split; [exact Hf1 |].
    split; [intros _; subst fs1; cbn; rewrite <- app_assoc; auto |].
    intros _ E. discriminate.
Qed.

(** The handle of ["x"] in [fs_http] is closed with the file lock held. *)
Lemma Close_last_handle_witness :
  exists fs' h',
    Close true fs_http first_handle = (fs', Returns h') /\
    files_by_name_ fs' = ∅ /\ files_by_id_ fs' = ∅.
Proof.
  destruct (Close_last_handle true fs_http first_handle 0%nat
              (deref fs_http 0%nat))
    as (fs' & h' & Hc & _ & _ & _ & _ & Hdrop).
  - reflexivity.
  - reflexivity.
  - split; reflexivity.
  - reflexivity.
  - exists fs', h'. split; [exact Hc |].
    destruct Hdrop as (Hn & Hi & _); [discriminate | reflexivity |].
    rewrite Hn, Hi. split; reflexivity.
Defined.

(** [OpenFile] of a name that is not registered, up to the point where
    the host is asked: a file with the inferred protocol and the url has
    been filed in both maps and is held by the new handle. *)
Lemma OpenFile_fresh w rt have_file_lock fs url flags :
  files_by_name_ fs !! url = None ->
  files_by_id_ fs !! next_file_id_ fs = None ->
  exists fs2 p,
    OpenFile w rt have_file_lock fs url flags =
      OpenFile_host w rt have_file_lock fs2 p (mkWebFileHandle (Some p) 0) flags /\
    store fs !! p = None /\
    store fs2 =
      <[p := mkWebFile (next_file_id_ fs) url (inferDataProtocol url) (Some url)
                       None 0 None 1]> (store fs) /\
    files_by_id_ fs2 = <[next_file_id_ fs := p]> (files_by_id_ fs) /\
    files_by_name_ fs2 = <[url := p]> (files_by_name_ fs) /\
    next_file_id_ fs2 = next_file_id_ fs + 1 /\
    events fs2 = events fs ++ [FsLock; FsUnlock].
Proof.
  intros Hn Hi. unfold OpenFile.
  change (files_by_name_ (log FsLock fs)) with (files_by_name_ fs). rewrite Hn.
  pose proof (is_fresh (dom (store fs))) as Hfresh.
  apply not_elem_of_dom in Hfresh.
  unfold AllocateFileID, make_shared, WebFileHandle_new.
  cbn -[fresh inferDataProtocol deref OpenFile_host].
  set (p := fresh (dom (store fs))) in *.
  set (fs2 := log FsUnlock _).
  assert (Hst : store fs2 =
            <[p := mkWebFile (next_file_id_ fs) url (inferDataProtocol url)
                             (Some url) None 0 None 1]> (store fs)).
  { subst fs2. unfold update_file, set_store, log; cbn -[inferDataProtocol].
    apply map_eq. intros q. rewrite !lookup_alter.
    destruct (decide (p = q)) as [<- | Hne].
    - rewrite decide_True, !lookup_insert_eq by reflexivity. reflexivity.
    - rewrite !lookup_insert_ne by exact Hne. reflexivity. }
  assert (Hd : deref fs2 p =
            mkWebFile (next_file_id_ fs) url (inferDataProtocol url)
                      (Some url) None 0 None 1).
  { apply deref_Some. rewrite Hst. apply lookup_insert_eq. }
  exists fs2, p. split.
  { rewrite Hd. cbn [data_protocol_ data_fd_].
    pose proof (inferDataProtocol_never_buffer url) as Hnb.
    destruct (inferDataProtocol url); [contradiction | reflexivity | reflexivity]. }
  split; [exact Hfresh |]. split; [exact Hst |].
  split; [subst fs2; cbn; apply map_insert_new_fresh, Hi |].
  split; [subst fs2; cbn; apply map_insert_new_fresh, Hn |].
  split; [reflexivity |].
  subst fs2. cbn. rewrite <- app_assoc. reflexivity.
Qed.

(** X11.  A registered NATIVE file that has been given a descriptor is
    opened without the host: after [SetFileDescriptor] with the id of the
    file, [OpenFile] returns a handle at position 0, the file has one handle
    more and the descriptor, its size is as before whatever the flags say,
    and all that happens outside the registry is that [fs_mutex_] is taken
    and released twice. *)
Theorem SetFileDescriptor_then_OpenFile w rt have_file_lock fs name fd flags p f :
  registry_ok fs ->
  files_by_name_ fs !! name = Some p -> store fs !! p = Some f ->
  data_protocol_ f = NATIVE ->
  exists fs1 fs2,
    SetFileDescriptor fs (file_id_ f) fd = (fs1, Value tt) /\
    OpenFile w rt have_file_lock fs1 name flags =
      (fs2, Returns (mkWebFileHandle (Some p) 0)) /\
    store fs2 =
      <[p := set_handle_count (handle_count_ f + 1) (set_data_fd (Some fd) f)]>
        (store fs) /\
    files_by_name_ fs2 = files_by_name_ fs /\
    files_by_id_ fs2 = files_by_id_ fs /\
    events fs2 = events fs ++ [FsLock; FsUnlock; FsLock; FsUnlock].
Proof.
  intros Hok Hn Hf Hp.
  destruct (by_name_ok fs Hok _ _ Hn) as (_ & _ & Hid).
  rewrite (deref_Some fs p f Hf) in Hid.
  unfold SetFileDescriptor.
  change (files_by_id_ (log FsLock fs)) with (files_by_id_ fs). rewrite Hid.
  set (fs1 := log FsUnlock _).
  assert (Hf1 : store fs1 !! p = Some (set_data_fd (Some fd) f)).
  { subst fs1. apply (store_update_file_Some p _ (log FsLock fs) f Hf). }
  exists fs1. unfold OpenFile.
  change (files_by_name_ (log FsLock fs1)) with (files_by_name_ fs). rewrite Hn.
  unfold WebFileHandle_new.
  set (fs2 := log FsUnlock _).
  assert (Hf2 : store fs2 !! p =
            Some (set_handle_count (handle_count_ f + 1) (set_data_fd (Some fd) f))).
  { subst fs2.
    exact (store_update_file_Some p
             (fun f => set_handle_count (handle_count_ f + 1) f)
             (log FsLock fs1) _ Hf1). }
  rewrite (deref_Some fs2 p _ Hf2).
  cbn [data_protocol_ data_fd_ set_handle_count set_data_fd]. rewrite Hp.
  exists fs2. split; [reflexivity |]. split; [reflexivity |].
  split.
  { subst fs2. rewrite store_log.
    rewrite (store_update_file_insert p
               (fun f => set_handle_count (handle_count_ f + 1) f)
               (log FsLock fs1) _ Hf1).
    subst fs1. rewrite !store_log.
    rewrite (store_update_file_insert p _ (log FsLock fs) _ Hf).
    rewrite store_log. apply insert_insert_eq. }
  split; [reflexivity |]. split; [reflexivity |].
  subst fs2 fs1. cbn. rewrite <- !app_assoc. reflexivity.
Qed.

(** ["a.csv"] of [fs_native] is given the descriptor 7 and opened on a
    host that cannot open any file. *)
Lemma SetFileDescriptor_then_OpenFile_witness :
  exists fs1 fs2,
    SetFileDescriptor fs_native 0 7 = (fs1, Value tt) /\
    OpenFile 32 rt_no_open true fs1 "a.csv" 0 =
      (fs2, Returns (mkWebFileHandle (Some 0%nat) 0)).
Proof.
  destruct (SetFileDescriptor_then_OpenFile 32 rt_no_open true fs_native
              "a.csv" 7 0 0%nat (deref fs_native 0%nat))
    as (fs1 & fs2 & H1 & H2 & _).
  - apply RegisterFileURL_registry_ok, registry_ok_new.
  - reflexivity.
  - reflexivity.
  - reflexivity.
  - exists fs1, fs2. split; [exact H1 | exact H2].
Defined.

(** X12.  [OpenFile] of a registered BUFFER file never calls the host and
    returns a handle at position 0; the file has one handle more.  With
    [FILE_FLAGS_FILE_CREATE_NEW] the file is emptied: its buffer is resized
    to 0 and its size is 0, so that a read through the new handle returns
    no byte.  Without the flag the content is as before. *)
Theorem OpenFile_buffer_file w rt have_file_lock fs url flags p f b :
  0 < w <= 64 ->
  files_by_name_ fs !! url = Some p -> store fs !! p = Some f ->
  data_protocol_ f = BUFFER -> data_buffer_ f = Some b -> DataBuffer_ok w b ->
  exists fs',
    OpenFile w rt have_file_lock fs url flags =
      (fs', Returns (mkWebFileHandle (Some p) 0)) /\
    events fs' = events fs ++ [FsLock; FsUnlock] /\
    files_by_name_ fs' = files_by_name_ fs /\
    files_by_id_ fs' = files_by_id_ fs /\
    (create_new_set flags = false ->
     store fs' = <[p := set_handle_count (handle_count_ f + 1) f]> (store fs)) /\
    (create_new_set flags = true ->
     store fs' =
       <[p := set_file_size 0
                (set_data_buffer (Some (Resize w b 0))
                   (set_handle_count (handle_count_ f + 1) f))]> (store fs) /\
     forall nr_bytes, 0 <= nr_bytes < 2 ^ w ->
       Read w rt fs' (mkWebFileHandle (Some p) 0) nr_bytes =
         (fs', mkWebFileHandle (Some p) 0, Returns (0, []))).
Proof.
  intros Hw Hn Hf Hp Hb Hok. unfold OpenFile.
  change (files_by_name_ (log FsLock fs)) with (files_by_name_ fs). rewrite Hn.
  unfold WebFileHandle_new.
  set (fs2 := log FsUnlock _).
  assert (Hf2 : store fs2 !! p = Some (set_handle_count (handle_count_ f + 1) f)).
  { subst fs2.
    exact (store_update_file_Some p
             (fun f => set_handle_count (handle_count_ f + 1) f)
             (log FsLock fs) _ Hf). }
  assert (Hst2 : store fs2 =
            <[p := set_handle_count (handle_count_ f + 1) f]> (store fs)).
  { subst fs2. rewrite store_log.
    exact (store_update_file_insert p
             (fun f => set_handle_count (handle_count_ f + 1) f)
             (log FsLock fs) _ Hf). }
  assert (Hev : events fs2 = events fs ++ [FsLock; FsUnlock]).
  { subst fs2. cbn. rewrite <- app_assoc. reflexivity. }
  rewrite (deref_Some fs2 p _ Hf2).
  cbn [data_protocol_ data_buffer_ set_handle_count]. rewrite Hp, Hb.
  destruct (create_new_set flags).
  - set (fs3 := update_file p (set_file_size 0) _).
    assert (Hst3 : store fs3 =
              <[p := set_file_size 0
                       (set_data_buffer (Some (Resize w b 0))
                          (set_handle_count (handle_count_ f + 1) f))]> (store fs)).
    { subst fs3.
      erewrite store_update_file_insert
        by (apply store_update_file_Some; exact Hf2).
      rewrite (store_update_file_insert p _ fs2 _ Hf2), Hst2.
      rewrite !insert_insert_eq. reflexivity. }
    exists fs3. split; [reflexivity |]. split; [exact Hev |].
    split; [reflexivity |]. split; [reflexivity |].
    split; [discriminate |]. intros _. split; [exact Hst3 |].
    intros nr_bytes Hnr.
    rewrite (Read_buffer_returns w rt fs3 (mkWebFileHandle (Some p) 0) p
               (set_file_size 0
                  (set_data_buffer (Some (Resize w b 0))
                     (set_handle_count (handle_count_ f + 1) f)))
               (Resize w b 0) nr_bytes Hw);
      [ | reflexivity | rewrite Hst3; apply lookup_insert_eq | exact Hp
        | reflexivity | apply Resize_ok; [lia | exact Hok | lia]
        | rewrite Resize_size; lia
        | rewrite Resize_size; cbn; lia | exact Hnr ].
    rewrite Resize_size. cbn [position_].
    replace (Z.min nr_bytes (0 - 0)) with 0 by lia. reflexivity.
  - exists fs2. split; [reflexivity |]. split; [exact Hev |].
    split; [reflexivity |]. split; [reflexivity |].
    split; [intros _; exact Hst2 | discriminate].
Qed.

(** ["b"] of [fs_buffer] opened with [FILE_FLAGS_FILE_CREATE_NEW]. *)
Lemma OpenFile_buffer_file_witness :
  exists fs',
    OpenFile 32 rt_plain true fs_buffer "b" FILE_FLAGS_FILE_CREATE_NEW =
      (fs', Returns (mkWebFileHandle (Some 0%nat) 0)) /\
    Read 32 rt_plain fs' (mkWebFileHandle (Some 0%nat) 0) 4 =
      (fs', mkWebFileHandle (Some 0%nat) 0, Returns (0, [])).
Proof.
  destruct (OpenFile_buffer_file 32 rt_plain true fs_buffer "b"
              FILE_FLAGS_FILE_CREATE_NEW 0%nat (deref fs_buffer 0%nat)
              (DataBuffer_new (abc ++ [Byte.x64]) 4))
    as (fs' & Ho & _ & _ & _ & _ & Hnew).
  - lia.
  - reflexivity.
  - reflexivity.
  - reflexivity.
  - reflexivity.
  - unfold DataBuffer_ok. cbn. lia.
  - exists fs'. split; [exact Ho |].
    destruct (Hnew eq_refl) as [_ Hread]. apply Hread. lia.
Defined.



(** X14.  [OpenFile] of a name that is not registered, on a host that
    cannot open the file ([duckdb_web_fs_file_open] returns null): the
    [catch] block erases the new file again, so both maps are as before the
    call, while the file id is used up.  When the destructor of the local
    handle does not obtain the file lock, the call ends with the exception
    "Opening file '<url>' failed with error: Failed to open file: <url>".
    When it obtains the lock, it closes the file in the host and looks the
    file up in [files_by_id_], where the [catch] block has erased it, and
    uses the end iterator: the call has no defined behaviour. *)
Theorem failed_OpenFile_of_new_file w rt have_file_lock fs url flags :
  files_by_name_ fs !! url = None ->
  files_by_id_ fs !! next_file_id_ fs = None ->
  rt_file_open rt (next_file_id_ fs) = Normal None ->
  files_by_name_ (fst (OpenFile w rt have_file_lock fs url flags)) =
    files_by_name_ fs /\
  files_by_id_ (fst (OpenFile w rt have_file_lock fs url flags)) =
    files_by_id_ fs /\
  next_file_id_ (fst (OpenFile w rt have_file_lock fs url flags)) =
    next_file_id_ fs + 1 /\
  snd (OpenFile w rt have_file_lock fs url flags) =
    if have_file_lock then Undefined
    else Throws ("Opening file '" +:+ url +:+
                 "' failed with error: Failed to open file: " +:+ url).
Proof.
  intros Hn Hi Hopen.
  destruct (OpenFile_fresh w rt have_file_lock fs url flags Hn Hi)
    as (fs2 & p & Ho & Hfresh & Hst & Hid & Hname & Hnext & _).
  assert (Hf2 : store fs2 !! p =
            Some (mkWebFile (next_file_id_ fs) url (inferDataProtocol url)
                            (Some url) None 0 None 1))
    by (rewrite Hst; apply lookup_insert_eq).
  rewrite Ho. unfold OpenFile_host.
  rewrite deref_log, (deref_Some fs2 p _ Hf2). cbn [file_id_ file_name_].
  rewrite Hopen. unfold OpenFile_abort.
  rewrite !deref_log.
  change (deref (set_files_by_name _ _) p) with (deref fs2 p).
  rewrite (deref_Some fs2 p _ Hf2). cbn [file_id_ file_name_].
  assert (Ei : forall m x, files_by_id_ (set_files_by_name m x) = files_by_id_ x)
    by reflexivity.
  assert (En : forall m x, files_by_name_ (set_files_by_id m x) = files_by_name_ x)
    by reflexivity.
  assert (Eil : forall e x, files_by_id_ (log e x) = files_by_id_ x)
    by reflexivity.
  assert (Enl : forall e x, files_by_name_ (log e x) = files_by_name_ x)
    by reflexivity.
  rewrite !Ei, !Eil, !Enl, Hid, Hname, lookup_insert_eq.
  rewrite (delete_insert_id _ _ _ Hn), (delete_insert_id _ _ _ Hi).
  change (deref (set_files_by_id _ _) p) with (deref fs2 p).
  rewrite (deref_Some fs2 p _ Hf2). cbn [file_id_ file_name_].
  unfold WebFileHandle_destroy, Close. cbn [file_].
  set (fs3 := update_file p _ _).
  assert (Hf3 : store fs3 !! p =
            Some (mkWebFile (next_file_id_ fs) url (inferDataProtocol url)
                            (Some url) None 0 None 0)).
  { subst fs3.
    erewrite (store_update_file_Some p
                (fun f => set_handle_count (handle_count_ f - 1) f))
      by exact Hf2.
    reflexivity. }
  rewrite (deref_Some fs3 p _ Hf3).
  cbn [handle_count_ data_protocol_ file_id_ file_name_].
  change (0 <? 0) with false. cbv iota.
  destruct have_file_lock; cbn [negb].
  - rewrite decide_False by apply inferDataProtocol_never_buffer.
    rewrite !deref_log, (deref_Some fs3 p _ Hf3). cbn [file_id_ file_name_].
    change (deref (set_files_by_name _ _) p) with (deref fs3 p).
    rewrite (deref_Some fs3 p _ Hf3). cbn [file_id_ file_name_].
    rewrite !Ei, !Eil, !Enl.
    change (files_by_id_ fs3) with (files_by_id_ fs).
    change (files_by_name_ fs3) with (files_by_name_ fs).
    rewrite Hi. cbn [fst snd].
    rewrite Ei, !Eil.
    change (files_by_id_ fs3) with (files_by_id_ fs).
    split; [cbn; apply delete_id; exact Hn |].
    split; [reflexivity |]. split; [exact Hnext | reflexivity].
  - cbn [fst snd]. split; [reflexivity |]. split; [reflexivity |].
    split; [exact Hnext |]. reflexivity.
Qed.

(** ["data/a.csv"] opened in the new filesystem on a host that cannot open
    any file, when the file lock is not obtained. *)
Lemma failed_OpenFile_of_new_file_witness :
  files_by_name_ (fst (OpenFile 32 rt_no_open false WebFileSystem_new "data/a.csv" 0))
    = ∅ /\
  snd (OpenFile 32 rt_no_open false WebFileSystem_new "data/a.csv" 0) =
    Throws "Opening file 'data/a.csv' failed with error: Failed to open file: data/a.csv".
Proof.
  destruct (failed_OpenFile_of_new_file 32 rt_no_open false WebFileSystem_new
              "data/a.csv" 0) as (Hn & _ & _ & Hr).
  - reflexivity.
  - reflexivity.
  - reflexivity.
  - split; [exact Hn | exact Hr].
Defined.

(** X15.  Registering a buffer and reading it back.  In a registry whose
    two maps agree, for a name that is new or belongs to an HTTP or BUFFER
    file: [RegisterFileBuffer(name, bytes)] returns a handle at position 0
    of a BUFFER file registered under [name]; [GetFileSize] is the number
    of bytes; and a sequential [Read] of that many bytes returns exactly
    [bytes], without the host. *)
Theorem RegisterFileBuffer_then_Read w rt fs file_name bytes :
  0 < w <= 64 ->
  registry_ok fs ->
  (forall p, files_by_name_ fs !! file_name = Some p ->
             data_protocol_ (deref fs p) <> NATIVE) ->
  Z.of_nat (length bytes) < 2 ^ w -> Z.of_nat (length bytes) < 2 ^ 63 ->
  exists fs' p,
    RegisterFileBuffer fs file_name
      (DataBuffer_new bytes (Z.of_nat (length bytes))) =
      (fs', Value (mkWebFileHandle (Some p) 0)) /\
    files_by_name_ fs' !! file_name = Some p /\
    data_protocol_ (deref fs' p) = BUFFER /\
    GetFileSize fs' (mkWebFileHandle (Some p) 0) =
      Returns (Z.of_nat (length bytes)) /\
    Read w rt fs' (mkWebFileHandle (Some p) 0) (Z.of_nat (length bytes)) =
      (fs', mkWebFileHandle (Some p) (Z.of_nat (length bytes)),
       Returns (Z.of_nat (length bytes), bytes)).
Proof.
  intros Hw Hok Hproto Hlen Hlen63.
  set (n := Z.of_nat (length bytes)) in *.
  set (b := DataBuffer_new bytes n).
  assert (Hb : DataBuffer_ok w b) by (unfold DataBuffer_ok; cbn; lia).
  assert (Hfinish : forall fs' p f',
            store fs' !! p = Some f' -> data_protocol_ f' = BUFFER ->
            data_buffer_ f' = Some b -> file_size_ f' = n ->
            data_protocol_ (deref fs' p) = BUFFER /\
            GetFileSize fs' (mkWebFileHandle (Some p) 0) = Returns n /\
            Read w rt fs' (mkWebFileHandle (Some p) 0) n =
              (fs', mkWebFileHandle (Some p) n, Returns (n, bytes))).
  { intros fs' p f' Hf' Hp' Hb' Hs'.
    split; [rewrite (deref_Some _ _ _ Hf'); exact Hp' |].
    split.
    { unfold GetFileSize. cbn [file_]. rewrite (deref_Some _ _ _ Hf'), Hs'.
      rewrite i64_small by lia. reflexivity. }
    rewrite (Read_buffer_returns w rt fs' (mkWebFileHandle (Some p) 0) p f' b n Hw
               eq_refl Hf' Hp' Hb' Hb);
      [ | cbn; lia | cbn; lia | lia ].
    cbn [position_ size_ b DataBuffer_new data_ set_position file_].
    replace (Z.min n (n - 0)) with n by lia.
    unfold n. rewrite Nat2Z.id. cbn [Z.to_nat drop]. rewrite firstn_all.
    reflexivity. }
  unfold RegisterFileBuffer.
  change (files_by_name_ (log FsLock fs)) with (files_by_name_ fs).
  destruct (files_by_name_ fs !! file_name) as [p |] eqn:Hn.
  - destruct (by_name_ok fs Hok _ _ Hn) as ([f Hf] & _ & _).
    specialize (Hproto p eq_refl).
    change (deref (log FsLock fs) p) with (deref fs p).
    assert (Hcase : forall fs0,
              store fs0 !! p = Some f ->
              files_by_name_ fs0 = files_by_name_ fs ->
              let '(fs1, handle) :=
                WebFileHandle_new p
                  (update_file p (set_data_buffer (Some b))
                     (update_file p (set_file_size (size_ b))
                        (update_file p (set_data_protocol BUFFER) fs0))) in
              exists fs' q,
                (log FsUnlock fs1, Value handle) =
                  (fs', Value (mkWebFileHandle (Some q) 0)) /\
                files_by_name_ fs' !! file_name = Some q /\
                data_protocol_ (deref fs' q) = BUFFER /\
                GetFileSize fs' (mkWebFileHandle (Some q) 0) = Returns n /\
                Read w rt fs' (mkWebFileHandle (Some q) 0) n =
                  (fs', mkWebFileHandle (Some q) n, Returns (n, bytes))).
    { intros fs0 Hf0 Hn0. unfold WebFileHandle_new.
      eexists _, p. split; [reflexivity |].
      split; [cbn; rewrite Hn0; exact Hn |].
      eapply Hfinish.
      - rewrite store_log.
        apply (store_update_file_Some p
                 (fun f => set_handle_count (handle_count_ f + 1) f)).
        apply store_update_file_Some, store_update_file_Some,
          store_update_file_Some. exact Hf0.
      - reflexivity.
      - reflexivity.
      - reflexivity. }
    destruct (data_protocol_ (deref fs p)); [| congruence |];
      apply (Hcase (log FsLock fs) Hf eq_refl).
  - unfold AllocateFileID, make_shared, WebFileHandle_new.
    cbn -[fresh b].
    set (p := fresh (dom (store fs))).
    eexists _, p. split; [reflexivity |].
    split.
    { cbn -[fresh]. rewrite map_insert_new_fresh by exact Hn.
      apply lookup_insert_eq. }
    eapply Hfinish.
    + unfold update_file, set_store, log; cbn -[fresh b].
      rewrite lookup_alter, decide_True, lookup_insert_eq by reflexivity.
      reflexivity.
    + reflexivity.
    + reflexivity.
    + reflexivity.
Qed.

(** [abc] registered as ["t.bin"] in the new filesystem and read back. *)
Lemma RegisterFileBuffer_then_Read_witness :
  exists fs' p,
    RegisterFileBuffer WebFileSystem_new "t.bin" (DataBuffer_new abc 3) =
      (fs', Value (mkWebFileHandle (Some p) 0)) /\
    Read 32 rt_plain fs' (mkWebFileHandle (Some p) 0) 3 =
      (fs', mkWebFileHandle (Some p) 3, Returns (3, abc)).
Proof.
  destruct (RegisterFileBuffer_then_Read 32 rt_plain WebFileSystem_new "t.bin" abc)
    as (fs' & p & Hr & _ & _ & _ & Hread).
  - lia.
  - apply registry_ok_new.
  - intros p Hp. cbn in Hp. rewrite lookup_empty in Hp. discriminate.
  - cbn. lia.
  - cbn. lia.
  - exists fs', p. split; [exact Hr | exact Hread].
Defined.

(** X16.  [FileExists] sees the registry before it asks the host: after
    [RegisterFileURL] or [RegisterFileBuffer] of a name, however the call
    ended, the name exists whatever the host says; and after a
    [TryDropFile] that returned [true], in a registry whose maps agree, the
    answer is the host's. *)
Theorem FileExists_follows_registry host_exists fs file_name :
  (forall file_url file_size,
     FileExists host_exists
       (fst (RegisterFileURL fs file_name file_url file_size)) file_name = true) /\
  (forall file_buffer,
     FileExists host_exists
       (fst (RegisterFileBuffer fs file_name file_buffer)) file_name = true) /\
  (registry_ok fs -> snd (TryDropFile fs file_name) = true ->
   FileExists host_exists (fst (TryDropFile fs file_name)) file_name =
     host_exists file_name).
Proof.
  assert (Hreg : forall fs', grows fs fs' ->
            (files_by_name_ fs !! file_name = None ->
             is_Some (files_by_name_ fs' !! file_name)) ->
            FileExists host_exists fs' file_name = true).
  { intros fs' (_ & _ & Hg) Hnew. unfold FileExists.
    destruct (files_by_name_ fs !! file_name) as [p |] eqn:Hn.
    - rewrite (Hg _ _ Hn). reflexivity.
    - destruct (Hnew eq_refl) as [p ->]. reflexivity. }
  split; [| split].
  - intros file_url file_size.
    apply Hreg; [apply RegisterFileURL_grows |]. intros Hn.
    unfold RegisterFileURL.
    change (files_by_name_ (log FsLock fs)) with (files_by_name_ fs).
    rewrite Hn. unfold AllocateFileID, make_shared, WebFileHandle_new.
    cbn -[fresh]. rewrite map_insert_new_fresh by exact Hn.
    rewrite lookup_insert_eq. eauto.
  - intros file_buffer.
    apply Hreg; [apply RegisterFileBuffer_grows |]. intros Hn.
    unfold RegisterFileBuffer.
    change (files_by_name_ (log FsLock fs)) with (files_by_name_ fs).
    rewrite Hn. unfold AllocateFileID, make_shared, WebFileHandle_new.
    cbn -[fresh]. rewrite map_insert_new_fresh by exact Hn.
    rewrite lookup_insert_eq. eauto.
  - intros Hok. unfold TryDropFile, FileExists.
    change (files_by_name_ (log FsLock fs)) with (files_by_name_ fs).
    destruct (files_by_name_ fs !! file_name) as [p |] eqn:Hn.
    + destruct (by_name_ok fs Hok _ _ Hn) as (_ & Hname & _).
      change (deref (log FsLock fs)) with (deref fs).
      destruct (handle_count_ (deref fs p) =? 0); [| discriminate].
      intros _. cbn [fst files_by_name_ log set_files_by_name].
      change (deref (set_files_by_id _ _) p) with (deref fs p).
      rewrite Hname, lookup_delete_eq. reflexivity.
    + intros _. cbn [fst files_by_name_ log]. rewrite Hn. reflexivity.
Qed.

(** The handle of ["b"] is closed, the file dropped, and the host does not
    know the name. *)
Lemma FileExists_follows_registry_witness :
  FileExists (fun _ => false)
    (fst (TryDropFile (fst (Close true fs_buffer first_handle)) "b")) "b" = false.
Proof.
  destruct (FileExists_follows_registry (fun _ => false)
              (fst (Close true fs_buffer first_handle)) "b") as (_ & _ & H).
  apply H.
  - apply Close_registry_ok.
    + apply RegisterFileBuffer_registry_ok, registry_ok_new.
    + intros p [= <-]. split; reflexivity.
  - reflexivity.
Defined.

(* ===================================================================== *)
(** * File infos and globbing *)
(* ===================================================================== *)



Section StringOrder.

Lemma string_le_total a b : string_le a b \/ string_le b a.
Proof. apply String.leb_total. Qed.

Lemma string_lt_le a b : string_lt a b -> string_le a b.
Proof.
  unfold string_lt, string_le, String.ltb, String.leb.
  destruct (String.compare a b); congruence.
Qed.

Lemma string_le_lt a b : string_le a b -> a <> b -> string_lt a b.
Proof.
  unfold string_lt, string_le, String.ltb, String.leb. intros Hle Hne.
  destruct (String.compare a b) eqn:E; try congruence.
  apply String.compare_eq_iff in E. contradiction.
Qed.

Lemma string_lt_iff a b : string_lt a b <-> OrderedTypeEx.String_as_OT.lt a b.
Proof.
  unfold string_lt, String.ltb.
  rewrite <- OrderedTypeEx.String_as_OT.cmp_lt.
  unfold OrderedTypeEx.String_as_OT.cmp.
  destruct (String.compare a b); split; congruence.
Qed.

Lemma string_lt_trans a b c : string_lt a b -> string_lt b c -> string_lt a c.
Proof.
  rewrite !string_lt_iff. apply OrderedTypeEx.String_as_OT.lt_trans.
Qed.

Lemma string_lt_ne a b : string_lt a b -> a <> b.
Proof.
  rewrite string_lt_iff. apply OrderedTypeEx.String_as_OT.lt_not_eq.
Qed.

Lemma string_lt_le_trans a b c : string_lt a b -> string_le b c -> string_lt a c.
Proof.
  intros Hab Hbc. destruct (decide (b = c)) as [<- | Hne]; [exact Hab |].
  eapply string_lt_trans; [exact Hab | apply string_le_lt; assumption].
Qed.

Lemma string_le_trans a b c : string_le a b -> string_le b c -> string_le a c.
Proof.
  intros Hab Hbc. destruct (decide (a = b)) as [-> | Hne]; [exact Hbc |].
  apply string_lt_le. eapply string_lt_le_trans; [| exact Hbc].
  apply string_le_lt; assumption.
Qed.

#[local] Instance string_le_Total : Total string_le.
Proof. intros a b. apply string_le_total. Qed.

#[local] Instance string_le_Transitive : Transitive string_le.
Proof. intros a b c. apply string_le_trans. Qed.

(** [std::unique] on a sorted vector leaves a strictly increasing one with
    the same elements. *)
Lemma unique_after_sorted x l :
  Forall (string_le x) l -> StronglySorted string_le l ->
  StronglySorted string_lt (unique_after x l) /\
  Forall (string_lt x) (unique_after x l) /\
  (forall y, y ∈ unique_after x l <-> y ∈ l /\ y <> x).
Proof.
  revert x. induction l as [| y rest IH]; intros x Hx Hs.
  - cbn. split; [constructor |]. split; [constructor |].
    intros y. rewrite elem_of_nil. tauto.
  - apply StronglySorted_inv in Hs as [Hs Hy].
    apply Forall_cons in Hx as [Hxy Hx]. cbn [unique_after].
    destruct (String.eqb_spec x y) as [<- | Hne].
    + destruct (IH x Hx Hs) as (H1 & H2 & H3).
      split; [exact H1 |]. split; [exact H2 |].
      intros z. rewrite H3, elem_of_cons. split; [tauto |].
      intros [[-> | Hz] Hzx]; [contradiction | tauto].
    + destruct (IH y Hy Hs) as (H1 & H2 & H3).
      assert (Hlt : string_lt x y) by (apply string_le_lt; assumption).
      split; [constructor; assumption |].
      split.
      { constructor; [exact Hlt |].
        eapply Forall_impl; [exact H2 |]. intros z Hz.
        eapply string_lt_trans; eassumption. }
      intros z. rewrite !elem_of_cons, H3. split.
      * intros [-> | [Hz Hzy]].
        -- split; [tauto | congruence].
        -- split; [tauto |]. intros ->.
           rewrite Forall_forall in Hy. specialize (Hy _ Hz).
           apply (string_lt_ne x x); [| reflexivity].
           eapply string_lt_le_trans; eassumption.
      * intros [[-> | Hz] Hzx]; [tauto |].
        destruct (decide (z = y)); tauto.
Qed.

Lemma unique_sorted l :
  Sorted string_le l ->
  StronglySorted string_lt (unique l) /\ (forall y, y ∈ unique l <-> y ∈ l).
Proof.
  intros Hs. apply Sorted_StronglySorted in Hs; [| apply _].
  destruct l as [| x rest]; [split; [constructor | reflexivity] |].
  apply StronglySorted_inv in Hs as [Hs Hx]. cbn [unique].
  destruct (unique_after_sorted x rest Hx Hs) as (H1 & H2 & H3).
  split; [constructor; assumption |].
  intros y. rewrite !elem_of_cons, H3.
  destruct (decide (y = x)); tauto.
Qed.

(** The names that the first loop of [Glob] collects. *)
Lemma Glob_scan (keep : string * addr -> bool) (l : list (string * addr)) acc x :
  x ∈ foldl (fun results entry =>
               if keep entry then results ++ [fst entry] else results) acc l <->
  x ∈ acc \/ exists entry, entry ∈ l /\ keep entry = true /\ fst entry = x.
Proof.
  revert acc. induction l as [| e l IH]; intros acc; cbn [foldl].
  - split; [tauto |]. intros [H | (e & He & _)]; [exact H |].
    apply elem_of_nil in He. contradiction.
  - rewrite IH. destruct (keep e) eqn:Ek.
    + rewrite elem_of_app, list_elem_of_singleton. split.
      * intros [[H | ->] | (e' & He' & Hk & Hx)]; [tauto | |].
        -- right. exists e. split; [left | tauto].
        -- right. exists e'. split; [right; exact He' | tauto].
      * intros [H | (e' & He' & Hk & Hx)]; [tauto |].
        apply elem_of_cons in He' as [-> | He']; [left; right; congruence |].
        right. exists e'. tauto.
    + split.
      * intros [H | (e' & He' & Hk & Hx)]; [tauto |].
        right. exists e'. split; [right; exact He' | tauto].
      * intros [H | (e' & He' & Hk & Hx)]; [tauto |].
        apply elem_of_cons in He' as [-> | He']; [congruence |].
        right. exists e'. tauto.
Qed.

End StringOrder.

(** X18.  [Glob] returns a strictly increasing vector of names, that is a
    sorted one without duplicates, and a name is in it exactly when it is a
    registered name whose file name matches the pattern or one of the names
    the host's glob delivers. *)
Theorem Glob_spec glob_match host_glob fs path :
  StronglySorted string_lt (snd (Glob glob_match host_glob fs path)) /\
  forall name,
    name ∈ snd (Glob glob_match host_glob fs path) <->
    (exists p, files_by_name_ fs !! name = Some p /\
               glob_match path (file_name_ (deref fs p)) = true) \/
    name ∈ host_glob path.
Proof.
  unfold Glob. cbn [snd].
  set (results := foldl _ _ _ ++ host_glob path).
  destruct (unique_sorted (merge_sort string_le results)) as [Hs Hm].
  { apply Sorted_merge_sort. intros a b. apply string_le_total. }
  split; [exact Hs |]. intros name. rewrite Hm, merge_sort_Permutation.
  subst results. rewrite elem_of_app.
  rewrite (Glob_scan
             (fun entry => glob_match path
                             (file_name_ (deref (log FsLock fs) (snd entry))))).
  rewrite elem_of_nil. split.
  - intros [[[] | ([n p] & He & Hk & Hx)] | Hh]; [| tauto].
    apply elem_of_map_to_list in He. cbn in Hx. subst n.
    left. exists p. split; [exact He | exact Hk].
  - intros [(p & Hp & Hk) | Hh]; [| tauto].
    left. right. exists (name, p).
    split; [apply elem_of_map_to_list; exact Hp |]. split; [exact Hk | reflexivity].
Qed.

Lemma GlobFileInfos_loop allow_full_http_reads files fs items :
  registry_ok fs ->
  FindMember "fileName" <$>
    snd (foldl (fun acc file =>
                  let '(fs, value) :=
                    WriteFileInfo_by_name allow_full_http_reads (fst acc) file in
                  (fs, if IsNull value then snd acc else snd acc ++ [value]))
               (fs, items) files) =
  (FindMember "fileName" <$> items) ++ ((fun name => Some (JString name)) <$> files).
Proof.
  revert fs items. induction files as [| file files IH]; intros fs items Hok.
  - cbn. rewrite app_nil_r. reflexivity.
  - cbn [foldl fst snd].
    assert (Hv : exists value,
              WriteFileInfo_by_name allow_full_http_reads fs file =
                (log FsUnlock (log FsLock fs), value) /\
              IsNull value = false /\
              FindMember "fileName" value = Some (JString file)).
    { unfold WriteFileInfo_by_name.
      change (files_by_name_ (log FsLock fs)) with (files_by_name_ fs).
      destruct (files_by_name_ fs !! file) as [p |] eqn:Hn.
      - destruct (by_name_ok fs Hok _ _ Hn) as (_ & Hname & _).
        eexists. split; [reflexivity |]. rewrite deref_log, <- Hname.
        split; reflexivity.
      - eexists. split; [reflexivity |]. split; reflexivity. }
    destruct Hv as (value & -> & Hnull & Hname). rewrite Hnull.
    rewrite IH.
    + rewrite fmap_app, <- app_assoc. cbn. rewrite Hname. reflexivity.
    + apply (registry_ok_updates fs); [exact Hok |].
      apply updates_log, updates_log, updates_refl.
Qed.

(** X19.  [GlobFileInfos] without a filesystem fails with "WebFileSystem is
    not configured".  With a filesystem whose two maps agree, it returns one
    file info for every name that [Glob] returns, in the same order, each
    with that name as [fileName]: also the names that only the host's glob
    knows get an info. *)
Theorem GlobFileInfos_spec allow_full_http_reads glob_match host_glob fs expression :
  registry_ok fs ->
  snd (GlobFileInfos allow_full_http_reads glob_match host_glob None expression) =
    Error (Status_Invalid "WebFileSystem is not configured") /\
  exists items,
    snd (GlobFileInfos allow_full_http_reads glob_match host_glob (Some fs)
           expression) = Value items /\
    FindMember "fileName" <$> items =
      (fun name => Some (JString name)) <$>
        snd (Glob glob_match host_glob fs expression).
Proof.
  intros Hok. split; [reflexivity |]. unfold GlobFileInfos.
  destruct (Glob glob_match host_glob fs expression) as [fs1 files] eqn:Hg.
  assert (Hok1 : registry_ok fs1).
  { unfold Glob in Hg. injection Hg as <- _.
    apply (registry_ok_updates fs); [exact Hok |].
    apply updates_log, updates_log, updates_refl. }
  pose proof (GlobFileInfos_loop allow_full_http_reads files fs1 [] Hok1) as Hl.
  destruct (foldl _ _ files) as [fs2 items]. cbn [snd] in *.
  exists items. split; [reflexivity |]. exact Hl.
Qed.

(** The infos of the names matching a pattern that matches everything, on
    a host that knows no file: the one file of [fs_buffer]. *)
Lemma GlobFileInfos_spec_witness :
  exists items,
    snd (GlobFileInfos false (fun _ _ => true) (fun _ => []) (Some fs_buffer) "*")
      = Value items /\
    FindMember "fileName" <$> items =
      (fun name => Some (JString name)) <$>
        snd (Glob (fun _ _ => true) (fun _ => []) fs_buffer "*").
Proof.
  apply (GlobFileInfos_spec false (fun _ _ => true) (fun _ => []) fs_buffer "*").
  apply RegisterFileBuffer_registry_ok, registry_ok_new.
Defined.

(* ===================================================================== *)
(** * Prepared statements and their arguments *)
(* ===================================================================== *)

Section ExecuteArguments.
Variable double : Type.

Lemma convert_arguments_stops (pre : list (@JsonArg double)) v post index values :
  Forall (fun a => is_Some (convert_argument a)) pre ->
  convert_argument v = None ->
  convert_arguments index (pre ++ v :: post) values =
    inl (index + Z.of_nat (length pre)).
Proof.
  intros Hpre Hv. revert index values.
  induction Hpre as [| a pre [x Ha] _ IH]; intros index values.
  - cbn. rewrite Hv. f_equal. lia.
  - cbn [app convert_arguments]. rewrite Ha, IH. f_equal.
    rewrite length_cons. lia.
Qed.

Lemma convert_arguments_all (args : list (@JsonArg double)) xs index values :
  Forall2 (fun a x => convert_argument a = Some x) args xs ->
  convert_arguments index args values = inr (values ++ xs).
Proof.
  intros H. revert index values.
  induction H as [| a x args xs Ha _ IH]; intros index values.
  - cbn. rewrite app_nil_r. reflexivity.
  - cbn [convert_arguments]. rewrite Ha, IH, <- app_assoc. reflexivity.
Qed.

End ExecuteArguments.

(** X20.  [ExecutePreparedStatement] checks in this order.  An id without
    a statement gives [KeyError], whatever the arguments text is.  Arguments
    that are an array whose first unsupported element (a number that is not
    a lossless double, an array, an object) stands at index [i], after
    supported ones, give [Invalid] with the message "Invalid column type
    encountered for argument <i>", and the statement is not executed.
    An array of supported elements is converted element by element, in
    order, and executed; a result that is not a success and an exception
    both give [ExecutionError]. *)
Theorem ExecutePreparedStatement_arguments (double : Type)
    (parse : string -> @ArgsDocument double)
    (Execute : PreparedStatement -> list (@DuckValue double) -> Exc QueryResult)
    (c : Connection) (statement_id : Z) (args_json : string) :
  (prepared_statements_ c !! statement_id = None ->
   ExecutePreparedStatement parse Execute c statement_id args_json =
     Error (mkStatus KeyError "No prepared statement found with ID")) /\
  (forall stmt pre v post,
     prepared_statements_ c !! statement_id = Some stmt ->
     parse args_json = ArgsArray (pre ++ v :: post) ->
     Forall (fun a => is_Some (convert_argument a)) pre ->
     convert_argument v = None ->
     ExecutePreparedStatement parse Execute c statement_id args_json =
       Error (mkStatus Invalid
                ("Invalid column type encountered for argument " +:+
                 show_Z (Z.of_nat (length pre))))) /\
  (forall stmt args values,
     prepared_statements_ c !! statement_id = Some stmt ->
     parse args_json = ArgsArray args ->
     Forall2 (fun a x => convert_argument a = Some x) args values ->
     ExecutePreparedStatement parse Execute c statement_id args_json =
       match Execute stmt values with
       | Throw what => Error (mkStatus ExecutionError what)
       | Normal result =>
           if result_success result then Value result
           else Error (mkStatus ExecutionError (result_error result))
       end).
Proof.
  unfold ExecutePreparedStatement. split; [| split].
  - intros ->. reflexivity.
  - intros stmt pre v post -> -> Hpre Hv.
    rewrite (convert_arguments_stops double pre v post 0 [] Hpre Hv).
    reflexivity.
  - intros stmt args values -> -> Hall.
    rewrite (convert_arguments_all double args values 0 [] Hall).
    cbn [app]. destruct (Execute stmt values) as [result | what]; [| reflexivity].
    destruct (result_success result); reflexivity.
Qed.

(** Statement 0 of [holding_first], with the arguments [[1, "a", [2]]]:
    the third argument, at index 2, is an array. *)
Lemma ExecutePreparedStatement_arguments_witness :
  ExecutePreparedStatement
    (fun _ => ArgsArray [ArgNumber true 1; ArgString "a"; ArgOther])
    (fun _ _ => Normal (mkQueryResult true EmptyString))
    (holding_first 1) 0 "[1, 'a', [2]]" =
  Error (mkStatus Invalid "Invalid column type encountered for argument 2").
Proof.
  destruct (ExecutePreparedStatement_arguments Z
              (fun _ => ArgsArray [ArgNumber true 1; ArgString "a"; ArgOther])
              (fun _ _ => Normal (mkQueryResult true EmptyString))
              (holding_first 1) 0 "[1, 'a', [2]]") as (_ & H & _).
  apply (H select_1 [ArgNumber true 1; ArgString "a"] ArgOther []).
  - reflexivity.
  - reflexivity.
  - repeat constructor; cbn; eauto.
  - reflexivity.
Defined.

(** X21.  The life of a prepared statement.  When the counter points at an
    id that has no statement, [CreatePreparedStatement] of a statement that
    the engine prepares returns that id and files the statement under it;
    [ClosePreparedStatement] of the id then returns OK and leaves the table
    of statements exactly as it was before the creation; after that, both
    [ExecutePreparedStatement] and a second [ClosePreparedStatement] of the
    id give [KeyError]. *)
Theorem prepared_statement_life_cycle (double : Type) w eng
    (parse : string -> @ArgsDocument double)
    (Execute : PreparedStatement -> list (@DuckValue double) -> Exc QueryResult)
    c text prep args_json :
  0 < w ->
  0 <= next_prepared_statement_id_ c < SIZE_MAX w ->
  prepared_statements_ c !! next_prepared_statement_id_ c = None ->
  Prepare eng text = Normal prep -> success prep = true ->
  exists c1 c2,
    CreatePreparedStatement w eng c text =
      (c1, Value (next_prepared_statement_id_ c)) /\
    prepared_statements_ c1 !! next_prepared_statement_id_ c = Some prep /\
    ClosePreparedStatement c1 (next_prepared_statement_id_ c) = (c2, Status_OK) /\
    prepared_statements_ c2 = prepared_statements_ c /\
    ExecutePreparedStatement parse Execute c2 (next_prepared_statement_id_ c)
      args_json =
      Error (mkStatus KeyError "No prepared statement found with ID") /\
    ClosePreparedStatement c2 (next_prepared_statement_id_ c) =
      (c2, mkStatus KeyError "No prepared statement found with ID").
Proof.
  intros Hw Hn Hfree Hprep Hsucc.
  destruct (CreatePreparedStatement w eng c text) as [c1 r] eqn:Hc.
  assert (Hr : r = Value (next_prepared_statement_id_ c)).
  { revert Hc. unfold CreatePreparedStatement. rewrite Hprep, Hsucc. cbn.
    intros [= _ <-]. reflexivity. }
  subst r.
  destruct (CreatePreparedStatement_value w eng c text c1 _ Hn Hc)
    as (_ & _ & prep' & Hp' & Ht).
  rewrite Hprep in Hp'. injection Hp' as <-.
  rewrite map_insert_new_fresh in Ht by exact Hfree.
  assert (H1 : prepared_statements_ c1 !! next_prepared_statement_id_ c = Some prep)
    by (rewrite Ht; apply lookup_insert_eq).
  exists c1. unfold ClosePreparedStatement at 1. rewrite H1.
  eexists. split; [reflexivity |]. split; [reflexivity |].
  split; [reflexivity |].
  assert (H2 : delete (next_prepared_statement_id_ c) (prepared_statements_ c1) =
               prepared_statements_ c).
  { rewrite Ht. apply delete_insert_id. exact Hfree. }
  cbn [prepared_statements_ set_prepared_statements]. rewrite H2.
  split; [reflexivity |].
  unfold ExecutePreparedStatement, ClosePreparedStatement.
  cbn [prepared_statements_ set_prepared_statements]. rewrite ?H2, Hfree.
  split; reflexivity.
Qed.

(** ["SELECT 1"] created on a new connection of a 64-bit target, closed,
    and executed. *)
Lemma prepared_statement_life_cycle_witness :
  exists c1 c2,
    CreatePreparedStatement 64 eng_plain Connection_new "SELECT 1" = (c1, Value 0) /\
    ClosePreparedStatement c1 0 = (c2, Status_OK) /\
    ExecutePreparedStatement (fun _ => @NotArray Z)
      (fun _ _ => Normal (mkQueryResult true EmptyString)) c2 0 "[]" =
      Error (mkStatus KeyError "No prepared statement found with ID").
Proof.
  destruct (prepared_statement_life_cycle Z 64 eng_plain (fun _ => NotArray)
              (fun _ _ => Normal (mkQueryResult true EmptyString))
              Connection_new "SELECT 1" select_1 "[]")
    as (c1 & c2 & H1 & _ & H2 & _ & H3 & _).
  - lia.
  - unfold SIZE_MAX. cbn. lia.
  - reflexivity.
  - reflexivity.
  - reflexivity.
  - exists c1, c2. split; [exact H1 |]. split; [exact H2 | exact H3].
Defined.

(* ===================================================================== *)
(** * An Arrow IPC stream in several calls *)
(* ===================================================================== *)

(** X22.  An Arrow IPC stream that arrives in two calls.  The first call
    reads the options and keeps the decoder with its bytes; it returns OK.
    The second call does not read its options text at all.  When the
    decoder then sees the end of the stream, the table function gets all
    the bytes of both calls and the options of the first call, and
    afterwards decoder and options are reset, whether the engine took the
    data (OK) or threw (UnknownError).  The prepared statements are not
    touched. *)
Theorem InsertArrowFromIPCStream_two_calls eng c chunk1 chunk2 options_json
    later_json options :
  arrow_ipc_stream_ c = None ->
  options_ReadFrom eng options_json = Normal (Value options) ->
  ipc_consume eng [] chunk1 = Normal Status_OK ->
  ipc_is_eos eng chunk1 = false ->
  ipc_consume eng chunk1 chunk2 = Normal Status_OK ->
  ipc_is_eos eng (chunk1 ++ chunk2) = true ->
  ok (ExportRecordBatchReader eng (chunk1 ++ chunk2)) = true ->
  exists c1 c2,
    InsertArrowFromIPCStream eng c chunk1 options_json = (c1, Returns Status_OK) /\
    arrow_ipc_stream_ c1 = Some chunk1 /\
    arrow_insert_options_ c1 = Some options /\
    InsertArrowFromIPCStream eng c1 chunk2 later_json =
      (c2, match arrow_scan eng options (chunk1 ++ chunk2) with
           | Normal _ => Returns Status_OK
           | Throw what => Returns (mkStatus UnknownError what)
           end) /\
    arrow_ipc_stream_ c2 = None /\ arrow_insert_options_ c2 = None /\
    prepared_statements_ c2 = prepared_statements_ c /\
    next_prepared_statement_id_ c2 = next_prepared_statement_id_ c.
Proof.
  intros Hc Hopt Hc1 He1 Hc2 He2 Hexp.
  unfold InsertArrowFromIPCStream at 1.
  unfold InsertArrowFromIPCStream_try, InsertArrowFromIPCStream_begin.
  rewrite Hc, Hopt. unfold InsertArrowFromIPCStream_consume.
  cbn [arrow_ipc_stream_ set_arrow_ipc_stream set_arrow_insert_options].
  rewrite Hc1. cbn [ok code Status_OK negb app]. rewrite He1. cbn [negb].
  eexists. eexists. split; [reflexivity |].
  split; [reflexivity |]. split; [reflexivity |].
  unfold InsertArrowFromIPCStream, InsertArrowFromIPCStream_try,
    InsertArrowFromIPCStream_begin, InsertArrowFromIPCStream_consume,
    InsertArrowFromIPCStream_finish.
  cbn [arrow_ipc_stream_ set_arrow_ipc_stream set_arrow_insert_options
       arrow_insert_options_].
  rewrite Hc2. cbn [ok code Status_OK negb]. rewrite He2. cbn [negb].
  unfold ok in Hexp. 
  destruct (code (ExportRecordBatchReader eng (chunk1 ++ chunk2))) eqn:Ec;
    try discriminate.
  unfold ok. rewrite Ec. cbn [negb].
  destruct (arrow_scan eng options (chunk1 ++ chunk2)) as [[] | what].
  - split; [reflexivity |]. cbn. auto.
  - split; [reflexivity |]. cbn. auto.
Qed.

(** [abc] twice, to an engine that sees the end of the stream behind the
    second chunk. *)
Lemma InsertArrowFromIPCStream_two_calls_witness :
  exists c1 c2,
    InsertArrowFromIPCStream eng_stream_end Connection_new abc "{}" =
      (c1, Returns Status_OK) /\
    arrow_ipc_stream_ c1 = Some abc /\
    InsertArrowFromIPCStream eng_stream_end c1 abc "ignored" =
      (c2, Returns Status_OK) /\
    arrow_ipc_stream_ c2 = None /\ arrow_insert_options_ c2 = None.
Proof.
  destruct (InsertArrowFromIPCStream_two_calls eng_stream_end Connection_new
              abc abc "{}" "ignored" (mkArrowInsertOptions "main" "t" true))
    as (c1 & c2 & H1 & Hs1 & _ & H2 & Hs2 & Ho2 & _).
  - reflexivity.
  - reflexivity.
  - reflexivity.
  - reflexivity.
  - reflexivity.
  - reflexivity.
  - reflexivity.
  - exists c1, c2. split; [exact H1 |]. split; [exact Hs1 |].
    split; [exact H2 |]. split; [exact Hs2 | exact Ho2].
Defined.



(* ===================================================================== *)
(** * Truncating and positional round trips *)
(* ===================================================================== *)

(** X24.  [Truncate] on a BUFFER file to a size in [size_t]: the call
    returns without the host; the buffer and the file then have the new
    size, the buffer is again one array of [capacity_] bytes, and the first
    [min old_size new_size] bytes are as before.  Both maps stay, and
    [GetFileSize] is the new size. *)
Theorem Truncate_buffer_spec w rt fs h p f b new_size :
  0 < w <= 64 ->
  file_ h = Some p -> store fs !! p = Some f ->
  data_protocol_ f = BUFFER -> data_buffer_ f = Some b -> DataBuffer_ok w b ->
  0 <= new_size < 2 ^ w -> new_size < 2 ^ 63 ->
  exists fs' f' b',
    Truncate w rt fs h new_size = (fs', Returns tt) /\
    store fs' = <[p := f']> (store fs) /\
    files_by_name_ fs' = files_by_name_ fs /\
    files_by_id_ fs' = files_by_id_ fs /\
    events fs' = events fs ++ [FsLock; FsUnlock] /\
    data_protocol_ f' = BUFFER /\ data_buffer_ f' = Some b' /\
    DataBuffer_ok w b' /\ size_ b' = new_size /\ file_size_ f' = new_size /\
    take (Z.to_nat (Z.min (size_ b) new_size)) (data_ b') =
      take (Z.to_nat (Z.min (size_ b) new_size)) (data_ b) /\
    GetFileSize fs' h = Returns new_size.
Proof.
  intros Hw Hh Hf Hp Hb Hok Hn Hn63.
  pose proof (pow2_le_64 w Hw) as H64.
  destruct (Truncate_buffer_effect w rt fs h p f b new_size Hh Hf Hp Hb)
    as [Hret Hst].
  assert (Hmaps : files_by_name_ (fst (Truncate w rt fs h new_size)) =
                    files_by_name_ fs /\
                  files_by_id_ (fst (Truncate w rt fs h new_size)) =
                    files_by_id_ fs /\
                  events (fst (Truncate w rt fs h new_size)) =
                    events fs ++ [FsLock; FsUnlock]).
  { unfold Truncate. rewrite Hh, (deref_Some fs p f Hf), Hp, Hb.
    cbn. rewrite <- app_assoc. auto. }
  destruct (Truncate w rt fs h new_size) as [fs' r]. cbn [fst snd] in *.
  subst r. rewrite u64_small, usize_small in Hst by lia.
  destruct Hmaps as (Hmn & Hmi & Hev).
  eexists fs', _, (Resize w b new_size).
  split; [reflexivity |]. split; [exact Hst |].
  split; [exact Hmn |]. split; [exact Hmi |]. split; [exact Hev |].
  split; [exact Hp |]. split; [reflexivity |].
  split; [apply Resize_ok; [lia | exact Hok | exact Hn] |].
  split; [apply Resize_size |]. split; [reflexivity |].
  split; [apply Resize_prefix; [exact Hok | lia | lia] |].
  unfold GetFileSize. rewrite Hh.
  erewrite deref_Some by (rewrite Hst; apply lookup_insert_eq).
  cbn. rewrite i64_small by lia. reflexivity.
Qed.

(** The four bytes of [fs_buffer] truncated to two. *)
Lemma Truncate_buffer_spec_witness :
  exists fs' f' b',
    Truncate 32 rt_plain fs_buffer first_handle 2 = (fs', Returns tt) /\
    store fs' !! 0%nat = Some f' /\ data_buffer_ f' = Some b' /\
    take 2 (data_ b') = [Byte.x61; Byte.x62] /\
    GetFileSize fs' first_handle = Returns 2.
Proof.
  destruct (Truncate_buffer_spec 32 rt_plain fs_buffer first_handle 0%nat
              (deref fs_buffer 0%nat) (DataBuffer_new (abc ++ [Byte.x64]) 4) 2)
    as (fs' & f' & b' & Ht & Hst & _ & _ & _ & _ & Hb & _ & _ & _ & Hd & Hg).
  - lia.
  - reflexivity.
  - reflexivity.
  - reflexivity.
  - reflexivity.
  - unfold DataBuffer_ok. cbn. lia.
  - lia.
  - lia.
  - exists fs', f', b'. split; [exact Ht |].
    split; [rewrite Hst; apply lookup_insert_eq |].
    split; [exact Hb |]. split; [exact Hd | exact Hg].
Defined.

(** X25.  Round trip of the positional calls on a BUFFER file whose
    [file_size_] is the size of its buffer: when [location] lies inside the
    file, [Write(handle, bytes, n, location)] returns after one sequential
    write, also when the bytes reach behind the end of the file, and
    [Read(handle, buffer, n, location)] then returns exactly the bytes
    written. *)
Theorem Write_at_Read_at_round_trip w rt fs h p f b buffer location :
  0 < w <= 64 ->
  file_ h = Some p -> store fs !! p = Some f ->
  data_protocol_ f = BUFFER -> data_buffer_ f = Some b ->
  DataBuffer_ok w b -> file_size_ f = size_ b ->
  0 <= location < size_ b -> (0 < length buffer)%nat ->
  location + Z.of_nat (length buffer) < 2 ^ w ->
  location + Z.of_nat (length buffer) < 2 ^ 63 ->
  size_ b < 2 ^ 63 ->
  exists fs' h',
    (forall fuel,
       Write_at (S fuel) w rt fs h buffer (Z.of_nat (length buffer)) location =
         Some (fs', h', Returns tt)) /\
    position_ h' = location + Z.of_nat (length buffer) /\
    (forall fuel,
       Read_at (S fuel) w rt fs' h' (Z.of_nat (length buffer)) location =
         Some (fs', h', Returns buffer)).
Proof.
  intros Hw Hh Hf Hp Hb Hok H3 Hloc Hlen Hend Hend63 H63.
  destruct h as [hfile hpos]. cbn [file_] in Hh. subst hfile.
  set (nr := Z.of_nat (length buffer)) in *.
  assert (Hnr : 0 < nr) by (unfold nr; lia).
  destruct (Write_buffer_effect w rt fs (mkWebFileHandle (Some p) location)
              p f b buffer nr)
    as (fs' & Hwr & Hst); try assumption;
    cbn [position_ file_]; try lia; try reflexivity.
  cbn [position_ set_position file_] in Hwr, Hst.
  rewrite i64_small in Hwr by lia.
  destruct (after_Write_buffer w f b location buffer nr)
    as (Hproto & b' & Hb' & Hok' & Hsz & Hdata & _);
    try assumption; try lia.
  destruct (Hsz H3) as [Hfs Hsize].
  assert (Hf' : store fs' !! p = Some (after_Write w f b location buffer nr))
    by (rewrite Hst; apply lookup_insert_eq).
  exists fs', (mkWebFileHandle (Some p) (location + nr)).
  split; [| split; [reflexivity |]].
  - intros fuel. unfold Write_at. cbn [file_ set_position position_].
    rewrite (deref_Some fs p f Hf).
    rewrite Write_loop_step by lia.
    change (set_position location _) with (mkWebFileHandle (Some p) location).
    rewrite Hwr.
    rewrite Z.sub_diag. change (i64 0) with 0.
    destruct fuel; reflexivity.
  - intros fuel. unfold Read_at. cbn [file_ set_position position_].
    rewrite (deref_Some fs' p _ Hf'), Hfs, Hsize.
    rewrite Read_loop_step by lia.
    change (set_position location _) with (mkWebFileHandle (Some p) location).
    rewrite (Read_buffer_returns w rt fs' (mkWebFileHandle (Some p) location)
               p _ b' nr Hw eq_refl Hf');
      [ | congruence | exact Hb' | exact Hok' | lia
        | cbn [position_]; lia | lia ].
    cbn [position_ set_position file_].
    replace (Z.min nr (size_ b' - location)) with nr by lia.
    rewrite Z.sub_diag. change (i64 0) with 0.
    rewrite Hdata. unfold nr. rewrite Nat2Z.id, firstn_all.
    destruct fuel; reflexivity.
Qed.

(** [abc] written at location 2 of the four bytes of [fs_buffer] and read
    back. *)
Lemma Write_at_Read_at_round_trip_witness :
  exists fs' h',
    Write_at 1 32 rt_plain fs_buffer first_handle abc 3 2 =
      Some (fs', h', Returns tt) /\
    Read_at 1 32 rt_plain fs' h' 3 2 = Some (fs', h', Returns abc).
Proof.
  destruct (Write_at_Read_at_round_trip 32 rt_plain fs_buffer first_handle 0%nat
              (deref fs_buffer 0%nat) (DataBuffer_new (abc ++ [Byte.x64]) 4) abc 2)
    as (fs' & h' & Hw & _ & Hr).
  - lia.
  - reflexivity.
  - reflexivity.
  - reflexivity.
  - reflexivity.
  - unfold DataBuffer_ok. cbn. lia.
  - reflexivity.
  - cbn. lia.
  - cbn. lia.
  - cbn. lia.
  - cbn. lia.
  - cbn. lia.
  - exists fs', h'. split; [apply (Hw 0%nat) | apply (Hr 0%nat)].
Defined.



(* ===================================================================== *)
(** * Registering and dropping files through WebDB *)
(* ===================================================================== *)

(** In a registry whose maps agree no file is filed under the next id or
    one behind it. *)
Lemma registry_ok_id_free fs id :
  registry_ok fs -> next_file_id_ fs <= id -> files_by_id_ fs !! id = None.
Proof.
  intros Hok Hid. destruct (files_by_id_ fs !! id) as [p |] eqn:E; [| reflexivity].
  pose proof (ids_below_next fs Hok _ _ E). lia.
Qed.

(** [RegisterFileBuffer] of a name that is not registered. *)
Lemma RegisterFileBuffer_fresh fs file_name file_buffer :
  files_by_name_ fs !! file_name = None ->
  files_by_id_ fs !! next_file_id_ fs = None ->
  exists fs' p,
    RegisterFileBuffer fs file_name file_buffer =
      (fs', Value (mkWebFileHandle (Some p) 0)) /\
    store fs !! p = None /\
    store fs' =
      <[p := mkWebFile (next_file_id_ fs) file_name BUFFER None None
                       (size_ file_buffer) (Some file_buffer) 1]> (store fs) /\
    files_by_id_ fs' = <[next_file_id_ fs := p]> (files_by_id_ fs) /\
    files_by_name_ fs' = <[file_name := p]> (files_by_name_ fs) /\
    next_file_id_ fs' = next_file_id_ fs + 1.
Proof.
  intros Hn Hi. unfold RegisterFileBuffer.
  change (files_by_name_ (log FsLock fs)) with (files_by_name_ fs). rewrite Hn.
  pose proof (is_fresh (dom (store fs))) as Hfresh.
  apply not_elem_of_dom in Hfresh.
  unfold AllocateFileID, make_shared, WebFileHandle_new.
  cbn -[fresh].
  set (p := fresh (dom (store fs))) in *.
  eexists _, p. split; [reflexivity |]. split; [exact Hfresh |].
  split.
  { unfold update_file, set_store, log; cbn.
    apply map_eq. intros q. rewrite lookup_alter.
    destruct (decide (p = q)) as [<- | Hne].
    - rewrite !lookup_insert_eq. reflexivity.
    - rewrite !lookup_insert_ne by exact Hne. reflexivity. }
  split; [cbn; apply map_insert_new_fresh, Hi |].
  split; [cbn; apply map_insert_new_fresh, Hn |]. reflexivity.
Qed.

(** [WebDB::RegisterFileBuffer] of a name that is neither registered nor
    pinned. *)
Lemma WebDB_RegisterFileBuffer_new have_file_lock fs pinned file_name buffer n :
  files_by_name_ fs !! file_name = None ->
  files_by_id_ fs !! next_file_id_ fs = None ->
  pinned !! file_name = None ->
  exists fs' p,
    WebDB_RegisterFileBuffer true have_file_lock (mkWebDB (Some fs) pinned)
      file_name buffer n =
      (mkWebDB (Some fs') (<[file_name := mkWebFileHandle (Some p) 0]> pinned),
       Returns Status_OK) /\
    store fs !! p = None /\
    store fs' =
      <[p := mkWebFile (next_file_id_ fs) file_name BUFFER None None n
                       (Some (DataBuffer_new buffer n)) 1]> (store fs) /\
    files_by_id_ fs' = <[next_file_id_ fs := p]> (files_by_id_ fs) /\
    files_by_name_ fs' = <[file_name := p]> (files_by_name_ fs) /\
    next_file_id_ fs' = next_file_id_ fs + 1.
Proof.
  intros Hn Hi Hpin.
  destruct (RegisterFileBuffer_fresh fs file_name (DataBuffer_new buffer n) Hn Hi)
    as (fs' & p & Hr & Hfresh & Hst & Hid & Hname & Hnext).
  exists fs', p. split; [| auto].
  unfold WebDB_RegisterFileBuffer, unpin.
  cbn [web_fs pinned_web_files_ negb]. rewrite Hpin, Hr.
  unfold pin, GetName. cbn [file_].
  assert (Hd : deref fs' p =
            mkWebFile (next_file_id_ fs) file_name BUFFER None None n
                      (Some (DataBuffer_new buffer n)) 1).
  { apply deref_Some. rewrite Hst. apply lookup_insert_eq. }
  rewrite Hd. cbn [file_name_]. rewrite Hpin. reflexivity.
Qed.

(** [WebDB::DropFile] of a name whose BUFFER file is held by the pinned
    handle alone. *)
Lemma WebDB_DropFile_pinned_buffer have_file_lock fs pinned file_name p f position :
  pinned !! file_name = Some (mkWebFileHandle (Some p) position) ->
  store fs !! p = Some f ->
  data_protocol_ f = BUFFER -> handle_count_ f = 1 -> file_name_ f = file_name ->
  files_by_name_ fs !! file_name = Some p ->
  exists fs',
    WebDB_DropFile have_file_lock (mkWebDB (Some fs) pinned) file_name =
      (mkWebDB (Some fs') (delete file_name pinned), Returns Status_OK) /\
    store fs' = <[p := set_handle_count 0 f]> (store fs) /\
    files_by_name_ fs' = delete file_name (files_by_name_ fs) /\
    files_by_id_ fs' = delete (file_id_ f) (files_by_id_ fs) /\
    next_file_id_ fs' = next_file_id_ fs.
Proof.
  intros Hpin Hf Hp Hc Hname Hn.
  unfold WebDB_DropFile, unpin. cbn [web_fs pinned_web_files_]. rewrite Hpin.
  unfold WebFileHandle_destroy, Close. cbn [file_].
  set (fs1 := update_file p _ (log FsLock fs)).
  assert (Hf1 : store fs1 !! p = Some (set_handle_count 0 f)).
  { subst fs1.
    erewrite (store_update_file_Some p
                (fun f => set_handle_count (handle_count_ f - 1) f))
      by exact Hf.
    rewrite Hc. reflexivity. }
  assert (Hst1 : store fs1 = <[p := set_handle_count 0 f]> (store fs)).
  { subst fs1.
    rewrite (store_update_file_insert p
               (fun f => set_handle_count (handle_count_ f - 1) f)
               (log FsLock fs) f Hf).
    rewrite Hc. reflexivity. }
  rewrite (deref_Some fs1 p _ Hf1).
  cbn [handle_count_ data_protocol_ set_handle_count].
  change (0 <? 0) with false. cbv iota.
  assert (Hdrop : forall fs0,
            store fs0 = store fs1 -> files_by_name_ fs0 = files_by_name_ fs ->
            files_by_id_ fs0 = files_by_id_ fs ->
            next_file_id_ fs0 = next_file_id_ fs ->
            exists fs',
              (let '(fs2, dropped) := TryDropFile fs0 file_name in
               if negb dropped then
                 (mkWebDB (Some fs2) (delete file_name pinned),
                  Returns (Status_Invalid "file is in use"))
               else (mkWebDB (Some fs2) (delete file_name pinned), Returns Status_OK))
              = (mkWebDB (Some fs') (delete file_name pinned), Returns Status_OK) /\
              store fs' = <[p := set_handle_count 0 f]> (store fs) /\
              files_by_name_ fs' = delete file_name (files_by_name_ fs) /\
              files_by_id_ fs' = delete (file_id_ f) (files_by_id_ fs) /\
              next_file_id_ fs' = next_file_id_ fs).
  { intros fs0 Hs0 Hn0 Hi0 Hx0.
    assert (Hf0 : store fs0 !! p = Some (set_handle_count 0 f))
      by (rewrite Hs0; exact Hf1).
    unfold TryDropFile.
    change (files_by_name_ (log FsLock fs0)) with (files_by_name_ fs0).
    rewrite Hn0, Hn. rewrite !deref_log, (deref_Some fs0 p _ Hf0).
    cbn [handle_count_ set_handle_count file_id_ file_name_].
    change (0 =? 0) with true. cbv iota. cbn [negb].
    change (deref (set_files_by_id _ _) p) with (deref fs0 p).
    rewrite (deref_Some fs0 p _ Hf0). cbn [file_name_ set_handle_count].
    rewrite Hname.
    eexists. split; [reflexivity |].
    split; [cbn; rewrite Hs0; exact Hst1 |].
    split; [cbn; rewrite Hn0; reflexivity |].
    split; [cbn; rewrite Hi0; reflexivity | exact Hx0]. }
  cbn [position_].
  destruct have_file_lock; cbn [negb]; [rewrite decide_True by exact Hp |];
    apply Hdrop; reflexivity.
Qed.

(** X27.  Through [WebDB]: for a name that is neither registered nor
    pinned, in a registry whose two maps agree, [RegisterFileBuffer]
    succeeds and pins the file; [DropFile] then succeeds, and afterwards
    the name is not pinned and both maps are as they were at the start;
    a second [RegisterFileBuffer] of the name succeeds again, the file
    info then shows the size of the second buffer, and the file has a new
    id: the id of the dropped file is not used again. *)
Theorem WebDB_register_drop_register lock1 lock2 lock3 allow_full_http_reads
    fs pinned file_name bytes1 n1 bytes2 n2 :
  registry_ok fs ->
  files_by_name_ fs !! file_name = None -> pinned !! file_name = None ->
  exists db1 fs2 db3 fs3,
    WebDB_RegisterFileBuffer true lock1 (mkWebDB (Some fs) pinned)
      file_name bytes1 n1 = (db1, Returns Status_OK) /\
    is_Some (pinned_web_files_ db1 !! file_name) /\
    WebDB_DropFile lock2 db1 file_name =
      (mkWebDB (Some fs2) pinned, Returns Status_OK) /\
    files_by_name_ fs2 = files_by_name_ fs /\
    files_by_id_ fs2 = files_by_id_ fs /\
    WebDB_RegisterFileBuffer true lock3 (mkWebDB (Some fs2) pinned)
      file_name bytes2 n2 = (db3, Returns Status_OK) /\
    web_fs db3 = Some fs3 /\
    is_Some (pinned_web_files_ db3 !! file_name) /\
    FindMember "fileSize"
      (snd (WriteFileInfo_by_name allow_full_http_reads fs3 file_name)) =
      Some (JDouble n2) /\
    FindMember "fileId"
      (snd (WriteFileInfo_by_name allow_full_http_reads fs3 file_name)) =
      Some (JUint (next_file_id_ fs + 1)).
Proof.
  intros Hok Hn Hpin.
  pose proof (registry_ok_id_free fs (next_file_id_ fs) Hok ltac:(lia)) as Hi.
  pose proof (registry_ok_id_free fs (next_file_id_ fs + 1) Hok ltac:(lia)) as Hi1.
  destruct (WebDB_RegisterFileBuffer_new lock1 fs pinned file_name bytes1 n1
              Hn Hi Hpin)
    as (fs1 & p & H1 & Hfresh & Hst1 & Hid1 & Hname1 & Hnext1).
  destruct (WebDB_DropFile_pinned_buffer lock2 fs1
              (<[file_name := mkWebFileHandle (Some p) 0]> pinned) file_name p
              (mkWebFile (next_file_id_ fs) file_name BUFFER None None n1
                         (Some (DataBuffer_new bytes1 n1)) 1) 0)
    as (fs2 & H2 & Hst2 & Hname2 & Hid2 & Hnext2).
  { apply lookup_insert_eq. }
  { rewrite Hst1. apply lookup_insert_eq. }
  { reflexivity. }
  { reflexivity. }
  { reflexivity. }
  { rewrite Hname1. apply lookup_insert_eq. }
  rewrite (delete_insert_id _ _ _ Hpin) in H2.
  rewrite Hname1, (delete_insert_id _ _ _ Hn) in Hname2.
  cbn [file_id_] in Hid2. rewrite Hid1, (delete_insert_id _ _ _ Hi) in Hid2.
  destruct (WebDB_RegisterFileBuffer_new lock3 fs2 pinned file_name bytes2 n2)
    as (fs3 & p3 & H3 & _ & Hst3 & _ & Hname3 & _).
  { rewrite Hname2. exact Hn. }
  { rewrite Hid2, Hnext2, Hnext1. exact Hi1. }
  { exact Hpin. }
  eexists _, fs2, _, fs3. split; [exact H1 |].
  split; [cbn; rewrite lookup_insert_eq; eauto |].
  split; [exact H2 |]. split; [exact Hname2 |]. split; [exact Hid2 |].
  split; [exact H3 |]. split; [reflexivity |].
  split; [cbn; rewrite lookup_insert_eq; eauto |].
  unfold WriteFileInfo_by_name.
  change (files_by_name_ (log FsLock fs3)) with (files_by_name_ fs3).
  rewrite Hname3, lookup_insert_eq. cbn [snd]. rewrite deref_log.
  erewrite deref_Some by (rewrite Hst3; apply lookup_insert_eq).
  rewrite Hnext2, Hnext1. split; reflexivity.
Qed.

(** [abc], then its first two bytes, registered as ["t.bin"] in the new
    database. *)
Lemma WebDB_register_drop_register_witness :
  exists db1 fs2 db3 fs3,
    WebDB_RegisterFileBuffer true true (mkWebDB (Some WebFileSystem_new) ∅)
      "t.bin" abc 3 = (db1, Returns Status_OK) /\
    WebDB_DropFile true db1 "t.bin" = (mkWebDB (Some fs2) ∅, Returns Status_OK) /\
    WebDB_RegisterFileBuffer true true (mkWebDB (Some fs2) ∅) "t.bin"
      (take 2 abc) 2 = (db3, Returns Status_OK) /\
    web_fs db3 = Some fs3 /\
    FindMember "fileSize" (snd (WriteFileInfo_by_name false fs3 "t.bin")) =
      Some (JDouble 2).
Proof.
  destruct (WebDB_register_drop_register true true true false
              WebFileSystem_new ∅ "t.bin" abc 3 (take 2 abc) 2)
    as (db1 & fs2 & db3 & fs3 & H1 & _ & H2 & _ & _ & H3 & Hfs & _ & Hsize & _).
  - apply registry_ok_new.
  - reflexivity.
  - reflexivity.
  - exists db1, fs2, db3, fs3. auto.
Defined.

(** Unpinning the handle that alone holds a NATIVE or HTTP file: with the
    file lock the file leaves both maps, without it the file stays. *)
Lemma unpin_last_handle have_file_lock fs pinned file_name p position f :
  pinned !! file_name = Some (mkWebFileHandle (Some p) position) ->
  store fs !! p = Some f ->
  data_protocol_ f <> BUFFER -> handle_count_ f = 1 ->
  files_by_id_ fs !! file_id_ f = Some p ->
  exists fs1,
    unpin have_file_lock fs pinned file_name =
      (fs1, delete file_name pinned, Returns tt) /\
    store fs1 = <[p := set_handle_count 0 f]> (store fs) /\
    next_file_id_ fs1 = next_file_id_ fs /\
    files_by_name_ fs1 =
      (if have_file_lock then delete (file_name_ f) (files_by_name_ fs)
       else files_by_name_ fs) /\
    files_by_id_ fs1 =
      (if have_file_lock then delete (file_id_ f) (files_by_id_ fs)
       else files_by_id_ fs).
Proof.
  intros Hpin Hf Hp Hc Hid.
  unfold unpin. rewrite Hpin.
  unfold WebFileHandle_destroy, Close. cbn [file_ position_].
  set (fs1 := update_file p _ (log FsLock fs)).
  assert (Hf1 : store fs1 !! p = Some (set_handle_count 0 f)).
  { subst fs1.
    erewrite (store_update_file_Some p
                (fun f => set_handle_count (handle_count_ f - 1) f))
      by exact Hf.
    rewrite Hc. reflexivity. }
  assert (Hst1 : store fs1 = <[p := set_handle_count 0 f]> (store fs)).
  { subst fs1.
    rewrite (store_update_file_insert p
               (fun f => set_handle_count (handle_count_ f - 1) f)
               (log FsLock fs) f Hf).
    rewrite Hc. reflexivity. }
  rewrite (deref_Some fs1 p _ Hf1).
  cbn [handle_count_ data_protocol_ set_handle_count].
  change (0 <? 0) with false. cbv iota.
  destruct have_file_lock; cbn [negb].
  - rewrite decide_False by exact Hp.
    rewrite !deref_log, (deref_Some fs1 p _ Hf1).
    cbn [file_id_ file_name_ set_handle_count].
    change (deref (set_files_by_name _ _) p) with (deref fs1 p).
    rewrite (deref_Some fs1 p _ Hf1).
    cbn [file_id_ file_name_ set_handle_count].
    assert (Ei : forall m x, files_by_id_ (set_files_by_name m x) = files_by_id_ x)
      by reflexivity.
    rewrite !Ei. clear Ei.
    change (files_by_id_ (log FsLock _)) with (files_by_id_ fs).
    rewrite Hid.
    eexists. split; [reflexivity |]. split; [exact Hst1 |].
    split; [reflexivity |]. split; reflexivity.
  - eexists. split; [reflexivity |]. split; [exact Hst1 |].
    split; [reflexivity |]. split; reflexivity.
Qed.

(** X28.  [WebDB::RegisterFileURL] of a name that is pinned, where the
    pinned handle alone holds a NATIVE or HTTP file, in a registry whose
    two maps agree.  (1) When the buffered filesystem cannot drop the file,
    the call fails with "File is already registered and is still buffered"
    and changes nothing.  (2) Otherwise the old handle is unpinned first;
    when its destruction obtains the file lock, the old file leaves the
    registry, and the name is registered anew with the given url, the next
    file id and a new pinned handle, whatever the old url was.  (3) When
    the destruction does not obtain the file lock, the old file stays
    registered; if its url differs from the given one, the call fails with
    "File already registered: <name>", and the name is no longer pinned,
    while the old file is still registered without a handle. *)
Theorem WebDB_RegisterFileURL_again fs pinned file_name file_url file_size p
    position f :
  registry_ok fs ->
  pinned !! file_name = Some (mkWebFileHandle (Some p) position) ->
  files_by_name_ fs !! file_name = Some p -> store fs !! p = Some f ->
  data_protocol_ f <> BUFFER -> handle_count_ f = 1 ->
  (forall have_file_lock,
     WebDB_RegisterFileURL false have_file_lock (mkWebDB (Some fs) pinned)
       file_name file_url file_size =
       (mkWebDB (Some fs) pinned,
        Returns (Status_Invalid
                   "File is already registered and is still buffered"))) /\
  (exists fs' p',
     WebDB_RegisterFileURL true true (mkWebDB (Some fs) pinned)
       file_name file_url file_size =
       (mkWebDB (Some fs') (<[file_name := mkWebFileHandle (Some p') 0]> pinned),
        Returns Status_OK) /\
     files_by_name_ fs' !! file_name = Some p' /\
     deref fs' p' =
       mkWebFile (next_file_id_ fs) file_name (inferDataProtocol file_url)
                 (Some file_url) None (default 0 file_size) None 1 /\
     files_by_id_ fs' !! file_id_ f = None) /\
  (data_url_ f <> Some file_url ->
   exists fs',
     WebDB_RegisterFileURL true false (mkWebDB (Some fs) pinned)
       file_name file_url file_size =
       (mkWebDB (Some fs') (delete file_name pinned),
        Returns (AlreadyRegistered file_name)) /\
     files_by_name_ fs' !! file_name = Some p /\
     store fs' !! p = Some (set_handle_count 0 f)).
Proof.
  intros Hok Hpin Hn Hf Hp Hc.
  destruct (by_name_ok fs Hok _ _ Hn) as (_ & Hname & Hid).
  rewrite (deref_Some fs p f Hf) in Hname, Hid.
  split; [intros have_file_lock; reflexivity |]. split.
  - destruct (unpin_last_handle true fs pinned file_name p position f
                Hpin Hf Hp Hc Hid)
      as (fs1 & Hu & Hst1 & Hnext1 & Hname1 & Hid1).
    assert (Hn1 : files_by_name_ fs1 !! file_name = None)
      by (rewrite Hname1, Hname; apply lookup_delete_eq).
    assert (Hi1 : files_by_id_ fs1 !! next_file_id_ fs1 = None).
    { rewrite Hid1, Hnext1. apply lookup_delete_None. right.
      apply registry_ok_id_free; [exact Hok | lia]. }
    destruct (RegisterFileURL_fresh fs1 file_name file_url file_size Hn1 Hi1)
      as (fs' & p' & Hr & _ & Hd & Hid' & Hname' & _).
    exists fs', p'.
    split.
    { unfold WebDB_RegisterFileURL. cbn [web_fs pinned_web_files_ negb].
      rewrite Hu, Hr. unfold pin, GetName. cbn [file_]. rewrite Hd. cbn [file_name_].
      rewrite lookup_delete_eq. cbn [facade_result].
      rewrite insert_delete_eq. reflexivity. }
    split; [rewrite Hname'; apply lookup_insert_eq |].
    split; [rewrite Hd, Hnext1; reflexivity |].
    rewrite Hid', Hnext1.
    pose proof (ids_below_next fs Hok _ _ Hid) as Hlt.
    rewrite lookup_insert_ne by lia.
    rewrite Hid1. apply lookup_delete_eq.
  - intros Hurl.
    destruct (unpin_last_handle false fs pinned file_name p position f
                Hpin Hf Hp Hc Hid)
      as (fs1 & Hu & Hst1 & Hnext1 & Hname1 & Hid1).
    assert (Hf1 : store fs1 !! p = Some (set_handle_count 0 f))
      by (rewrite Hst1; apply lookup_insert_eq).
    eexists.
    split.
    { unfold WebDB_RegisterFileURL. cbn [web_fs pinned_web_files_ negb].
      rewrite Hu.
      rewrite (RegisterFileURL_conflict fs1 file_name file_url file_size p).
      - reflexivity.
      - rewrite Hname1. exact Hn.
      - rewrite (deref_Some fs1 p _ Hf1). exact Hurl. }
    split; [cbn; rewrite Hname1; exact Hn | exact Hf1].
Qed.

(** ["a.csv"] of [fs_native], pinned by the handle of its registration, is
    registered again with another url. *)
Lemma WebDB_RegisterFileURL_again_witness :
  exists fs' p',
    WebDB_RegisterFileURL true true
      (mkWebDB (Some fs_native) {[ "a.csv" := first_handle ]})
      "a.csv" "http://host/a.csv" None =
      (mkWebDB (Some fs')
         (<["a.csv" := mkWebFileHandle (Some p') 0]> {[ "a.csv" := first_handle ]}),
       Returns Status_OK) /\
    data_url_ (deref fs' p') = Some "http://host/a.csv".
Proof.
  destruct (WebDB_RegisterFileURL_again fs_native {[ "a.csv" := first_handle ]}
              "a.csv" "http://host/a.csv" None 0%nat 0 (deref fs_native 0%nat))
    as (_ & (fs' & p' & Hr & _ & Hd & _) & _).
  - apply RegisterFileURL_registry_ok, registry_ok_new.
  - reflexivity.
  - reflexivity.
  - reflexivity.
  - discriminate.
  - reflexivity.
  - exists fs', p'. split; [exact Hr |]. rewrite Hd. reflexivity.
Defined.

(* ===================================================================== *)
(** * The state of an Arrow IPC insert, and positions *)
(* ===================================================================== *)

(** X29.  The decoder and the options of an Arrow IPC insert are set
    together and reset together: this holds for a new connection, and
    [InsertArrowFromIPCStream], [CreatePreparedStatement] and
    [ClosePreparedStatement] keep it.  While it holds,
    [InsertArrowFromIPCStream] never uses a decoder or options that are not
    there: the call always returns a status. *)
Theorem InsertArrowFromIPCStream_state w eng c stream options_json text
    statement_id :
  ipc_state_ok c ->
  ipc_state_ok Connection_new /\
  ipc_state_ok (fst (InsertArrowFromIPCStream eng c stream options_json)) /\
  (exists s, snd (InsertArrowFromIPCStream eng c stream options_json) = Returns s) /\
  ipc_state_ok (fst (CreatePreparedStatement w eng c text)) /\
  ipc_state_ok (fst (ClosePreparedStatement c statement_id)).
Proof.
  intros Hc. split; [split; reflexivity |].
  assert (Hinsert :
            ipc_state_ok (fst (InsertArrowFromIPCStream eng c stream options_json)) /\
            exists s,
              snd (InsertArrowFromIPCStream eng c stream options_json) = Returns s).
  { unfold ipc_state_ok in *.
    unfold InsertArrowFromIPCStream, InsertArrowFromIPCStream_try,
      InsertArrowFromIPCStream_begin, InsertArrowFromIPCStream_consume,
      InsertArrowFromIPCStream_finish.
    destruct (arrow_ipc_stream_ c) as [buffered |] eqn:Es.
    - destruct (arrow_insert_options_ c) as [options |] eqn:Eo;
        [| exfalso; destruct Hc as [_ Hc]; discriminate (Hc eq_refl)].
      rewrite Es.
      destruct (ipc_consume eng buffered stream) as [s |what];
        [| cbn; split; [tauto | eauto]].
      destruct (ok s); cbn [negb];
        [| cbn; rewrite Es, Eo; split; [split; discriminate | eauto]].
      cbn [arrow_ipc_stream_ set_arrow_ipc_stream arrow_insert_options_].
      destruct (ipc_is_eos eng (buffered ++ stream)); cbn [negb];
        [| cbn; rewrite Eo; split; [split; discriminate | eauto]].
      destruct (ok (ExportRecordBatchReader eng (buffered ++ stream))); cbn [negb];
        [| cbn; rewrite Eo; split; [split; discriminate | eauto]].
      rewrite Eo.
      destruct (arrow_scan eng options (buffered ++ stream)) as [[] | what];
        cbn; split; try tauto; eauto.
    - destruct (options_ReadFrom eng options_json) as [[options | s] | what].
      + cbn [arrow_ipc_stream_ set_arrow_ipc_stream set_arrow_insert_options
             arrow_insert_options_].
        destruct (ipc_consume eng [] stream) as [s | what];
          [| cbn; split; [tauto | eauto]].
        destruct (ok s); cbn [negb];
          [| cbn; split; [split; discriminate | eauto]].
        cbn [arrow_ipc_stream_ set_arrow_ipc_stream arrow_insert_options_ app].
        destruct (ipc_is_eos eng stream); cbn [negb];
          [| cbn; split; [split; discriminate | eauto]].
        destruct (ok (ExportRecordBatchReader eng stream)); cbn [negb];
          [| cbn; split; [split; discriminate | eauto]].
        destruct (arrow_scan eng options stream) as [[] | what];
          cbn; split; try tauto; eauto.
      + cbn. rewrite Es. split; [tauto | eauto].
      + cbn. split; [tauto | eauto]. }
  destruct Hinsert as [H1 H2]. split; [exact H1 |]. split; [exact H2 |].
  split.
  - unfold CreatePreparedStatement.
    destruct (Prepare eng text) as [prep | what]; [| exact Hc].
    destruct (success prep); cbn [negb fst]; [| exact Hc].
    destruct (_ =? _); exact Hc.
  - unfold ClosePreparedStatement.
    destruct (prepared_statements_ c !! statement_id); exact Hc.
Qed.

(** A first chunk on a new connection. *)
Lemma InsertArrowFromIPCStream_state_witness :
  ipc_state_ok (fst (InsertArrowFromIPCStream eng_plain Connection_new abc "{}")) /\
  exists s,
    snd (InsertArrowFromIPCStream eng_plain Connection_new abc "{}") = Returns s.
Proof.
  destruct (InsertArrowFromIPCStream_state 64 eng_plain Connection_new abc "{}"
              "SELECT 1" 0) as (_ & H1 & H2 & _).
  - split; reflexivity.
  - split; [exact H1 | exact H2].
Defined.

(** X30.  The position stays inside a BUFFER file.  For a file whose
    [file_size_] is the size of its buffer and a handle whose position is
    at most that size: after a sequential [Read] the position is still at
    most the size and the filesystem is as before; after a sequential
    [Write] the position is the end of the written bytes, which is at most
    the new size of the file. *)
Theorem position_stays_in_file w rt fs h p f b :
  0 < w <= 64 ->
  file_ h = Some p -> store fs !! p = Some f ->
  data_protocol_ f = BUFFER -> data_buffer_ f = Some b ->
  DataBuffer_ok w b -> file_size_ f = size_ b -> size_ b < 2 ^ 63 ->
  0 <= position_ h <= size_ b ->
  (forall nr_bytes, 0 <= nr_bytes < 2 ^ w ->
   exists h' n bytes,
     Read w rt fs h nr_bytes = (fs, h', Returns (n, bytes)) /\
     position_ h' = position_ h + n /\ 0 <= n /\
     position_ h' <= file_size_ f) /\
  (forall buffer nr_bytes,
     0 <= nr_bytes <= Z.of_nat (length buffer) ->
     position_ h + nr_bytes < 2 ^ w ->
     exists fs' h' f',
       Write w rt fs h buffer nr_bytes = (fs', h', Returns (i64 nr_bytes)) /\
       store fs' !! p = Some f' /\
       position_ h' = position_ h + nr_bytes /\
       position_ h' <= file_size_ f').
Proof.
  intros Hw Hh Hf Hp Hb Hok H3 H63 Hpos. split.
  - intros nr_bytes Hnr.
    rewrite (Read_buffer_returns w rt fs h p f b nr_bytes Hw Hh Hf Hp Hb Hok
               H63 Hpos Hnr).
    eexists _, _, _. split; [reflexivity |].
    cbn [position_ set_position]. rewrite H3. lia.
  - intros buffer nr_bytes Hnr Hend.
    destruct (Write_buffer_effect w rt fs h p f b buffer nr_bytes)
      as (fs' & Hwr & Hst); try assumption; try lia.
    destruct (after_Write_buffer w f b (position_ h) buffer nr_bytes)
      as (_ & b' & _ & _ & Hsz & _); try assumption; try lia.
    destruct (Hsz H3) as [Hfs Hsize].
    eexists fs', _, _. split; [exact Hwr |].
    split; [rewrite Hst; apply lookup_insert_eq |].
    split; [reflexivity |].
    cbn [position_ set_position]. rewrite Hfs, Hsize. lia.
Qed.

(** Reading three bytes at position 2 of the four bytes of [fs_buffer]
    leaves the position at the end of the file. *)
Lemma position_stays_in_file_witness :
  exists h' n bytes,
    Read 32 rt_plain fs_buffer (set_position 2 first_handle) 3 =
      (fs_buffer, h', Returns (n, bytes)) /\
    position_ h' = 2 + n /\ 0 <= n /\ position_ h' <= 4.
Proof.
  destruct (position_stays_in_file 32 rt_plain fs_buffer
              (set_position 2 first_handle) 0%nat (deref fs_buffer 0%nat)
              (DataBuffer_new (abc ++ [Byte.x64]) 4)) as [Hread _].
  - lia.
  - reflexivity.
  - reflexivity.
  - reflexivity.
  - reflexivity.
  - unfold DataBuffer_ok. cbn. lia.
  - reflexivity.
  - cbn. lia.
  - cbn. lia.
  - apply (Hread 3). lia.
Defined.
